(** * automatique-game: capture scheduler, error classifier and macro playback

    A shallow embedding of the parts of the application that decide its
    observable behaviour:

    - [src/types.ts]               the step vocabulary;
    - [src/services/storage.ts]    the bounded log stores ([Storage]), the
      profile store ([Profiles]) and the feedback on training logs
      ([Feedback]);
    - [src/components/MacroView.tsx] the playback controller ([MacroView])
      and, from the second component of that file, the way [AnalysisView]
      renders it ([Playback]);
    - [src/components/VoiceControl.tsx] the recognition of voice commands
      ([Live.onresult]);
    - the [App] component (second half of [src/types.ts]): the ghost-cursor
      engine [animateSingleStep], the analysis cycle [triggerAnalysis] with
      its error classification, and [stopLiveAnalysis] ([App]); the capture
      loop, the start of live mode, the voice and upload handlers ([Live]);
      auto-learning ([Learning]).

    JavaScript numbers are modelled by exact rationals ([Q]), and results
    about them are stated up to [Qeq]; [momentum], the one number the code
    computes by repeated addition, is a double (a binary64 [float]) with the
    rounding of the code.  React state is threaded explicitly. *)

From Stdlib Require Import List String Ascii Bool ZArith QArith Qminmax Qabs Lia Lqa.
From Stdlib Require Import Uint63 PrimFloat SpecFloat FloatOps.
Import ListNotations.

Set Warnings "-register-all".
Local Open Scope Z_scope.

(** ** Step model ([src/types.ts]) *)

Record Point := { x : Q; y : Q }.

Record SwipeConfig := { speed : Q; randomness : Q; curveIntensity : Q }.

Inductive StepType := TAP | SWIPE | WAIT | DRAG | HUMAN_SWIPE.

Record MacroStep := {
  step_id : string;
  type : StepType;
  coordinates : option Point;
  endCoordinates : option Point;
  durationMs : Q;
  description : string;
  swipeConfig : option SwipeConfig;
  targetText : option string
}.

Inductive AppMode := UPLOAD | LIVE_VISION | SCREEN_SHARE.

Inductive Severity := WARNING | ERROR | FATAL.

(** [AnalysisResult]: the fields the scheduler and the controller read. *)
Record AnalysisResult := {
  title : string;
  summary : string;
  macroSequence : list MacroStep;
  newlyDiscoveredRules : list string;
  timestamp : Z
}.

Record TrainingLog := {
  log_id : Z;
  log_gameId : string;
  log_timestamp : Z;
  imageHash : string;
  aiPrediction : AnalysisResult
}.

(** The name a step kind is rendered with ([step.type] is a string in the
    source). *)
Definition typeName (t : StepType) : string :=
  match t with
  | TAP => "TAP"
  | SWIPE => "SWIPE"
  | WAIT => "WAIT"
  | DRAG => "DRAG"
  | HUMAN_SWIPE => "HUMAN_SWIPE"
  end.

(** ** JSON values, as far as the error classifier inspects them *)

Inductive json :=
| JNull
| JBool (b : bool)
| JNum (n : Q)
| JStr (s : string)
| JArr (items : list json)
| JObj (fields : list (string * json)).

Record ErrorLog := {
  err_id : Z;
  err_timestamp : Z;
  severity : Severity;
  message : json;
  ctx_mode : AppMode;
  ctx_gameId : string;
  ctx_gameName : string
}.

(** ** JavaScript helpers *)
Module JS.

Local Open Scope string_scope.

Definition Qlt_bool (a b : Q) : bool := negb (Qle_bool b a).

(** [a || b] on numbers: [0] is the only falsy rational. *)
Definition num_or (a b : Q) : Q := if Qeq_bool a 0 then b else a.

(** [String.prototype.startsWith] *)
Definition startsWith (s p : string) : bool := String.prefix p s.

(** [String.prototype.includes]: case-sensitive substring search. *)
Fixpoint includes (s needle : string) : bool :=
  if String.prefix needle s then true
  else match s with
       | EmptyString => false
       | String _ s' => includes s' needle
       end.

Definition isWhiteSpace (c : ascii) : bool :=
  let n := nat_of_ascii c in
  (Nat.eqb n 32 || (Nat.leb 9 n && Nat.leb n 13))%bool.

Fixpoint trimStart (s : string) : string :=
  match s with
  | String c s' => if isWhiteSpace c then trimStart s' else s
  | EmptyString => EmptyString
  end.

Fixpoint trimEnd (s : string) : string :=
  match s with
  | EmptyString => EmptyString
  | String c s' =>
    let r := trimEnd s' in
    if (isWhiteSpace c && (r =? ""))%bool then "" else String c r
  end.

(** [String.prototype.trim] (ASCII white space). *)
Definition trim (s : string) : string := trimEnd (trimStart s).

(** [s.substring(0, n)] *)
Definition substring0 (n : nat) (s : string) : string := String.substring 0 n s.

Definition newline : string := String (ascii_of_nat 10) "".

(** A JavaScript value as the catch block sees it: [None] is [undefined]. *)
Definition value := option json.

Definition truthy (v : value) : bool :=
  match v with
  | None => false
  | Some JNull => false
  | Some (JBool b) => b
  | Some (JNum n) => negb (Qeq_bool n 0)
  | Some (JStr s) => negb (s =? "")
  | Some (JArr _) => true
  | Some (JObj _) => true
  end.

(** The members of an object are kept in the order they were written; a
    key written twice holds the later value. *)
Fixpoint lookup (k : string) (fields : list (string * json)) : value :=
  match fields with
  | [] => None
  | (k', v) :: rest =>
    match lookup k rest with
    | Some later => Some later
    | None => if k' =? k then Some v else None
    end
  end.

(** [v.k] for a key [k] that no prototype defines (["error"], ["message"]):
    reading a property of [null] or [undefined] throws a TypeError (outer
    [None]); primitives and arrays have no such property. *)
Definition getProp (v : value) (k : string) : option value :=
  match v with
  | None => None
  | Some JNull => None
  | Some (JObj fields) => Some (lookup k fields)
  | Some _ => Some None
  end.

Definition isStr (needle : string) (j : json) : bool :=
  match j with JStr s => s =? needle | _ => false end.

(** [v.includes(needle)]: a string searches for a substring, an array for
    an element; [undefined] has no properties and the other values no
    [includes] method, so the call throws a TypeError ([None]). *)
Definition callIncludes (v : value) (needle : string) : option bool :=
  match v with
  | Some (JStr s) => Some (includes s needle)
  | Some (JArr items) => Some (existsb (isStr needle) items)
  | _ => None
  end.

(** [v.substring(0, n)]: only strings have the method. *)
Definition callSubstring0 (v : value) (n : nat) : option string :=
  match v with
  | Some (JStr s) => Some (substring0 n s)
  | _ => None
  end.

(** How a promise ended; [Pending] is a promise that never settles. *)
Inductive settled := Resolved | Rejected | Pending.

End JS.

(** ** Doubles: [Math.min] and the literal [0.1] *)
Module Math.

Local Open Scope float_scope.

(** [Math.min(a, b)]: NaN when either is NaN, and [-0] below [+0]. *)
Definition min (a b : float) : float :=
  if (is_nan a || is_nan b)%bool then nan
  else if a <? b then a
  else if b <? a then b
  else if get_sign a then a else b.

(** The literal [0.1]: the double nearest to one tenth. *)
Definition tenth : float := 0x1.999999999999ap-4.

(** An integer as a number (exact below 2^53). *)
Definition ofZ (z : Z) : float := of_uint63 (Uint63.of_Z z).

(** A number assigned to an integer attribute of the DOM, such as
    [canvas.height]: the fraction is dropped ([0] for NaN and the
    infinities). *)
Definition trunc (f : float) : Z :=
  match Prim2SF f with
  | S754_finite s m e =>
    let n := (if 0 <=? e then Zpos m * 2 ^ e else Z.shiftr (Zpos m) (- e))%Z in
    if s then (- n)%Z else n
  | _ => 0%Z
  end.

End Math.

(** ** A reading of JSON texts

    [JSON.parse] belongs to the runtime, so the classifier below takes it as
    a parameter and its theorems hold for every parse function.  This
    reference reader follows the JSON grammar (objects, arrays, strings with
    the short escapes, numbers, literals) and serves to run the classifier
    on concrete texts; [\u] escapes are outside it. *)
Module JSON.

Local Open Scope char_scope.

Definition dq : ascii := "034".
Definition backslash : ascii := "092".

(** [quote s] is [s] between double quotes. *)
Definition quote (s : string) : string :=
  String dq (s ++ String dq EmptyString)%string.

Definition isWs (c : ascii) : bool :=
  let n := nat_of_ascii c in
  (Nat.eqb n 32 || Nat.eqb n 9 || Nat.eqb n 10 || Nat.eqb n 13)%bool.

Fixpoint skipWs (s : string) : string :=
  match s with
  | String c s' => if isWs c then skipWs s' else s
  | EmptyString => EmptyString
  end.

Definition digitOf (c : ascii) : option Z :=
  let n := nat_of_ascii c in
  if (Nat.leb 48 n && Nat.leb n 57)%bool then Some (Z.of_nat (n - 48)%nat) else None.

(** The longest run of digits at the front of [s]: its value, its length
    and the rest. *)
Fixpoint digits (s : string) (acc : Z) (count : nat) : Z * nat * string :=
  match s with
  | String c s' =>
    match digitOf c with
    | Some d => digits s' (10 * acc + d) (S count)
    | None => (acc, count, s)
    end
  | EmptyString => (acc, count, s)
  end.

Definition intPart (s : string) : option (Z * string) :=
  match s with
  | String "0" s' => Some (0, s')
  | _ => match digits s 0 0 with
         | (_, O, _) => None
         | (n, _, rest) => Some (n, rest)
         end
  end.

Definition fracPart (s : string) : option (Q * string) :=
  match s with
  | String "." s' =>
    match digits s' 0 0 with
    | (_, O, _) => None
    | (n, k, rest) => Some (n # Z.to_pos (10 ^ Z.of_nat k), rest)
    end
  | _ => Some (0%Q, s)
  end.

Definition expPart (s : string) : option (Z * string) :=
  let signed (neg : bool) (s' : string) :=
      match digits s' 0 0 with
      | (_, O, _) => None
      | (n, _, rest) => Some (if neg then - n else n, rest)
      end in
  match s with
  | String c s' =>
    if (Ascii.eqb c "e" || Ascii.eqb c "E")%bool then
      match s' with
      | String "+" s'' => signed false s''
      | String "-" s'' => signed true s''
      | _ => signed false s'
      end
    else Some (0, s)
  | EmptyString => Some (0, s)
  end.

Definition pow10 (e : Z) : Q :=
  if (e <? 0)%Z then 1 # Z.to_pos (10 ^ (- e)) else inject_Z (10 ^ e).

Definition number (s : string) : option (Q * string) :=
  let '(neg, s) := match s with
                   | String "-" s' => (true, s')
                   | _ => (false, s)
                   end in
  match intPart s with
  | None => None
  | Some (i, s) =>
    match fracPart s with
    | None => None
    | Some (f, s) =>
      match expPart s with
      | None => None
      | Some (e, s) =>
        let v := ((inject_Z i + f) * pow10 e)%Q in
        Some (if neg then (- v)%Q else v, s)
      end
    end
  end.

Definition unescape (c : ascii) : option ascii :=
  if Ascii.eqb c dq then Some dq
  else if Ascii.eqb c backslash then Some backslash
  else if Ascii.eqb c "/" then Some "/"
  else if Ascii.eqb c "b" then Some "008"
  else if Ascii.eqb c "f" then Some "012"
  else if Ascii.eqb c "n" then Some "010"
  else if Ascii.eqb c "r" then Some "013"
  else if Ascii.eqb c "t" then Some "009"
  else None.

(** The characters of a string literal after its opening quote. *)
Fixpoint stringBody (s : string) : option (string * string) :=
  match s with
  | EmptyString => None
  | String c rest =>
    if Ascii.eqb c dq then Some (EmptyString, rest)
    else if Ascii.eqb c backslash then
      match rest with
      | String e rest' =>
        match unescape e, stringBody rest' with
        | Some ch, Some (body, r) => Some (String ch body, r)
        | _, _ => None
        end
      | EmptyString => None
      end
    else if Nat.ltb (nat_of_ascii c) 32 then None
    else
      match stringBody rest with
      | Some (body, r) => Some (String c body, r)
      | None => None
      end
  end.

Definition literal (word : string) (v : json) (s : string) : option (json * string) :=
  if String.prefix word s
  then Some (v, String.substring (String.length word)
                                 (String.length s - String.length word)%nat s)
  else None.

Fixpoint value (fuel : nat) (s : string) {struct fuel} : option (json * string) :=
  match fuel with
  | O => None
  | S fuel' =>
    match skipWs s with
    | EmptyString => None
    | String c rest as s0 =>
      if Ascii.eqb c "{" then
        match skipWs rest with
        | String "}" r => Some (JObj [], r)
        | _ => match members fuel' rest with
               | Some (fs, r) => Some (JObj fs, r)
               | None => None
               end
        end
      else if Ascii.eqb c "[" then
        match skipWs rest with
        | String "]" r => Some (JArr [], r)
        | _ => match elements fuel' rest with
               | Some (vs, r) => Some (JArr vs, r)
               | None => None
               end
        end
      else if Ascii.eqb c dq then
        match stringBody rest with
        | Some (str, r) => Some (JStr str, r)
        | None => None
        end
      else if Ascii.eqb c "t" then literal "true" (JBool true) s0
      else if Ascii.eqb c "f" then literal "false" (JBool false) s0
      else if Ascii.eqb c "n" then literal "null" JNull s0
      else match number s0 with
           | Some (n, r) => Some (JNum n, r)
           | None => None
           end
    end
  end
with elements (fuel : nat) (s : string) {struct fuel} : option (list json * string) :=
  match fuel with
  | O => None
  | S fuel' =>
    match value fuel' s with
    | Some (v, r) =>
      match skipWs r with
      | String "," r' =>
        match elements fuel' r' with
        | Some (vs, r'') => Some (v :: vs, r'')
        | None => None
        end
      | String "]" r' => Some ([v], r')
      | _ => None
      end
    | None => None
    end
  end
with members (fuel : nat) (s : string) {struct fuel}
     : option (list (string * json) * string) :=
  match fuel with
  | O => None
  | S fuel' =>
    match skipWs s with
    | String c rest =>
      if Ascii.eqb c dq then
        match stringBody rest with
        | Some (key, r) =>
          match skipWs r with
          | String ":" r1 =>
            match value fuel' r1 with
            | Some (v, r2) =>
              match skipWs r2 with
              | String "," r3 =>
                match members fuel' r3 with
                | Some (fs, r4) => Some ((key, v) :: fs, r4)
                | None => None
                end
              | String "}" r3 => Some ([(key, v)], r3)
              | _ => None
              end
            | None => None
            end
          | _ => None
          end
        | None => None
        end
      else None
    | EmptyString => None
    end
  end.

(** The whole text must be one value, white space aside. *)
Definition parse (s : string) : option json :=
  match value (2 * String.length s + 2)%nat s with
  | Some (v, rest) =>
    match skipWs rest with
    | EmptyString => Some v
    | _ => None
    end
  | None => None
  end.

End JSON.

(** ** [src/services/storage.ts]: the log stores

    [localStorage] holds one JSON text per key; a key that was never written
    reads as [null].  The two keys the log functions use are modelled as two
    optional lists (serialising and parsing a list of records gives the list
    back). *)
Module Storage.

Record localStorage := {
  nexus_training_logs : option (list TrainingLog);
  nexus_system_errors : option (list ErrorLog)
}.

Definition empty : localStorage :=
  {| nexus_training_logs := None; nexus_system_errors := None |}.

(** [logsString ? JSON.parse(logsString) : []] *)
Definition parsed {A} (item : option (list A)) : list A :=
  match item with Some l => l | None => [] end.

(** [Array.prototype.shift]: drops the front element, if any. *)
Definition shift {A} (l : list A) : list A := tl l.

(** [Array.prototype.push] *)
Definition push {A} (l : list A) (a : A) : list A := l ++ [a].

Definition saveLog (log : TrainingLog) (ls : localStorage) : localStorage :=
  let logs := parsed (nexus_training_logs ls) in
  let logs := if (50 <? Z.of_nat (List.length logs)) then shift logs else logs in
  let logs := push logs log in
  {| nexus_training_logs := Some logs;
     nexus_system_errors := nexus_system_errors ls |}.

Definition saveErrorLog (error : ErrorLog) (ls : localStorage) : localStorage :=
  let logs := parsed (nexus_system_errors ls) in
  let logs := if (50 <? Z.of_nat (List.length logs)) then shift logs else logs in
  let logs := push logs error in
  {| nexus_training_logs := nexus_training_logs ls;
     nexus_system_errors := Some logs |}.

Definition getSystemErrorCount (ls : localStorage) : nat :=
  List.length (parsed (nexus_system_errors ls)).

Definition clearErrorLogs (ls : localStorage) : localStorage :=
  {| nexus_training_logs := nexus_training_logs ls;
     nexus_system_errors := None |}.

End Storage.

(** ** [src/components/MacroView.tsx]: the playback controller *)
Module MacroView.

Record State := {
  currentStepIndex : Z;
  isLocallyPlaying : bool
}.

(** [useState(-1)], [useState(initialIsPlaying)] *)
Definition initial (initialIsPlaying : bool) : State :=
  {| currentStepIndex := -1; isLocallyPlaying := initialIsPlaying |}.

(** [sequence[i]]: [undefined] outside the array. *)
Definition sequence_at (sequence : list MacroStep) (i : Z) : option MacroStep :=
  if i <? 0 then None else nth_error sequence (Z.to_nat i).

Definition len (sequence : list MacroStep) : Z := Z.of_nat (List.length sequence).

(** The effect that runs when the [sequence] prop changes:
    "When sequence changes (new analysis), reset and autoplay". *)
Definition onSequenceChange (sequence : list MacroStep) (st : State) : State :=
  if 0 <? len sequence
  then {| currentStepIndex := 0; isLocallyPlaying := true |}
  else {| currentStepIndex := -1; isLocallyPlaying := false |}.

Definition togglePlay (st : State) : State :=
  {| currentStepIndex := currentStepIndex st;
     isLocallyPlaying := negb (isLocallyPlaying st) |}.

(** The component returns the "NO ACTION SEQUENCE GENERATED" placeholder
    for an empty sequence: the playback buttons exist only otherwise. *)
Definition controlsRendered (sequence : list MacroStep) : bool :=
  negb (len sequence =? 0).

Section Preview.
(** The world the preview callback acts on (the [App] state), and the
    callback itself: it returns the new world and how its promise
    ended. *)
Context {W : Type}.
Variable sequence : list MacroStep.
Variable onPreviewStep : option (MacroStep -> W -> W * JS.settled).

(** [if (sequence[i] && onPreviewStep) onPreviewStep(sequence[i])]: the
    promise is not awaited. *)
Definition preview (i : Z) (w : W) : W :=
  match sequence_at sequence i, onPreviewStep with
  | Some step, Some f => fst (f step w)
  | _, _ => w
  end.

Definition stepForward (st : State) (w : W) : State * W :=
  let nextIndex := Z.min (currentStepIndex st + 1) (len sequence - 1) in
  ({| currentStepIndex := nextIndex; isLocallyPlaying := false |},
   preview nextIndex w).

Definition stepBackward (st : State) (w : W) : State * W :=
  let prevIndex := Z.max (currentStepIndex st - 1) 0 in
  ({| currentStepIndex := prevIndex; isLocallyPlaying := false |},
   preview prevIndex w).

(** [try { await onPreviewStep(stepData) } catch (e) { console.warn }]:
    a rejection is swallowed; [None] when the awaited promise never
    settles, in which case the loop never gets past the [await]. *)
Definition awaitPreview (stepData : MacroStep) (w : W) : option W :=
  match onPreviewStep with
  | Some f =>
    match f stepData w with
    | (w', JS.Resolved) => Some w'
    | (w', JS.Rejected) => Some w'
    | (_, JS.Pending) => None
    end
  | None => Some w
  end.

(** The [while] loop of [playLoop].  [playingRef] is
    [isPlayingRef.current]; [st] is the state the loop's updates are
    queued on.  The loop reads the index by
    [let idx = -1; setCurrentStepIndex(prev => { idx = prev; return prev; })]:
    React puts the updater in the component's queue and runs it when it
    next renders the component, so [idx] is still [-1] on the lines that
    follow, and the updater itself leaves the index as it is.
    [interrupted i] tells whether, while the step was shown at index [i],
    the component was unmounted or playback was paused (the check after
    the preview).  Each unfolding is one iteration; [None] means that the
    loop did not return: the budget was too small, or an awaited preview
    never settles.  Timed waits of the loop itself are not recorded. *)
Fixpoint whilePlaying (budget : nat) (interrupted : Z -> bool) (playingRef : bool)
         (st : State) (w : W) : option (State * W) :=
  match budget with
  | O => None
  | S budget' =>
    if negb playingRef then Some (st, w) else
    let idx := -1 in
    if len sequence <=? idx then
      Some ({| currentStepIndex := currentStepIndex st;
               isLocallyPlaying := false |}, w)
    else
      match sequence_at sequence idx with
      | None =>
        Some ({| currentStepIndex := currentStepIndex st;
                 isLocallyPlaying := false |}, w)
      | Some stepData =>
        match awaitPreview stepData w with
        | None => None
        | Some w' =>
          if interrupted idx then Some (st, w')
          else whilePlaying budget' interrupted true
                 {| currentStepIndex := currentStepIndex st + 1;
                    isLocallyPlaying := isLocallyPlaying st |} w'
        end
      end
  end.

(** [playLoop]: nothing to do on an empty sequence. *)
Definition playLoop (budget : nat) (interrupted : Z -> bool) (playingRef : bool)
           (st : State) (w : W) : option (State * W) :=
  if len sequence =? 0 then Some (st, w)
  else whilePlaying budget interrupted playingRef st w.

(** The playback effect, [if (isLocallyPlaying) playLoop()], in a commit
    where no other effect queues an update: the ref holds the render's
    [isLocallyPlaying] (the effect that copies it runs first).  React
    runs the effect after every render in which [isLocallyPlaying],
    [sequence], the swipe configuration or [onPreviewStep] has changed;
    each run is this function on the state of that render. *)
Definition playbackEffect (budget : nat) (interrupted : Z -> bool)
           (st : State) (w : W) : option (State * W) :=
  if isLocallyPlaying st then playLoop budget interrupted true st w
  else Some (st, w).

(** The effects of the commit in which the [sequence] prop is a new array
    (also the commit that mounts the component), for the render that
    showed [render].  The sequence effect queues its updates; then the
    playback effect runs, [sequence] being one of its dependencies, on the
    render's [isLocallyPlaying], and what its loop sets is queued after
    the sequence effect's updates.  The result is the state of the next
    render. *)
Definition onNewSequence (budget : nat) (interrupted : Z -> bool)
           (render : State) (w : W) : option (State * W) :=
  let queued := onSequenceChange sequence render in
  if isLocallyPlaying render then playLoop budget interrupted true queued w
  else Some (queued, w).

(** The same, followed up to the render after which no update is queued:
    when that commit turned [isLocallyPlaying] on, the playback effect
    runs again in the next commit. *)
Definition afterNewSequence (budget : nat) (interrupted : Z -> bool)
           (render : State) (w : W) : option (State * W) :=
  match onNewSequence budget interrupted render w with
  | Some (st, w') =>
    if (isLocallyPlaying st && negb (isLocallyPlaying render))%bool
    then playbackEffect budget interrupted st w'
    else Some (st, w')
  | None => None
  end.

End Preview.

End MacroView.

(** ** The [App] component: playback engine and analysis scheduler *)
Module App.

Import JS.
Local Open Scope Q_scope.
Local Open Scope string_scope.

(** *** State *)

Record CursorState := {
  cur_x : Q;
  cur_y : Q;
  isDown : bool;
  cur_type : string;
  isVisible : bool;
  precisionMode : bool
}.

(** What an observer of one animation sees, in order: a cursor pose handed
    to [setCursorState], or a timed wait
    ([await new Promise(r => setTimeout(r, ms))]). *)
Inductive event :=
| Render (c : CursorState)
| Sleep (ms : Q).

Record GameProfile := {
  profile_id : string;
  profile_name : string;
  notes : string
}.

(** The [useRef] cells.  Timer handles are positive numbers, hence truthy
    whenever present.  [srcObject] is [videoRef.current.srcObject]: the
    tracks of the attached stream, [None] when no stream is attached. *)
Record Refs := {
  timerRef : option positive;
  retryIntervalRef : option positive;
  isLiveRef : bool;
  srcObject : option (list positive)
}.

(** The browser around the component: the timers that are armed, the next
    handle [setTimeout]/[setInterval] hands out, every [track.stop()] call
    made so far, the cursor timeline, and [localStorage]. *)
Record Browser := {
  activeTimers : list positive;
  nextHandle : positive;
  stoppedTracks : list positive;
  timeline : list event;
  storage : Storage.localStorage
}.

(** The [useState] cells that drive behaviour (status texts are
    presentation and left out). *)
Record State := {
  mode : AppMode;
  isAnalyzing : bool;
  result : option AnalysisResult;
  error : option string;
  retryTimer : Q;
  cursorState : CursorState;
  isAutoPilot : bool;
  momentum : float;
  refs : Refs;
  browser : Browser
}.

Definition initialCursor : CursorState :=
  {| cur_x := 500; cur_y := 500; isDown := false; cur_type := "IDLE";
     isVisible := false; precisionMode := false |}.

Definition initial : State :=
  {| mode := UPLOAD; isAnalyzing := false; result := None; error := None;
     retryTimer := 0; cursorState := initialCursor;
     isAutoPilot := true; momentum := 1%float;
     refs := {| timerRef := None; retryIntervalRef := None;
                isLiveRef := false; srcObject := None |};
     browser := {| activeTimers := []; nextHandle := 1%positive;
                   stoppedTracks := []; timeline := [];
                   storage := Storage.empty |} |}.

(** *** State setters *)

Definition setMode (m : AppMode) (st : State) : State :=
  {| mode := m; isAnalyzing := isAnalyzing st; result := result st;
     error := error st;
     retryTimer := retryTimer st; cursorState := cursorState st;
     isAutoPilot := isAutoPilot st; momentum := momentum st;
     refs := refs st; browser := browser st |}.

Definition setIsAnalyzing (b : bool) (st : State) : State :=
  {| mode := mode st; isAnalyzing := b; result := result st;
     error := error st;
     retryTimer := retryTimer st; cursorState := cursorState st;
     isAutoPilot := isAutoPilot st; momentum := momentum st;
     refs := refs st; browser := browser st |}.

Definition setResult (r : option AnalysisResult) (st : State) : State :=
  {| mode := mode st; isAnalyzing := isAnalyzing st; result := r;
     error := error st;
     retryTimer := retryTimer st; cursorState := cursorState st;
     isAutoPilot := isAutoPilot st; momentum := momentum st;
     refs := refs st; browser := browser st |}.

Definition setError (e : option string) (st : State) : State :=
  {| mode := mode st; isAnalyzing := isAnalyzing st; result := result st;
     error := e;
     retryTimer := retryTimer st; cursorState := cursorState st;
     isAutoPilot := isAutoPilot st; momentum := momentum st;
     refs := refs st; browser := browser st |}.

Definition setRetryTimer (f : Q -> Q) (st : State) : State :=
  {| mode := mode st; isAnalyzing := isAnalyzing st; result := result st;
     error := error st;
     retryTimer := f (retryTimer st); cursorState := cursorState st;
     isAutoPilot := isAutoPilot st; momentum := momentum st;
     refs := refs st; browser := browser st |}.

Definition setIsAutoPilot (b : bool) (st : State) : State :=
  {| mode := mode st; isAnalyzing := isAnalyzing st; result := result st;
     error := error st;
     retryTimer := retryTimer st; cursorState := cursorState st;
     isAutoPilot := b; momentum := momentum st;
     refs := refs st; browser := browser st |}.

Definition setMomentum (f : float -> float) (st : State) : State :=
  {| mode := mode st; isAnalyzing := isAnalyzing st; result := result st;
     error := error st;
     retryTimer := retryTimer st; cursorState := cursorState st;
     isAutoPilot := isAutoPilot st; momentum := f (momentum st);
     refs := refs st; browser := browser st |}.

Definition withRefs (f : Refs -> Refs) (st : State) : State :=
  {| mode := mode st; isAnalyzing := isAnalyzing st; result := result st;
     error := error st;
     retryTimer := retryTimer st; cursorState := cursorState st;
     isAutoPilot := isAutoPilot st; momentum := momentum st;
     refs := f (refs st); browser := browser st |}.

Definition withBrowser (f : Browser -> Browser) (st : State) : State :=
  {| mode := mode st; isAnalyzing := isAnalyzing st; result := result st;
     error := error st;
     retryTimer := retryTimer st; cursorState := cursorState st;
     isAutoPilot := isAutoPilot st; momentum := momentum st;
     refs := refs st; browser := f (browser st) |}.

Definition record (e : event) (b : Browser) : Browser :=
  {| activeTimers := activeTimers b; nextHandle := nextHandle b;
     stoppedTracks := stoppedTracks b; timeline := timeline b ++ [e];
     storage := storage b |}.

(** [setCursorState(f)]: the new pose is also what the observer sees. *)
Definition setCursorState (f : CursorState -> CursorState) (st : State) : State :=
  let c := f (cursorState st) in
  withBrowser (record (Render c))
    {| mode := mode st; isAnalyzing := isAnalyzing st; result := result st;
       error := error st;
       retryTimer := retryTimer st; cursorState := c;
       isAutoPilot := isAutoPilot st; momentum := momentum st;
       refs := refs st; browser := browser st |}.

(** [await new Promise(r => setTimeout(r, ms))] *)
Definition sleep (ms : Q) (st : State) : State :=
  withBrowser (record (Sleep ms)) st.

(** *** The ghost-cursor engine: [animateSingleStep] *)

Definition isUpload (m : AppMode) : bool :=
  match m with UPLOAD => true | _ => false end.

Definition isSwipeKind (t : StepType) : bool :=
  match t with SWIPE | HUMAN_SWIPE | DRAG => true | _ => false end.

(** "Easing function for natural movement":
    [t < .5 ? 2 * t * t : -1 + (4 - 2 * t) * t] for a HUMAN_SWIPE, the
    identity for the other kinds. *)
Definition ease (ty : StepType) (t : Q) : Q :=
  match ty with
  | HUMAN_SWIPE => if Qlt_bool t (1#2) then 2 * t * t else -1 + (4 - 2 * t) * t
  | _ => t
  end.

(** [const baseDuration = step.durationMs || 500;
     const duration = baseDuration / speedFactor;] *)
Definition swipeDuration (speedFactor : Q) (step : MacroStep) : Q :=
  let baseDuration := num_or (durationMs step) 500 in
  baseDuration / speedFactor.

(** The [requestAnimationFrame] callback [animateSwipe], run on the
    animation frames the browser delivers; [frames] lists their
    [elapsed = currentTime - startTime].  The promise stays pending if the
    frames stop before the progress reaches 1. *)
Fixpoint animateSwipe (step : MacroStep) (duration : Q) (frames : list Q)
         (st : State) : State * settled :=
  match frames with
  | [] => (st, Pending)
  | elapsed :: frames' =>
    let progress := Qmin (elapsed / duration) 1 in
    let st :=
      match coordinates step, endCoordinates step with
      | Some c, Some e =>
        let t := ease (type step) progress in
        let currentX := x c + (x e - x c) * t in
        let currentY := y c + (y e - y c) * t in
        setCursorState
          (fun _ => {| cur_x := currentX; cur_y := currentY; isDown := true;
                       cur_type := typeName (type step); isVisible := true;
                       precisionMode := false |}) st
      | _, _ => st
      end in
    if Qlt_bool progress 1 then animateSwipe step duration frames' st
    else
      (setCursorState
         (fun prev => {| cur_x := cur_x prev; cur_y := cur_y prev;
                         isDown := false; cur_type := cur_type prev;
                         isVisible := isVisible prev;
                         precisionMode := precisionMode prev |}) st,
       Resolved)
  end.

(** "1. Travel Phase (Move to target)" *)
Definition travelPhase (speedFactor : Q) (step : MacroStep) (st : State) : State :=
  match coordinates step with
  | Some c =>
    let st := setCursorState
                (fun _ => {| cur_x := x c; cur_y := y c; isDown := false;
                             cur_type := "MOVE"; isVisible := true;
                             precisionMode := false |}) st in
    sleep (200 / speedFactor) st
  | None => st
  end.

(** "2. Target Lock Phase (Brief pause for precision visual)" *)
Definition lockPhase (step : MacroStep) (st : State) : State :=
  match coordinates step, type step with
  | Some _, WAIT => st
  | Some _, _ =>
    let st := setCursorState
                (fun prev => {| cur_x := cur_x prev; cur_y := cur_y prev;
                                isDown := isDown prev; cur_type := cur_type prev;
                                isVisible := isVisible prev;
                                precisionMode := true |}) st in
    sleep 50 st
  | None, _ => st
  end.

(** The TAP branch of "3. Action Phase". *)
Definition tapAction (speedFactor : Q) (step : MacroStep) (st : State) : State :=
  let st :=
    match coordinates step with
    | Some c =>
      setCursorState
        (fun prev => {| cur_x := x c; cur_y := y c; isDown := true;
                        cur_type := "TAP"; isVisible := isVisible prev;
                        precisionMode := true |}) st
    | None =>
      setCursorState
        (fun prev => {| cur_x := cur_x prev; cur_y := cur_y prev; isDown := true;
                        cur_type := "TAP"; isVisible := isVisible prev;
                        precisionMode := true |}) st
    end in
  let pressDuration := 100 / speedFactor in
  let st := sleep pressDuration st in
  setCursorState
    (fun prev => {| cur_x := cur_x prev; cur_y := cur_y prev; isDown := false;
                    cur_type := cur_type prev; isVisible := isVisible prev;
                    precisionMode := false |}) st.

(** The swipe branch: press, then hand over to the frame callback. *)
Definition swipeAction (speedFactor : Q) (frames : list Q) (step : MacroStep)
           (st : State) : State * settled :=
  let st := setCursorState
              (fun prev => {| cur_x := cur_x prev; cur_y := cur_y prev;
                              isDown := true; cur_type := typeName (type step);
                              isVisible := isVisible prev;
                              precisionMode := false |}) st in
  animateSwipe step (swipeDuration speedFactor step) frames st.

(** The WAIT branch. *)
Definition waitAction (step : MacroStep) (st : State) : State :=
  let st := setCursorState
              (fun prev => {| cur_x := cur_x prev; cur_y := cur_y prev;
                              isDown := isDown prev; cur_type := "WAIT...";
                              isVisible := isVisible prev;
                              precisionMode := precisionMode prev |}) st in
  sleep (durationMs step) st.

(** "Post-action recovery (reduced by momentum)" *)
Definition recover (speedFactor : Q) (st : State) : State :=
  sleep (100 / speedFactor) st.

(** Whether the swipe branch of the action phase is taken. *)
Definition swipeReady (step : MacroStep) : bool :=
  (isSwipeKind (type step)
   && match coordinates step with Some _ => true | None => false end
   && match endCoordinates step with Some _ => true | None => false end)%bool.

(** "3. Action Phase" followed by the recovery wait.  The swipe branch
    returns the animation promise itself, so nothing runs after it. *)
Definition actAndRecover (speedFactor : Q) (frames : list Q) (step : MacroStep)
           (st : State) : State * settled :=
  match type step with
  | TAP => (recover speedFactor (tapAction speedFactor step st), Resolved)
  | _ =>
    if swipeReady step then swipeAction speedFactor frames step st
    else
      match type step with
      | WAIT => (recover speedFactor (waitAction step st), Resolved)
      | _ => (recover speedFactor st, Resolved)
      end
  end.

(** "Increase momentum (max 2.0x speed)", then show the cursor. *)
Definition beginStep (st : State) : State :=
  let st := setMomentum (fun prev => Math.min (prev + Math.tenth)%float 2%float) st in
  setCursorState
    (fun prev => {| cur_x := cur_x prev; cur_y := cur_y prev;
                    isDown := isDown prev; cur_type := cur_type prev;
                    isVisible := true; precisionMode := false |}) st.

(** [animateSingleStep].  [speedFactor] and [closureMode] are the values
    of [momentum] and [mode] the callback closed over
    ([useCallback(..., [momentum, mode])]); [isAutoPilotRef.current] is
    read from the state.  Cancelling a frame request left over from an
    earlier animation is not modelled. *)
Definition animateSingleStep (speedFactor : Q) (closureMode : AppMode)
           (frames : list Q) (step : option MacroStep) (st : State)
  : State * settled :=
  match step with
  | None => (st, Resolved)
  | Some step =>
    if (negb (isAutoPilot st) && negb (isUpload closureMode))%bool
    then (st, Resolved)
    else
      let st := beginStep st in
      let st := travelPhase speedFactor step st in
      let st := lockPhase step st in
      actAndRecover speedFactor frames step st
  end.

(** [onPreviewStep={isAutoPilot ? animateSingleStep : undefined}], with the
    frames each step's animation receives. *)
Definition onPreviewStep (speedFactor : Q) (closureMode : AppMode)
           (framesFor : MacroStep -> list Q) (isAutoPilotProp : bool)
  : option (MacroStep -> State -> State * settled) :=
  if isAutoPilotProp
  then Some (fun step st =>
               animateSingleStep speedFactor closureMode (framesFor step)
                                 (Some step) st)
  else None.

(** Steps animated one after the other, each through the callback of the
    render it was started from: the [speedFactor] and [mode] that callback
    closed over, the frames its animation receives, and the step. *)
Fixpoint animateSteps (calls : list (Q * AppMode * list Q * MacroStep))
         (st : State) : State :=
  match calls with
  | [] => st
  | (speedFactor, closureMode, frames, step) :: rest =>
    animateSteps rest
      (fst (animateSingleStep speedFactor closureMode frames (Some step) st))
  end.

(** *** Timers *)

(** [window.setTimeout] / [window.setInterval]: arm a timer and return its
    handle. *)
Definition armTimer (st : State) : positive * State :=
  let h := nextHandle (browser st) in
  (h, withBrowser
        (fun b => {| activeTimers := h :: activeTimers b;
                     nextHandle := Pos.succ (nextHandle b);
                     stoppedTracks := stoppedTracks b; timeline := timeline b;
                     storage := storage b |}) st).

(** [clearTimeout] / [clearInterval] *)
Definition clearTimer (h : positive) (st : State) : State :=
  withBrowser
    (fun b => {| activeTimers := filter (fun h' => negb (Pos.eqb h' h)) (activeTimers b);
                 nextHandle := nextHandle b;
                 stoppedTracks := stoppedTracks b; timeline := timeline b;
                 storage := storage b |}) st.

Definition isArmed (h : positive) (st : State) : bool :=
  existsb (Pos.eqb h) (activeTimers (browser st)).

(** *** Error classification: the [catch] block of [triggerAnalysis] *)

(** [JSON.stringify(e)]: a text, [undefined] (for [undefined], functions
    and symbols), or an exception of its own (cyclic values). *)
Inductive stringified :=
| Text (s : string)
| Undefined
| StringifyThrows.

(** The value caught: a string, an [Error] with its message and stack, or
    anything else, given by what [JSON.stringify] makes of it. *)
Inductive thrown :=
| ThrownString (s : string)
| ThrownError (msg : string) (stack : option string)
| ThrownOther (r : stringified).

Inductive Category := RateLimit | Safety | Network | Other.

Record Classification := {
  technicalMessage : json;
  friendlyMessage : string;
  nextDelay : Q;
  isRateLimit : bool;
  isSafety : bool;
  isNetwork : bool
}.

(** The branch of the [if (isRateLimit) .. else if (isSafety) .. else if
    (isNetwork) .. else] chain that was taken. *)
Definition category (c : Classification) : Category :=
  if isRateLimit c then RateLimit
  else if isSafety c then Safety
  else if isNetwork c then Network
  else Other.

(** "Extract meaningful message": outer [None] when [JSON.stringify]
    throws, inner [None] for [undefined]. *)
Definition extractMessage (e : thrown) : option (option string) :=
  match e with
  | ThrownString s => Some (Some s)
  | ThrownError msg stack =>
    Some (Some match stack with
               | Some stk => if stk =? "" then msg else msg ++ newline ++ stk
               | None => msg
               end)
  | ThrownOther (Text s) => Some (Some s)
  | ThrownOther Undefined => Some None
  | ThrownOther StringifyThrows => None
  end.

(** [a || b] where evaluating either side may throw. *)
Definition orElse (a b : option bool) : option bool :=
  match a with
  | None => None
  | Some true => Some true
  | Some false => b
  end.

Section Classifier.

(** The runtime's [JSON.parse]; [None] stands for a SyntaxError. *)
Variable JSON_parse : string -> option json.

(** The inner [try { .. } catch { /* Ignore parse error */ }]: every
    exception leaves the message as it was. *)
Definition unwrap (text : option string) : value :=
  match text with
  | None => None
  | Some text =>
    let unchanged : value := Some (JStr text) in
    if startsWith (trim text) "{" then
      match JSON_parse text with
      | None => unchanged
      | Some jsonErr =>
        match getProp (Some jsonErr) "error" with
        | None => unchanged
        | Some err =>
          if truthy err then
            match getProp err "message" with
            | None => unchanged
            | Some m => if truthy m then m else unchanged
            end
          else unchanged
        end
      end
    else unchanged
  end.

(** "Categorize Error"; [None] when the block throws. *)
Definition classify (e : thrown) : option Classification :=
  match extractMessage e with
  | None => None
  | Some text =>
    let tm := unwrap text in
    let rateLimit := orElse (callIncludes tm "429")
                       (orElse (callIncludes tm "quota")
                               (callIncludes tm "RESOURCE_EXHAUSTED")) in
    let safety := orElse (callIncludes tm "SAFETY") (callIncludes tm "harmful") in
    let network := orElse (callIncludes tm "fetch") (callIncludes tm "network") in
    match tm, rateLimit, safety, network with
    | Some j, Some rl, Some sf, Some nw =>
      if rl then
        Some {| technicalMessage := j;
                friendlyMessage := "Quota Exceeded. Cooling down neural link...";
                nextDelay := 25000;
                isRateLimit := rl; isSafety := sf; isNetwork := nw |}
      else if sf then
        Some {| technicalMessage := j;
                friendlyMessage := "Safety filters triggered. Adjusting parameters.";
                nextDelay := 5000;
                isRateLimit := rl; isSafety := sf; isNetwork := nw |}
      else if nw then
        Some {| technicalMessage := j;
                friendlyMessage := "Network uplink lost. Reconnecting...";
                nextDelay := 8000;
                isRateLimit := rl; isSafety := sf; isNetwork := nw |}
      else
        match callSubstring0 tm 40 with
        | Some head =>
          Some {| technicalMessage := j;
                  friendlyMessage := "System Error: " ++ head ++ "...";
                  nextDelay := 5000;
                  isRateLimit := rl; isSafety := sf; isNetwork := nw |}
        | None => None
        end
    | _, _, _, _ => None
    end
  end.

(** *** [triggerAnalysis] *)

(** How [await analyzeGameState(..)] ended. *)
Inductive outcome :=
| Analysed (analysis : AnalysisResult)
| Failed (e : thrown).

Definition withStorage (f : Storage.localStorage -> Storage.localStorage)
           (st : State) : State :=
  withBrowser
    (fun b => {| activeTimers := activeTimers b; nextHandle := nextHandle b;
                 stoppedTracks := stoppedTracks b; timeline := timeline b;
                 storage := f (storage b) |}) st.

(** The [try] body after a successful analysis (profile auto-learning
    and the voice read-out are left out: they touch neither the
    scheduler nor the playback state). *)
Definition onAnalysed (base64Images : list string) (currentProfile : GameProfile)
           (now : Z) (analysis : AnalysisResult) (st : State) : State :=
  let st := setResult (Some analysis) st in
  let st := setError None st in
  let logEntry :=
    {| log_id := now; log_gameId := profile_id currentProfile;
       log_timestamp := timestamp analysis;
       imageHash := String.substring 0 30 (hd "" base64Images);
       aiPrediction := analysis |} in
  withStorage (Storage.saveLog logEntry) st.

(** The [catch] body once the failure is classified.  [renderMode] is
    the [mode] of the render this [triggerAnalysis] belongs to, which is
    what the error record's context holds. *)
Definition onClassified (renderMode : AppMode) (currentProfile : GameProfile)
           (now : Z) (c : Classification) (st : State) : State :=
  let errLog :=
    {| err_id := now; err_timestamp := now;
       severity := if isRateLimit c then WARNING else ERROR;
       message := technicalMessage c;
       ctx_mode := renderMode; ctx_gameId := profile_id currentProfile;
       ctx_gameName := profile_name currentProfile |} in
  let st := withStorage (Storage.saveErrorLog errLog) st in
  if isRateLimit c then
    let st := setError None st in
    let st := setRetryTimer (fun _ => nextDelay c / 1000) st in
    let '(h, st) := armTimer st in
    withRefs (fun r => {| timerRef := timerRef r; retryIntervalRef := Some h;
                          isLiveRef := isLiveRef r; srcObject := srcObject r |}) st
  else
    setError (Some (friendlyMessage c)) st.

(** The [finally] block: "Only continue if Live Mode AND Auto-Pilot is
    Enabled". *)
Definition onFinally (nextDelay : Q) (st : State) : State :=
  let st := setIsAnalyzing false st in
  if (isLiveRef (refs st) && isAutoPilot st)%bool then
    let '(h, st) := armTimer st in
    withRefs (fun r => {| timerRef := Some h;
                          retryIntervalRef := retryIntervalRef r;
                          isLiveRef := isLiveRef r; srcObject := srcObject r |}) st
  else st.

(** [triggerAnalysis] up to [await analyzeGameState(..)]: "Reset
    momentum on new analysis (Brain reset)". *)
Definition beginAnalysis (st : State) : State :=
  let st := setIsAnalyzing true st in
  let st := setRetryTimer (fun _ => 0) st in
  let st := setMomentum (fun _ => 1%float) st in
  match retryIntervalRef (refs st) with
  | Some h => clearTimer h st
  | None => st
  end.

(** [triggerAnalysis] from the moment the analysis promise has settled:
    the rest of the [try], or the [catch], and the [finally].  The
    returned promise rejects when the [catch] block itself throws. *)
Definition finishAnalysis (base64Images : list string)
           (renderMode : AppMode) (currentProfile : GameProfile) (now : Z)
           (out : outcome) (st : State) : State * settled :=
  match out with
  | Analysed analysis =>
    (onFinally 3000 (onAnalysed base64Images currentProfile now analysis st),
     Resolved)
  | Failed e =>
    match classify e with
    | Some c =>
      (onFinally (nextDelay c) (onClassified renderMode currentProfile now c st),
       Resolved)
    | None => (onFinally 3000 st, Rejected)
    end
  end.

(** One whole cycle, nothing else running while the analysis is
    awaited. *)
Definition triggerAnalysis (base64Images : list string)
           (renderMode : AppMode) (currentProfile : GameProfile) (now : Z)
           (out : outcome) (st : State) : State * settled :=
  finishAnalysis base64Images renderMode currentProfile now out (beginAnalysis st).

End Classifier.

(** The callback of the retry interval, which fires once per second while
    the interval [h] is armed:
    [setRetryTimer(prev => Math.max(0, prev - 1))]. *)
Definition retryTick (h : positive) (st : State) : State :=
  if isArmed h st then setRetryTimer (fun prev => Qmax 0 (prev - 1)) st else st.

Fixpoint retryTicks (n : nat) (h : positive) (st : State) : State :=
  match n with
  | O => st
  | S n' => retryTicks n' h (retryTick h st)
  end.

(** *** [stopLiveAnalysis] *)

Definition stopLiveAnalysis (st : State) : State :=
  let st := withRefs (fun r => {| timerRef := timerRef r;
                                  retryIntervalRef := retryIntervalRef r;
                                  isLiveRef := false; srcObject := srcObject r |}) st in
  let st := match timerRef (refs st) with
            | Some h =>
              withRefs (fun r => {| timerRef := None;
                                    retryIntervalRef := retryIntervalRef r;
                                    isLiveRef := isLiveRef r;
                                    srcObject := srcObject r |})
                       (clearTimer h st)
            | None => st
            end in
  let st := match retryIntervalRef (refs st) with
            | Some h =>
              withRefs (fun r => {| timerRef := timerRef r;
                                    retryIntervalRef := None;
                                    isLiveRef := isLiveRef r;
                                    srcObject := srcObject r |})
                       (clearTimer h st)
            | None => st
            end in
  let st := setRetryTimer (fun _ => 0) st in
  let st := match srcObject (refs st) with
            | Some tracks =>
              let st := withBrowser
                          (fun b => {| activeTimers := activeTimers b;
                                       nextHandle := nextHandle b;
                                       stoppedTracks := stoppedTracks b ++ tracks;
                                       timeline := timeline b;
                                       storage := storage b |}) st in
              withRefs (fun r => {| timerRef := timerRef r;
                                    retryIntervalRef := retryIntervalRef r;
                                    isLiveRef := isLiveRef r; srcObject := None |}) st
            | None => st
            end in
  setCursorState
    (fun prev => {| cur_x := cur_x prev; cur_y := cur_y prev; isDown := isDown prev;
                    cur_type := cur_type prev; isVisible := false;
                    precisionMode := precisionMode prev |}) st.

(** The refs once live mode is off: no timer, no interval, no stream. *)
Definition quiescent : Refs :=
  {| timerRef := None; retryIntervalRef := None;
     isLiveRef := false; srcObject := None |}.

(** The tracks of the stream currently attached to the video element. *)
Definition tracksOf (st : State) : list positive :=
  match srcObject (refs st) with Some tracks => tracks | None => [] end.

(** *** Observations on a run *)

(** Whether an event shows the pointer pressed. *)
Definition pressed (e : event) : bool :=
  match e with
  | Render c => isDown c
  | Sleep _ => false
  end.

(** Whether some delivered frame lies at or past the end of a swipe of
    the given duration, i.e. reaches progress 1. *)
Definition framesReachEnd (duration : Q) (frames : list Q) : bool :=
  existsb (fun elapsed => negb (Qlt_bool (Qmin (elapsed / duration) 1) 1)) frames.

(** The failure [e] is classified, and the record carries the text [m]. *)
Definition classifiedWith (JSON_parse : string -> option json) (e : thrown)
           (m : string) (c : Classification) : Prop :=
  classify JSON_parse e = Some c /\ technicalMessage c = JStr m.

End App.

(** ** The component tree: [App] renders [AnalysisView], which renders
    the controller *)
Module Playback.

(** The state of [App] and of the controller; [view] is [None] while no
    controller is mounted. *)
Record System := {
  app : App.State;
  view : option MacroView.State
}.

(** [AnalysisView] (the second component of
    [src/components/MacroView.tsx]) returns a placeholder while [result]
    is not set, and otherwise renders
    [<MacroView sequence={result.macroSequence || []} isPlaying={true}
    onPreviewStep={onPreviewStep}/>]: the controller's [sequence] prop,
    [None] when no controller is rendered. *)
Definition sequenceProp (st : App.State) : option (list MacroStep) :=
  match App.result st with
  | Some r => Some (macroSequence r)
  | None => None
  end.

(** The controller's state in the render that follows [sys]: a
    controller that was not on screen (no result, or none mounted yet) is
    mounted with [isPlaying={true}]. *)
Definition mounted (sys : System) : MacroView.State :=
  match App.result (app sys), view sys with
  | Some _, Some v => v
  | _, _ => MacroView.initial true
  end.

(** [onPreviewStep={isAutoPilot ? animateSingleStep : undefined}], handed
    on by [AnalysisView] as it is.  [speedFactor] is the [momentum] the
    rendered [animateSingleStep] closed over. *)
Definition callback (speedFactor : Q) (framesFor : MacroStep -> list Q)
           (a : App.State) : option (MacroStep -> App.State -> App.State * JS.settled) :=
  App.onPreviewStep speedFactor (App.mode a) framesFor (App.isAutoPilot a).

(** A new sequence arrives: the analysis resolves, [triggerAnalysis]
    stores it with [setResult(analysis)], the next render hands its
    [macroSequence], a new array, to the controller, and the effects
    run ([MacroView.afterNewSequence]). *)
Definition attach (JSON_parse : string -> option json)
           (base64Images : list string) (renderMode : AppMode)
           (currentProfile : App.GameProfile) (now : Z)
           (analysis : AnalysisResult)
           (speedFactor : Q) (framesFor : MacroStep -> list Q)
           (budget : nat) (interrupted : Z -> bool) (sys : System)
  : option System :=
  let a := fst (App.finishAnalysis JSON_parse base64Images renderMode
                                   currentProfile now
                                   (App.Analysed analysis) (app sys)) in
  match sequenceProp a with
  | None => Some {| app := a; view := None |}
  | Some sequence =>
    match MacroView.afterNewSequence sequence (callback speedFactor framesFor a)
                                     budget interrupted (mounted sys) a with
    | Some (v, a') => Some {| app := a'; view := Some v |}
    | None => None
    end
  end.

(** An analysis cycle that delivers a sequence while nothing else runs:
    the cycle begins, and its result is attached. *)
Definition analysisCycle (JSON_parse : string -> option json)
           (base64Images : list string) (renderMode : AppMode)
           (currentProfile : App.GameProfile) (now : Z)
           (analysis : AnalysisResult)
           (speedFactor : Q) (framesFor : MacroStep -> list Q)
           (budget : nat) (interrupted : Z -> bool) (sys : System)
  : option System :=
  attach JSON_parse base64Images renderMode currentProfile now analysis
         speedFactor framesFor budget interrupted
         {| app := App.beginAnalysis (app sys); view := view sys |}.

(** The playback effect of a mounted controller driving the engine, in a
    commit in which the sequence is the one of the render before. *)
Definition play (speedFactor : Q) (framesFor : MacroStep -> list Q)
           (budget : nat) (interrupted : Z -> bool) (sys : System)
  : option System :=
  match sequenceProp (app sys), view sys with
  | Some sequence, Some v =>
    match MacroView.playbackEffect sequence
            (callback speedFactor framesFor (app sys))
            budget interrupted v (app sys) with
    | Some (v', a) => Some {| app := a; view := Some v' |}
    | None => None
    end
  | _, _ => Some sys
  end.

(** The Play/Pause button of a mounted controller: the toggle, and the
    playback effect of the render that follows. *)
Definition pressPlay (speedFactor : Q) (framesFor : MacroStep -> list Q)
           (budget : nat) (interrupted : Z -> bool) (sys : System)
  : option System :=
  play speedFactor framesFor budget interrupted
       {| app := app sys; view := option_map MacroView.togglePlay (view sys) |}.

(** The step buttons of a mounted controller. *)
Definition stepForward (speedFactor : Q) (framesFor : MacroStep -> list Q)
           (sys : System) : System :=
  match sequenceProp (app sys), view sys with
  | Some sequence, Some v =>
    let '(v', a) := MacroView.stepForward sequence
                      (callback speedFactor framesFor (app sys)) v (app sys) in
    {| app := a; view := Some v' |}
  | _, _ => sys
  end.

Definition stepBackward (speedFactor : Q) (framesFor : MacroStep -> list Q)
           (sys : System) : System :=
  match sequenceProp (app sys), view sys with
  | Some sequence, Some v =>
    let '(v', a) := MacroView.stepBackward sequence
                      (callback speedFactor framesFor (app sys)) v (app sys) in
    {| app := a; view := Some v' |}
  | _, _ => sys
  end.

End Playback.

(** ** Concrete inputs used by the examples *)
Module Samples.

Local Open Scope string_scope.

Definition profile : App.GameProfile :=
  {| App.profile_id := "universal_auto";
     App.profile_name := "UNIVERSAL / AUTO-DETECT";
     App.notes := "AI will automatically identify the game type and objectives." |}.

Definition step (ty : StepType) (from to : option Point) (ms : Q) : MacroStep :=
  {| step_id := "s"; type := ty; coordinates := from; endCoordinates := to;
     durationMs := ms; description := "sample step"; swipeConfig := None;
     targetText := None |}.

Definition at_ (px py : Q) : option Point := Some {| x := px; y := py |}.

Definition analysis (steps : list MacroStep) : AnalysisResult :=
  {| title := "t"; summary := "s"; macroSequence := steps;
     newlyDiscoveredRules := []; timestamp := 1700000000000 |}.

Definition trainingLog (n : Z) : TrainingLog :=
  {| log_id := n; log_gameId := "universal_auto"; log_timestamp := n;
     imageHash := "/9j/4AAQSkZJRgABAQAAAQABAAD"; aiPrediction := analysis [] |}.

Definition errorLog (n : Z) : ErrorLog :=
  {| err_id := n; err_timestamp := n; severity := ERROR;
     message := JStr "TypeError: fetch failed"; ctx_mode := LIVE_VISION;
     ctx_gameId := "universal_auto"; ctx_gameName := "UNIVERSAL / AUTO-DETECT" |}.

(** A store whose two logs hold [n] records each, oldest first. *)
Definition fullStore (n : nat) : Storage.localStorage :=
  {| Storage.nexus_training_logs :=
       Some (map (fun k => trainingLog (Z.of_nat k)) (seq 0 n));
     Storage.nexus_system_errors :=
       Some (map (fun k => errorLog (Z.of_nat k)) (seq 0 n)) |}.

(** The application in live mode with a camera stream of two tracks, a
    capture timer and a retry interval armed. *)
Definition live : App.State :=
  {| App.mode := LIVE_VISION; App.isAnalyzing := false; App.result := None;
     App.error := None; App.retryTimer := 7%Q;
     App.cursorState := App.initialCursor;
     App.isAutoPilot := true; App.momentum := 1%float;
     App.refs := {| App.timerRef := Some 3%positive;
                    App.retryIntervalRef := Some 4%positive;
                    App.isLiveRef := true;
                    App.srcObject := Some [1%positive; 2%positive] |};
     App.browser := {| App.activeTimers := [4%positive; 3%positive];
                       App.nextHandle := 5%positive;
                       App.stoppedTracks := []; App.timeline := [];
                       App.storage := Storage.empty |} |}.

Definition system : Playback.System :=
  {| Playback.app := App.initial; Playback.view := None |}.

End Samples.

(** ** The specification's wording, for comparison with the code *)
Module Spec.

Local Open Scope Q_scope.
Local Open Scope string_scope.

(** "a symmetric ease-in-ease-out curve ([t<0.5: 2t²], else [1-2(1-t)²])" *)
Definition ease (t : Q) : Q :=
  if JS.Qlt_bool t (1#2) then 2 * t ^ 2 else 1 - 2 * (1 - t) ^ 2.


(** "over [max(durationMs,1)/momentum] ms" *)
Definition swipeDuration (momentum durationMs : Q) : Q :=
  Qmax durationMs 1 / momentum.


(** "case-insensitive substring match": both sides in lower case (ASCII). *)
Definition lower (c : ascii) : ascii :=
  let n := nat_of_ascii c in
  if (Nat.leb 65 n && Nat.leb n 90)%bool then ascii_of_nat (n + 32) else c.

Fixpoint toLowerCase (s : string) : string :=
  match s with
  | EmptyString => EmptyString
  | String c s' => String (lower c) (toLowerCase s')
  end.

Definition includesIgnoreCase (text token : string) : bool :=
  JS.includes (toLowerCase text) (toLowerCase token).

(** The classification algorithm of the spec, "first match wins", over a
    given way of matching a token against the message text. *)
Definition categoryOf (matches : string -> string -> bool) (text : string)
  : App.Category :=
  if (matches text "429" || matches text "quota"
      || matches text "RESOURCE_EXHAUSTED")%bool then App.RateLimit
  else if (matches text "SAFETY" || matches text "harmful")%bool then App.Safety
  else if (matches text "fetch" || matches text "network")%bool then App.Network
  else App.Other.

(** "If the raw message is itself a JSON object containing an
    [error.message] field": that field, if the value is such an object. *)
Definition errorMessageField (j : json) : option json :=
  match j with
  | JObj fields =>
    match JS.lookup "error" fields with
    | Some (JObj errFields) => JS.lookup "message" errFields
    | _ => None
    end
  | _ => None
  end.

(** "unwrap it first and classify the unwrapped text": what is classified
    for the message [text], the field counting as there when it is
    truthy, and a message that does not start with a brace or does not
    parse being classified as it is. *)
Definition unwrapped (JSON_parse : string -> option json) (text : string) : json :=
  if JS.startsWith (JS.trim text) "{" then
    match option_map errorMessageField (JSON_parse text) with
    | Some (Some m) => if JS.truthy (Some m) then m else JStr text
    | _ => JStr text
    end
  else JStr text.

(** The number a double stands for ([0] for NaN and the infinities),
    to compare what the code computes with the spec's arithmetic. *)
Definition valueOf (f : float) : Q :=
  match Prim2SF f with
  | S754_finite s m e =>
    let v := if (0 <=? e)%Z then inject_Z (Zpos m * 2 ^ e)
             else Zpos m # (2 ^ Z.to_pos (- e)) in
    if s then - v else v
  | _ => 0
  end.

(** "min(1.0 + 0.1*(i+1), 2.0)", for the [k = i + 1] steps begun so far. *)
Definition momentumAfter (k : nat) : Q :=
  Qmin (1 + (1 # 10) * inject_Z (Z.of_nat k)) 2.

Definition backoffMs (c : App.Category) : Q :=
  match c with
  | App.RateLimit => 25000
  | App.Safety => 5000
  | App.Network => 8000
  | App.Other => 5000
  end.

End Spec.

(** ** [src/services/storage.ts]: profiles, feedback and statistics

    Each function reads the item of one key and writes it back, so each is
    given as a function on that item ([None] for a key never written). *)
Module Profiles.

Import App.
Local Open Scope string_scope.

(** "PRELOADED DATABASE" (the genre of a profile plays no part in the
    storage functions and is not kept). *)
Definition SYSTEM_PROFILES : list GameProfile :=
  [ {| profile_id := "universal_auto";
       profile_name := "âš¡ UNIVERSAL / AUTO-DETECT";
       notes := "AI will automatically identify the game type and objectives." |};
    {| profile_id := "fps_royale";
       profile_name := "PUBG / Free Fire / COD";
       notes := "Focus on recoil control, enemy spotting in distance, and safe zone movement. Prioritize headshots and cover." |};
    {| profile_id := "moba_standard";
       profile_name := "LoL: Wild Rift / MLBB";
       notes := "Prioritize last-hitting minions, tower defense, and ganking. Monitor mini-map for enemy rotation." |};
    {| profile_id := "strategy_clash";
       profile_name := "Clash of Clans / Royale";
       notes := "Analyze elixir/resource trade. Optimize troop deployment placement (kiting). Counter enemy unit types." |};
    {| profile_id := "puzzle_match3";
       profile_name := "Candy Crush / Royal Match";
       notes := "Look for matches of 4 or 5. Prioritize clearing obstacles (jelly, boxes) and bottom-row matches to cause cascades." |};
    {| profile_id := "rpg_gacha";
       profile_name := "Genshin Impact / Honkai";
       notes := "Optimize elemental reactions. Manage stamina for dodging. Focus on DPS rotation." |};
    {| profile_id := "runner_subway";
       profile_name := "Subway Surfers / Temple Run";
       notes := "Look ahead. Swipe early for corners. Prioritize coins only if safe." |};
    {| profile_id := "social_impostor";
       profile_name := "Among Us / Roblox";
       notes := "Analyze chat patterns if visible. Memorize pathing. Detect unusual player movement." |};
    {| profile_id := "card_battle";
       profile_name := "Marvel Snap / Hearthstone";
       notes := "Calculate mana curve. Predict enemy turn. Value board control over face damage early." |};
    {| profile_id := "sim_builder";
       profile_name := "SimCity / Township";
       notes := "Optimize production queues. Minimize downtime. Prioritize high-value orders." |} ].

(** [Array.prototype.findIndex]; [None] is the result -1. *)
Fixpoint findIndex {A} (p : A -> bool) (l : list A) : option nat :=
  match l with
  | [] => None
  | a :: l' => if p a then Some O
               else match findIndex p l' with
                    | Some i => Some (S i)
                    | None => None
                    end
  end.

(** [l[i] = f(l[i])] for an index inside the array. *)
Fixpoint updateAt {A} (i : nat) (f : A -> A) (l : list A) : list A :=
  match l, i with
  | [], _ => []
  | a :: l', O => f a :: l'
  | a :: l', S i' => a :: updateAt i' f l'
  end.

Definition hasId (id : string) (p : GameProfile) : bool := profile_id p =? id.

(** [SYSTEM_PROFILES.find(sp => sp.id === id)] is truthy. *)
Definition isSystemId (id : string) : bool :=
  existsb (hasId id) SYSTEM_PROFILES.

(** "Merge system profiles with user profiles, ensuring no ID collisions if
    user saved custom ones.  We place System profiles first". *)
Definition getProfiles (stored : option (list GameProfile)) : list GameProfile :=
  let userProfiles := Storage.parsed stored in
  (SYSTEM_PROFILES
     ++ filter (fun up => negb (isSystemId (profile_id up))) userProfiles)%list.

Definition saveProfile (profile : GameProfile) (stored : option (list GameProfile))
  : option (list GameProfile) :=
  let userProfiles := Storage.parsed stored in
  Some match findIndex (hasId (profile_id profile)) userProfiles with
       | Some existingIndex => updateAt existingIndex (fun _ => profile) userProfiles
       | None => Storage.push userProfiles profile
       end.

(** "Cannot delete system profiles"; nothing is written either when the key
    was never written. *)
Definition deleteProfile (id : string) (stored : option (list GameProfile))
  : option (list GameProfile) :=
  if isSystemId id then stored
  else match stored with
       | None => None
       | Some userProfiles => Some (filter (fun p => negb (hasId id p)) userProfiles)
       end.

(** The profile [App] selects when it loads:
    [loadedProfiles.find(p => p.id === 'universal_auto') || loadedProfiles[0]],
    taken when the list is not empty. *)
Definition defaultProfile (loadedProfiles : list GameProfile) : option GameProfile :=
  match loadedProfiles with
  | [] => None
  | first :: _ =>
    match find (hasId "universal_auto") loadedProfiles with
    | Some p => Some p
    | None => Some first
    end
  end.

(** [profiles.find(p => p.id === selectedProfileId) || profiles[0]], the
    profile an analysis runs with ([None] is [undefined]). *)
Definition currentProfile (profiles : list GameProfile) (selectedProfileId : string)
  : option GameProfile :=
  match find (hasId selectedProfileId) profiles with
  | Some p => Some p
  | None => hd_error profiles
  end.

End Profiles.

Module Feedback.

Record FeedbackDetails := {
  isAccurate : bool;
  correctionType : option string;
  suggestedAction : option string;
  feedbackNotes : option string
}.

(** A stored training log with its optional [userFeedback] field, which
    [saveLog] leaves undefined. *)
Record RatedLog := {
  entry : TrainingLog;
  userFeedback : option FeedbackDetails
}.

Definition unrated (log : TrainingLog) : RatedLog :=
  {| entry := log; userFeedback := None |}.

Definition updateLogFeedback (logId : Z) (feedback : option FeedbackDetails)
           (stored : option (list RatedLog)) : option (list RatedLog) :=
  match stored with
  | None => None
  | Some logs =>
    match Profiles.findIndex (fun l => log_id (entry l) =? logId) logs with
    | Some index =>
      Some (Profiles.updateAt index
              (fun l => {| entry := entry l; userFeedback := feedback |}) logs)
    | None => stored
    end
  end.

(** [l.userFeedback?.isAccurate] *)
Definition ratedAccurate (l : RatedLog) : bool :=
  match userFeedback l with Some f => isAccurate f | None => false end.

(** [l.userFeedback && !l.userFeedback.isAccurate] *)
Definition ratedWrong (l : RatedLog) : bool :=
  match userFeedback l with Some f => negb (isAccurate f) | None => false end.

Record Stats := { total : nat; accurate : nat; errors : nat }.

Definition getLogStats (stored : option (list RatedLog)) : Stats :=
  let logs := Storage.parsed stored in
  {| total := List.length logs;
     accurate := List.length (filter ratedAccurate logs);
     errors := List.length (filter ratedWrong logs) |}.

End Feedback.

(** ** Observations on the cursor timeline *)
Module Trace.

Import App.
Local Open Scope Q_scope.




(** An event that is a rendered pose with the pointer pressed. *)
Definition held (ev : event) : Prop :=
  match ev with
  | Render pose => isDown pose = true
  | Sleep _ => False
  end.

(** The time a timeline spends waiting. *)
Fixpoint waited (events : list event) : Q :=
  match events with
  | [] => 0
  | Sleep ms :: rest => ms + waited rest
  | Render _ :: rest => waited rest
  end.

End Trace.

(** ** Live mode: capture loop, start, voice commands, upload *)
Module Live.

Import JS App.
Local Open Scope Q_scope.
Local Open Scope string_scope.

(** *** [captureFrame] *)

Definition MAX_WIDTH : Z := 1280.

(** The width and height [captureFrame] draws the video at, the video
    element, the canvas and its 2d context being there; [None] is the
    [null] it returns while the video has no width yet.  [videoWidth] and
    [videoHeight] are the integers the video element reports; [scale] and
    the scaled height are doubles, and [canvas.height], an integer
    attribute, keeps the integer part of what it is given. *)
Definition captureSize (videoWidth videoHeight : Z) : option (Z * Z) :=
  if (0 <? videoWidth)%Z then
    if (MAX_WIDTH <? videoWidth)%Z then
      let scale := (Math.ofZ MAX_WIDTH / Math.ofZ videoWidth)%float in
      Some (MAX_WIDTH, Math.trunc (Math.ofZ videoHeight * scale)%float)
    else Some (videoWidth, videoHeight)
  else None.

(** *** [captureAndAnalyze] *)

(** What a call of [captureAndAnalyze] led to: nothing, a new call of
    itself after [delay] ms, or [triggerAnalysis] running on a burst. *)
Inductive captured :=
| Idle
| Rescheduled (delay : Q)
| Analysing (base64Images : list string).

(** [timerRef.current = window.setTimeout(captureAndAnalyze, ..)]: the
    handle held before is overwritten, not cleared. *)
Definition schedule (st : State) : State :=
  let '(h, st) := armTimer st in
  withRefs (fun r => {| timerRef := Some h;
                        retryIntervalRef := retryIntervalRef r;
                        isLiveRef := isLiveRef r; srcObject := srcObject r |}) st.

(** [frameA && frameB]: both frames are there and not the empty text. *)
Definition burst (frameA frameB : option string) : option (list string) :=
  match frameA, frameB with
  | Some a, Some b =>
    if (negb (a =? "") && negb (b =? ""))%bool then Some [a; b] else None
  | _, _ => None
  end.

(** [captureAndAnalyze].  [pilotRef] is [isAutoPilotRef.current] at the
    call; [closureIsAnalyzing] and [closureRetryTimer] are the values of
    [isAnalyzing] and [retryTimer] in the render the function instance
    belongs to; [frameA] and [frameB] are what the two [captureFrame]
    calls, 200 ms apart, return.  When both frames are there
    [triggerAnalysis] is called, which runs up to its [await]. *)
Definition captureAndAnalyzeAt (pilotRef closureIsAnalyzing : bool)
           (closureRetryTimer : Q) (frameA frameB : option string) (st : State)
  : State * captured :=
  if negb (isLiveRef (refs st)) then (st, Idle)
  else if (closureIsAnalyzing || Qlt_bool 0 closureRetryTimer)%bool then (st, Idle)
  else if negb pilotRef then (schedule st, Rescheduled 1000)
  else
    match burst frameA frameB with
    | Some base64Images => (beginAnalysis st, Analysing base64Images)
    | None => (schedule st, Rescheduled 500)
    end.

(** The call made by a timer or a button, the ref being in step with the
    state. *)
Definition captureAndAnalyze (closureIsAnalyzing : bool) (closureRetryTimer : Q)
           (frameA frameB : option string) (st : State) : State * captured :=
  captureAndAnalyzeAt (isAutoPilot st) closureIsAnalyzing closureRetryTimer
                      frameA frameB st.

(** The timeout [h] fires, if it is still armed, and calls
    [captureAndAnalyze]; a timeout fires once. *)
Definition timerFires (h : positive) (closureIsAnalyzing : bool)
           (closureRetryTimer : Q) (frameA frameB : option string) (st : State)
  : State * captured :=
  if isArmed h st
  then captureAndAnalyze closureIsAnalyzing closureRetryTimer frameA frameB
                         (clearTimer h st)
  else (st, Idle).

(** *** [startLiveAnalysis] *)

Definition lowerChar (c : ascii) : ascii :=
  let n := nat_of_ascii c in
  if (Nat.leb 65 n && Nat.leb n 90)%bool then ascii_of_nat (n + 32) else c.

(** [String.prototype.toLowerCase] on ASCII letters; other characters are
    left as they are. *)
Fixpoint toLowerCase (s : string) : string :=
  match s with
  | EmptyString => EmptyString
  | String c s' => String (lowerChar c) (toLowerCase s')
  end.

(** How the request for a stream ended: the tracks of the stream, or the
    value the promise rejected with (whether it is an [Error], and its
    [message], or [String(e)] for other values). *)
Inductive media :=
| Granted (tracks : list positive)
| Refused (isError : bool) (msg : string).

(** The text of the [Error] thrown when [getDisplayMedia] rejects. *)
Definition screenLinkError (msg : string) : string :=
  if includes (toLowerCase msg) "permission denied" then "Permission Denied."
  else if includes (toLowerCase msg) "permissions policy"
       then "Blocked by browser policy. Open in new tab."
       else "Screen Link Failed: " ++ msg.

(** [startLiveAnalysis(useScreenShare)].  [hasDisplayMedia] tells
    whether [navigator.mediaDevices.getDisplayMedia] exists.  The
    [captureAndAnalyze] it calls is the instance of the render the
    handler belongs to, so the guard reads [isAnalyzing] and [retryTimer]
    as they were when the handler was called. *)
Definition startLiveAnalysis (useScreenShare hasDisplayMedia : bool) (m : media)
           (frameA frameB : option string) (st0 : State) : State * captured :=
  let st := stopLiveAnalysis st0 in
  let st := setMode (if useScreenShare then SCREEN_SHARE else LIVE_VISION) st in
  let st := withRefs (fun r => {| timerRef := timerRef r;
                                  retryIntervalRef := retryIntervalRef r;
                                  isLiveRef := true; srcObject := srcObject r |}) st in
  let st := setError None st in
  let st := setResult None st in
  let failed (text : string) : State * captured :=
    let st := setError (Some text) st in
    let st := setMode UPLOAD st in
    (withRefs (fun r => {| timerRef := timerRef r;
                           retryIntervalRef := retryIntervalRef r;
                           isLiveRef := false; srcObject := srcObject r |}) st,
     Idle) in
  if (useScreenShare && negb hasDisplayMedia)%bool
  then failed "Screen Sharing API unavailable."
  else
    match m with
    | Granted tracks =>
      let st := withRefs (fun r => {| timerRef := timerRef r;
                                      retryIntervalRef := retryIntervalRef r;
                                      isLiveRef := isLiveRef r;
                                      srcObject := Some tracks |}) st in
      captureAndAnalyze (isAnalyzing st0) (retryTimer st0) frameA frameB st
    | Refused isError msg =>
      if useScreenShare then failed (screenLinkError msg)
      else failed (if isError then msg else "Connection failed")
    end.

(** *** Voice commands *)

(** [recognition.onresult]: the command handed to [onCommand], if any. *)
Definition onresult (transcript : string) : option string :=
  let command := toLowerCase (trim transcript) in
  if (includes command "analyze" || includes command "scan"
      || includes command "check")%bool then Some "ANALYZE"
  else if (includes command "stop" || includes command "cancel")%bool
       then Some "STOP"
       else None.

Definition isLive (m : AppMode) : bool :=
  match m with
  | LIVE_VISION | SCREEN_SHARE => true
  | UPLOAD => false
  end.

(** [handleVoiceCommand].  [setIsAutoPilot(true)] reaches
    [isAutoPilotRef] only with the effect after the next render, so the
    [captureAndAnalyze] called right after it still reads the old ref. *)
Definition handleVoiceCommand (command : string) (frameA frameB : option string)
           (st : State) : State * captured :=
  if command =? "ANALYZE" then
    let pilotRef := isAutoPilot st in
    let st' := if negb (isAutoPilot st) then setIsAutoPilot true st else st in
    if isLive (mode st)
    then captureAndAnalyzeAt pilotRef (isAnalyzing st) (retryTimer st)
                             frameA frameB st'
    else (st', Idle)
  else if command =? "STOP" then
    (setMode UPLOAD (stopLiveAnalysis (setIsAutoPilot false st)), Idle)
  else (st, Idle).

(** *** [handleFileUpload] *)

(** [file] is [None] when no file was chosen; otherwise it holds what
    [fileToGenerativePart] resolved with, [None] when it rejected. *)
Definition handleFileUpload (file : option (option string)) (st : State)
  : State * captured :=
  match file with
  | None => (st, Idle)
  | Some read =>
    let st := setMode UPLOAD st in
    let st := stopLiveAnalysis st in
    let st := setError None st in
    match read with
    | Some base64Data => (beginAnalysis st, Analysing [base64Data])
    | None => (setError (Some "Failed to process image.") st, Idle)
    end
  end.

(** Whether [h] is the handle one of the two timer refs holds. *)
Definition holds (st : State) (h : positive) : bool :=
  (match timerRef (refs st) with Some k => Pos.eqb h k | None => false end
   || match retryIntervalRef (refs st) with Some k => Pos.eqb h k | None => false end)%bool.

(** *** The catch block *)

(** The texts the classifier looks for. *)
Definition keywords : list string :=
  ["429"; "quota"; "RESOURCE_EXHAUSTED"; "SAFETY"; "harmful"; "fetch"; "network"].

(** Whether the catch block gets through with the message it extracted:
    a text always does, an array only when it holds one of the keywords
    as an element, nothing else does. *)
Definition classifiable (tm : value) : bool :=
  match tm with
  | Some (JStr _) => true
  | Some (JArr items) => existsb (fun k => existsb (isStr k) items) keywords
  | _ => false
  end.

End Live.

(** ** Auto-learning: the notes a successful analysis adds to a profile *)
Module Learning.

Import JS App.
Local Open Scope string_scope.





End Learning.

(** ** The states the application can be in *)
Module Reach.

Import App.

(** One thing happening to [App]: a handler runs, a timer fires, an
    analysis cycle begins or settles, a step is animated.  The arguments
    that stand for closure values and for what the browser delivers are
    left free, so the relation is no smaller than what a run can do. *)
Inductive step (st : State) : State -> Prop :=
| step_begin :
    step st (beginAnalysis st)
| step_finish JSON_parse base64Images renderMode currentProfile now out :
    step st (fst (finishAnalysis JSON_parse base64Images renderMode
                                 currentProfile now out st))
| step_animate speedFactor closureMode frames macroStep :
    step st (fst (animateSingleStep speedFactor closureMode frames macroStep st))
| step_stop :
    step st (stopLiveAnalysis st)
| step_tick h :
    step st (retryTick h st)
| step_mode m :
    step st (setMode m st)
| step_pilot b :
    step st (setIsAutoPilot b st)
| step_capture pilotRef closureIsAnalyzing closureRetryTimer frameA frameB :
    step st (fst (Live.captureAndAnalyzeAt pilotRef closureIsAnalyzing
                                           closureRetryTimer frameA frameB st))
| step_timer h closureIsAnalyzing closureRetryTimer frameA frameB :
    step st (fst (Live.timerFires h closureIsAnalyzing closureRetryTimer
                                  frameA frameB st))
| step_start useScreenShare hasDisplayMedia m frameA frameB :
    step st (fst (Live.startLiveAnalysis useScreenShare hasDisplayMedia m
                                         frameA frameB st))
| step_voice command frameA frameB :
    step st (fst (Live.handleVoiceCommand command frameA frameB st))
| step_upload file :
    step st (fst (Live.handleFileUpload file st)).

(** The initial state of [App] and whatever a reachable state steps to. *)
Inductive reachable : State -> Prop :=
| reach_initial : reachable initial
| reach_step st st' : reachable st -> step st st' -> reachable st'.

(** What can happen to momentum: it is left alone, put back to 1.0, or
    raised by [Math.min(prev + 0.1, 2.0)]. *)
Definition momentumEffect (m m' : float) : Prop :=
  m' = m \/ m' = 1%float \/ m' = Math.min (m + Math.tenth)%float 2%float.

(** Momentum [k] animated steps after a reset: [k] times
    [Math.min(prev + 0.1, 2.0)] on 1.0. *)
Definition momentumAfter (k : nat) : float :=
  Nat.iter k (fun prev => Math.min (prev + Math.tenth)%float 2%float) 1%float.

End Reach.

(** * Properties *)

(** ** The log stores are bounded *)

Lemma length_shift_push {A} (l : list A) (a : A) :
  l <> [] -> List.length (Storage.push (Storage.shift l) a) = List.length l.
Proof.
  destruct l as [|b l]; [congruence|intros _].
  unfold Storage.push, Storage.shift; simpl.
  rewrite length_app; simpl; lia.
Qed.

Lemma length_push {A} (l : list A) (a : A) :
  List.length (Storage.push l a) = S (List.length l).
Proof. unfold Storage.push; rewrite length_app; simpl; lia. Qed.

(** What both save functions do to their list: drop the oldest record when
    more than 50 are stored, then append. *)
Lemma bounded_append {A} (l : list A) (a : A) :
  let l' := Storage.push
              (if 50 <? Z.of_nat (List.length l) then Storage.shift l else l) a in
  (List.length l <= 51 -> List.length l' <= 51)%nat
  /\ last l' a = a
  /\ (exists front, l' = front ++ [a])
  /\ (50 < List.length l -> l' = tl l ++ [a])%nat
  /\ (List.length l <= 50 -> l' = l ++ [a])%nat.
Proof.
  cbv zeta.
  destruct (Z.ltb_spec 50 (Z.of_nat (List.length l))) as [Hgt|Hle];
    refine (conj _ (conj _ (conj _ (conj _ _)))).
  - intros Hlen. rewrite length_shift_push; [exact Hlen|].
    destruct l; simpl in Hgt; [lia|congruence].
  - unfold Storage.push. apply last_last.
  - now exists (Storage.shift l).
  - intros _; reflexivity.
  - intros H; lia.
  - intros _. rewrite length_push. lia.
  - unfold Storage.push. apply last_last.
  - now exists l.
  - intros H; lia.
  - intros _; reflexivity.
Qed.

(** C10. [saveLog] and [saveErrorLog] keep their store bounded: a list of at
    most 51 records stays at most 51 long, the record just saved is the last
    element, and when more than 50 records were stored the oldest one is
    dropped (the other store is left alone). *)
Theorem save_logs_bounded (log : TrainingLog) (error : ErrorLog)
        (ls : Storage.localStorage) :
  let logs := Storage.parsed (Storage.nexus_training_logs ls) in
  let errors := Storage.parsed (Storage.nexus_system_errors ls) in
  let logs' := Storage.parsed (Storage.nexus_training_logs (Storage.saveLog log ls)) in
  let errors' :=
      Storage.parsed (Storage.nexus_system_errors (Storage.saveErrorLog error ls)) in
  (List.length logs <= 51)%nat ->
  (List.length errors <= 51)%nat ->
  ((List.length logs' <= 51)%nat
   /\ last logs' log = log /\ (exists front, logs' = front ++ [log])
   /\ ((50 < List.length logs)%nat -> logs' = tl logs ++ [log])
   /\ ((List.length logs <= 50)%nat -> logs' = logs ++ [log])
   /\ Storage.nexus_system_errors (Storage.saveLog log ls)
      = Storage.nexus_system_errors ls)
  /\ ((List.length errors' <= 51)%nat
      /\ last errors' error = error /\ (exists front, errors' = front ++ [error])
      /\ ((50 < List.length errors)%nat -> errors' = tl errors ++ [error])
      /\ ((List.length errors <= 50)%nat -> errors' = errors ++ [error])
      /\ Storage.nexus_training_logs (Storage.saveErrorLog error ls)
         = Storage.nexus_training_logs ls).
Proof.
  intros logs errors logs' errors' Hl He.
  split.
  - destruct (bounded_append logs log) as (B1 & B2 & B3 & B4 & B5).
    subst logs'. unfold Storage.saveLog; simpl. fold logs.
    refine (conj _ (conj _ (conj _ (conj _ (conj _ _))))); auto.
  - destruct (bounded_append errors error) as (B1 & B2 & B3 & B4 & B5).
    subst errors'. unfold Storage.saveErrorLog; simpl. fold errors.
    refine (conj _ (conj _ (conj _ (conj _ (conj _ _))))); auto.
Qed.

(** C10 on a store holding 51 records in each log. *)
Lemma save_logs_bounded_full :
  let ls := Samples.fullStore 51 in
  let logs' := Storage.parsed (Storage.nexus_training_logs
                                 (Storage.saveLog (Samples.trainingLog 99) ls)) in
  List.length logs' = 51%nat
  /\ hd_error logs' = Some (Samples.trainingLog 1)
  /\ last logs' (Samples.trainingLog 0) = Samples.trainingLog 99.
Proof.
  pose proof (save_logs_bounded (Samples.trainingLog 99) (Samples.errorLog 99)
                                (Samples.fullStore 51)) as H.
  cbv zeta in H.
  assert (H51 : (List.length (Storage.parsed (Storage.nexus_training_logs
                                                (Samples.fullStore 51))) <= 51)%nat)
    by (vm_compute; lia).
  assert (E51 : (List.length (Storage.parsed (Storage.nexus_system_errors
                                                (Samples.fullStore 51))) <= 51)%nat)
    by (vm_compute; lia).
  destruct (H H51 E51) as [(_ & _ & _ & Hdrop & _) _].
  cbv zeta. rewrite Hdrop by (vm_compute; lia).
  vm_compute. repeat split.
Defined.

(** ** The playback controller *)

Lemma len_nonneg (sequence : list MacroStep) : 0 <= MacroView.len sequence.
Proof. unfold MacroView.len; lia. Qed.

Lemma controlsRendered_len (sequence : list MacroStep) :
  MacroView.controlsRendered sequence = true <-> 0 < MacroView.len sequence.
Proof.
  unfold MacroView.controlsRendered.
  pose proof (len_nonneg sequence).
  destruct (Z.eqb_spec (MacroView.len sequence) 0); simpl; split; intros; lia || congruence.
Qed.

(** The indices the controller can hold: every operation keeps the index
    between -1 and the length of the sequence it is given. *)
Lemma onSequenceChange_range (sequence : list MacroStep) (st : MacroView.State) :
  -1 <= MacroView.currentStepIndex (MacroView.onSequenceChange sequence st)
  <= MacroView.len sequence.
Proof.
  unfold MacroView.onSequenceChange. pose proof (len_nonneg sequence).
  destruct (Z.ltb_spec 0 (MacroView.len sequence)); simpl; lia.
Qed.

(** The loop reads index -1, finds no step there, and pauses in its first
    iteration, whatever the sequence and the callback: nothing is
    previewed and the index is left as it is. *)
Lemma whilePlaying_pauses {W : Type} (sequence : list MacroStep)
      (onPreviewStep : option (MacroStep -> W -> W * JS.settled))
      (interrupted : Z -> bool) (budget : nat) (v : MacroView.State) (w : W) :
  MacroView.whilePlaying sequence onPreviewStep (S budget) interrupted true v w
  = Some ({| MacroView.currentStepIndex := MacroView.currentStepIndex v;
             MacroView.isLocallyPlaying := false |}, w).
Proof.
  cbn [MacroView.whilePlaying negb].
  destruct (MacroView.len sequence <=? -1); reflexivity.
Qed.

Lemma whilePlaying_range {W : Type} (sequence : list MacroStep)
      (onPreviewStep : option (MacroStep -> W -> W * JS.settled))
      (interrupted : Z -> bool) (budget : nat) (playingRef : bool) :
  forall (v v' : MacroView.State) (w w' : W),
    -1 <= MacroView.currentStepIndex v <= MacroView.len sequence ->
    MacroView.whilePlaying sequence onPreviewStep budget interrupted playingRef v w
    = Some (v', w') ->
    -1 <= MacroView.currentStepIndex v' <= MacroView.len sequence.
Proof.
  intros v v' w w' Hr. destruct budget as [|budget]; [discriminate|].
  destruct playingRef.
  - rewrite whilePlaying_pauses. intros [= <- _]. exact Hr.
  - cbn. intros [= <- _]. exact Hr.
Qed.

(** C9. Where the playback buttons are shown (a non-empty sequence) and the
    index is one the controller can hold (from -1 up to the length),
    [stepForward] and [stepBackward] pause playback and move the index by
    one, clamped: the result always designates a step of the sequence,
    stepping forward from the last step and stepping backward from step 0
    leave the index where it is. *)
Theorem step_controls_clamped {W : Type} (sequence : list MacroStep)
        (onPreviewStep : option (MacroStep -> W -> W * JS.settled))
        (st : MacroView.State) (w : W) :
  MacroView.controlsRendered sequence = true ->
  -1 <= MacroView.currentStepIndex st <= MacroView.len sequence ->
  let idx := MacroView.currentStepIndex st in
  let fwd := fst (MacroView.stepForward sequence onPreviewStep st w) in
  let bwd := fst (MacroView.stepBackward sequence onPreviewStep st w) in
  (MacroView.isLocallyPlaying fwd = false
   /\ 0 <= MacroView.currentStepIndex fwd <= MacroView.len sequence - 1
   /\ (idx + 1 <= MacroView.len sequence - 1 -> MacroView.currentStepIndex fwd = idx + 1)
   /\ (idx = MacroView.len sequence - 1 -> MacroView.currentStepIndex fwd = idx)
   /\ MacroView.sequence_at sequence (MacroView.currentStepIndex fwd) <> None)
  /\ (MacroView.isLocallyPlaying bwd = false
      /\ 0 <= MacroView.currentStepIndex bwd <= MacroView.len sequence - 1
      /\ (0 <= idx - 1 -> MacroView.currentStepIndex bwd = idx - 1)
      /\ (idx = 0 -> MacroView.currentStepIndex bwd = 0)
      /\ MacroView.sequence_at sequence (MacroView.currentStepIndex bwd) <> None).
Proof.
  intros Hshown Hidx idx fwd bwd.
  apply controlsRendered_len in Hshown.
  assert (Hat : forall i, 0 <= i <= MacroView.len sequence - 1 ->
                          MacroView.sequence_at sequence i <> None).
  { intros i Hi. unfold MacroView.sequence_at.
    destruct (Z.ltb_spec i 0); [lia|].
    apply nth_error_Some. unfold MacroView.len in Hi. lia. }
  subst fwd bwd idx; unfold MacroView.stepForward, MacroView.stepBackward; simpl.
  split; refine (conj eq_refl (conj _ (conj _ (conj _ _)))); try lia.
  - apply Hat; lia.
  - apply Hat; lia.
Qed.

(** C9 on a three-step sequence: forward from the last step, backward from
    the first. *)
Lemma step_controls_clamped_three :
  let sequence := [Samples.step TAP (Samples.at_ 1 1) None 0;
                   Samples.step WAIT None None 100;
                   Samples.step TAP (Samples.at_ 2 2) None 0] in
  MacroView.currentStepIndex
    (fst (MacroView.stepForward sequence (@None (MacroStep -> unit -> unit * JS.settled))
            {| MacroView.currentStepIndex := 2; MacroView.isLocallyPlaying := true |} tt))
  = 2
  /\ MacroView.currentStepIndex
       (fst (MacroView.stepBackward sequence (@None (MacroStep -> unit -> unit * JS.settled))
               {| MacroView.currentStepIndex := 2; MacroView.isLocallyPlaying := true |} tt))
     = 1.
Proof.
  intros sequence.
  assert (Hshown : MacroView.controlsRendered sequence = true) by reflexivity.
  assert (Hidx : -1 <= 2 <= MacroView.len sequence) by (vm_compute; split; congruence).
  destruct (step_controls_clamped sequence (@None (MacroStep -> unit -> unit * JS.settled))
              {| MacroView.currentStepIndex := 2; MacroView.isLocallyPlaying := true |} tt
              Hshown Hidx) as [(_ & _ & _ & Hlast & _) (_ & _ & Hback & _ & _)].
  split.
  - apply Hlast. reflexivity.
  - apply Hback. simpl. lia.
Defined.

(** ** A new sequence arrives *)

Lemma beginAnalysis_state (st : App.State) :
  App.momentum (App.beginAnalysis st) = 1%float
  /\ App.retryTimer (App.beginAnalysis st) = 0%Q
  /\ App.isAutoPilot (App.beginAnalysis st) = App.isAutoPilot st
  /\ App.mode (App.beginAnalysis st) = App.mode st
  /\ App.result (App.beginAnalysis st) = App.result st
  /\ App.retryIntervalRef (App.refs (App.beginAnalysis st))
     = App.retryIntervalRef (App.refs st).
Proof.
  unfold App.beginAnalysis. cbn.
  destruct (App.retryIntervalRef (App.refs st)) eqn:E; cbn; rewrite ?E;
    repeat split.
Qed.

(** Settling the analysis leaves momentum, the auto-pilot switch and the
    mode alone. *)
Lemma finishAnalysis_keeps (JSON_parse : string -> option json)
      (base64Images : list string) (renderMode : AppMode)
      (currentProfile : App.GameProfile) (now : Z)
      (out : App.outcome) (st : App.State) :
  let st' := fst (App.finishAnalysis JSON_parse base64Images renderMode currentProfile
                                     now out st) in
  App.momentum st' = App.momentum st
  /\ App.isAutoPilot st' = App.isAutoPilot st
  /\ App.mode st' = App.mode st.
Proof.
  unfold App.finishAnalysis.
  assert (Hfin : forall d s, App.momentum (App.onFinally d s) = App.momentum s
                             /\ App.isAutoPilot (App.onFinally d s) = App.isAutoPilot s
                             /\ App.mode (App.onFinally d s) = App.mode s).
  { intros d s. unfold App.onFinally.
    destruct (App.isLiveRef _ && App.isAutoPilot _)%bool; repeat split. }
  destruct out as [analysis|e]; cbn [fst].
  - destruct (Hfin 3000%Q (App.onAnalysed base64Images currentProfile now analysis st))
      as (-> & -> & ->). repeat split.
  - destruct (App.classify JSON_parse e) as [c|]; cbn [fst].
    + destruct (Hfin (App.nextDelay c) (App.onClassified renderMode currentProfile now c st))
        as (-> & -> & ->).
      unfold App.onClassified. destruct (App.isRateLimit c); repeat split.
    + apply Hfin.
Qed.

Lemma finishAnalysis_result (JSON_parse : string -> option json)
      (base64Images : list string) (renderMode : AppMode)
      (currentProfile : App.GameProfile) (now : Z)
      (analysis : AnalysisResult) (st : App.State) :
  App.result (fst (App.finishAnalysis JSON_parse base64Images renderMode currentProfile
                                      now (App.Analysed analysis) st))
  = Some analysis.
Proof.
  unfold App.finishAnalysis, App.onFinally; cbn.
  destruct (App.isLiveRef _ && App.isAutoPilot _)%bool; reflexivity.
Qed.

(** A failed analysis leaves the stored result, hence the attached
    sequence, alone. *)
Lemma finishAnalysis_failed_result (JSON_parse : string -> option json)
      (base64Images : list string) (renderMode : AppMode)
      (currentProfile : App.GameProfile) (now : Z)
      (e : App.thrown) (st : App.State) :
  App.result (fst (App.finishAnalysis JSON_parse base64Images renderMode currentProfile
                                      now (App.Failed e) st))
  = App.result st.
Proof.
  unfold App.finishAnalysis, App.onFinally, App.onClassified.
  destruct (App.classify JSON_parse e) as [c|]; cbn [fst].
  - destruct (App.isRateLimit c); cbn;
      destruct (App.isLiveRef _ && App.isAutoPilot _)%bool; reflexivity.
  - cbn. destruct (App.isLiveRef _ && App.isAutoPilot _)%bool; reflexivity.
Qed.

Lemma triggerAnalysis_momentum (JSON_parse : string -> option json)
      (base64Images : list string) (renderMode : AppMode)
      (currentProfile : App.GameProfile) (now : Z)
      (out : App.outcome) (st : App.State) :
  App.momentum (fst (App.triggerAnalysis JSON_parse base64Images renderMode currentProfile
                                         now out st)) = 1%float.
Proof.
  unfold App.triggerAnalysis.
  destruct (finishAnalysis_keeps JSON_parse base64Images renderMode currentProfile now out
                                 (App.beginAnalysis st)) as (-> & _).
  apply beginAnalysis_state.
Qed.

(** The commit of a new sequence: the sequence effect's updates come
    first, the loop started by the playback effect pauses at once. *)
Lemma onNewSequence_state {W : Type} (sequence : list MacroStep)
      (onPreviewStep : option (MacroStep -> W -> W * JS.settled))
      (budget : nat) (interrupted : Z -> bool) (render : MacroView.State) (w : W) :
  MacroView.onNewSequence sequence onPreviewStep (S budget) interrupted render w
  = Some ({| MacroView.currentStepIndex := if 0 <? MacroView.len sequence then 0 else -1;
             MacroView.isLocallyPlaying :=
               (0 <? MacroView.len sequence)
               && negb (MacroView.isLocallyPlaying render) |}, w).
Proof.
  unfold MacroView.onNewSequence, MacroView.playLoop.
  rewrite whilePlaying_pauses. unfold MacroView.onSequenceChange.
  pose proof (len_nonneg sequence) as Hlen.
  destruct (MacroView.isLocallyPlaying render);
    destruct (Z.ltb_spec 0 (MacroView.len sequence));
    destruct (Z.eqb_spec (MacroView.len sequence) 0); try lia; reflexivity.
Qed.

(** Once the effects have run, a new sequence leaves the controller
    paused, at index 0 if the sequence has a step and at -1 otherwise;
    the callback has not been called. *)
Lemma afterNewSequence_state {W : Type} (sequence : list MacroStep)
      (onPreviewStep : option (MacroStep -> W -> W * JS.settled))
      (budget : nat) (interrupted : Z -> bool) (render : MacroView.State) (w : W) :
  MacroView.afterNewSequence sequence onPreviewStep (S budget) interrupted render w
  = Some ({| MacroView.currentStepIndex := if 0 <? MacroView.len sequence then 0 else -1;
             MacroView.isLocallyPlaying := false |}, w).
Proof.
  unfold MacroView.afterNewSequence. rewrite onNewSequence_state.
  cbn [MacroView.isLocallyPlaying MacroView.currentStepIndex].
  unfold MacroView.playbackEffect, MacroView.playLoop.
  cbn [MacroView.isLocallyPlaying MacroView.currentStepIndex].
  rewrite whilePlaying_pauses.
  cbn [MacroView.isLocallyPlaying MacroView.currentStepIndex].
  pose proof (len_nonneg sequence) as Hlen.
  destruct (MacroView.isLocallyPlaying render);
    destruct (Z.ltb_spec 0 (MacroView.len sequence));
    destruct (Z.eqb_spec (MacroView.len sequence) 0); try lia; reflexivity.
Qed.

Lemma len_pos_iff (sequence : list MacroStep) :
  (0 <? MacroView.len sequence) = true <-> sequence <> [].
Proof.
  unfold MacroView.len. destruct sequence; cbn; split; intros; congruence || lia.
Qed.

(** What the arrival of a sequence leaves behind. *)
Lemma attach_state (JSON_parse : string -> option json)
      (base64Images : list string) (renderMode : AppMode)
      (currentProfile : App.GameProfile) (now : Z)
      (analysis : AnalysisResult) (sf : Q) (framesFor : MacroStep -> list Q)
      (budget : nat) (interrupted : Z -> bool) (sys : Playback.System) :
  Playback.attach JSON_parse base64Images renderMode currentProfile now analysis
                  sf framesFor (S budget) interrupted sys
  = Some {| Playback.app :=
              fst (App.finishAnalysis JSON_parse base64Images renderMode
                     currentProfile now (App.Analysed analysis) (Playback.app sys));
            Playback.view :=
              Some {| MacroView.currentStepIndex :=
                        if 0 <? MacroView.len (macroSequence analysis) then 0 else -1;
                      MacroView.isLocallyPlaying := false |} |}.
Proof.
  unfold Playback.attach, Playback.sequenceProp.
  rewrite finishAnalysis_result, afterNewSequence_state. reflexivity.
Qed.

(** C4, as the code has it.  Attaching the sequence S of an analysis
    cycle sets the playback index to 0 when S is non-empty and to -1, the
    idle display with playback off, when S is empty.  Attaching does not
    touch momentum: the cycle set it to 1.0 when it began, so it is 1.0
    at the attachment unless a step was animated in between. *)
Theorem attach_resets (JSON_parse : string -> option json)
        (base64Images : list string) (renderMode : AppMode)
        (currentProfile : App.GameProfile) (now : Z)
        (analysis : AnalysisResult) (sf : Q) (framesFor : MacroStep -> list Q)
        (budget : nat) (interrupted : Z -> bool) (sys : Playback.System) :
  let S := macroSequence analysis in
  exists (sys' cycle : Playback.System) (v' : MacroView.State),
    Playback.attach JSON_parse base64Images renderMode currentProfile now analysis
                    sf framesFor (Datatypes.S budget) interrupted sys = Some sys'
    /\ Playback.analysisCycle JSON_parse base64Images renderMode currentProfile now
                              analysis sf framesFor (Datatypes.S budget) interrupted sys
       = Some cycle
    /\ Playback.sequenceProp (Playback.app sys') = Some S
    /\ Playback.view sys' = Some v'
    /\ Playback.view cycle = Some v'
    /\ (S <> [] -> MacroView.currentStepIndex v' = 0)
    /\ (S = [] -> MacroView.currentStepIndex v' = -1
                  /\ MacroView.isLocallyPlaying v' = false)
    /\ App.momentum (Playback.app sys') = App.momentum (Playback.app sys)
    /\ App.momentum (App.beginAnalysis (Playback.app sys)) = 1%float
    /\ App.momentum (Playback.app cycle) = 1%float.
Proof.
  intros S. unfold Playback.analysisCycle. rewrite !attach_state.
  cbn [Playback.app Playback.view].
  do 3 eexists.
  refine (conj eq_refl (conj eq_refl (conj _ (conj eq_refl (conj eq_refl _))))).
  - unfold Playback.sequenceProp. cbn [Playback.app].
    now rewrite finishAnalysis_result.
  - cbn [MacroView.currentStepIndex MacroView.isLocallyPlaying Playback.app].
    pose proof (len_pos_iff S) as Hlen. fold S.
    destruct (0 <? MacroView.len S).
    + refine (conj (fun _ => eq_refl) (conj _ _)).
      * intros HS. exfalso. now apply (proj1 Hlen eq_refl).
      * refine (conj _ (conj _ _)).
        -- apply finishAnalysis_keeps.
        -- apply beginAnalysis_state.
        -- destruct (finishAnalysis_keeps JSON_parse base64Images renderMode
                       currentProfile now (App.Analysed analysis)
                       (App.beginAnalysis (Playback.app sys))) as (-> & _).
           apply beginAnalysis_state.
    + refine (conj _ (conj (fun _ => conj eq_refl eq_refl) _)).
      * intros HS. apply Hlen in HS. discriminate.
      * refine (conj _ (conj _ _)).
        -- apply finishAnalysis_keeps.
        -- apply beginAnalysis_state.
        -- destruct (finishAnalysis_keeps JSON_parse base64Images renderMode
                       currentProfile now (App.Analysed analysis)
                       (App.beginAnalysis (Playback.app sys))) as (-> & _).
           apply beginAnalysis_state.
Qed.

(** C4 as stated fails in three ways.  An empty sequence puts the index at
    -1, not at 0.  A non-empty sequence is not Playing once the effects of
    its arrival have run: the loop started for it pauses at once.  And
    momentum is not 1.0 at the attachment when a step was animated while
    the analysis was awaited: here an upload is analysed while the user
    steps through the sequence of the upload before, and the new sequence
    is attached with momentum 1.1. *)
Lemma attach_not_as_claimed :
  let cycle analysis :=
    Playback.analysisCycle JSON.parse ["/9j/4AAQ"%string] UPLOAD Samples.profile 0
                           analysis 1 (fun _ => []) 3 (fun _ => false) in
  let tap := Samples.step TAP (Samples.at_ 300 700) None 0 in
  (* an empty sequence *)
  (exists sys v,
      cycle (Samples.analysis []) Samples.system = Some sys
      /\ Playback.view sys = Some v
      /\ MacroView.currentStepIndex v = -1
      /\ MacroView.currentStepIndex v <> 0)
  (* a sequence of one step *)
  /\ (exists sys v,
         cycle (Samples.analysis [tap]) Samples.system = Some sys
         /\ Playback.view sys = Some v
         /\ MacroView.isLocallyPlaying v = false)
  (* a step animated between the start of the cycle and the attachment *)
  /\ (exists first sys,
         cycle (Samples.analysis [tap]) Samples.system = Some first
         /\ Playback.attach JSON.parse ["/9j/4AAQ"%string] UPLOAD Samples.profile 0
              (Samples.analysis [tap; tap]) 1 (fun _ => []) 3 (fun _ => false)
              (Playback.stepForward 1 (fun _ => [])
                 {| Playback.app := App.beginAnalysis (Playback.app first);
                    Playback.view := Playback.view first |})
            = Some sys
         /\ App.momentum (Playback.app sys) = 0x1.199999999999ap+0%float
         /\ App.momentum (Playback.app sys) <> 1%float).
Proof.
  intros cycle tap. repeat split.
  - do 2 eexists. split; [vm_compute; reflexivity|].
    split; [reflexivity|]. split; [reflexivity|]. cbn. lia.
  - do 2 eexists. split; [vm_compute; reflexivity|].
    split; reflexivity.
  - do 2 eexists. split; [vm_compute; reflexivity|].
    split; [vm_compute; reflexivity|].
    split; [vm_compute; reflexivity|].
    intros H. apply (f_equal Prim2SF) in H. vm_compute in H. discriminate.
Qed.

(** ** Stopping live mode *)

Lemma stop_refs (st : App.State) :
  App.refs (App.stopLiveAnalysis st) = App.quiescent.
Proof.
  unfold App.stopLiveAnalysis.
  destruct st as [m an res err rt cur ap mo [t r l so] br]; simpl.
  destruct t, r, so; reflexivity.
Qed.

Lemma stop_retryTimer (st : App.State) :
  App.retryTimer (App.stopLiveAnalysis st) = 0%Q.
Proof.
  unfold App.stopLiveAnalysis.
  destruct st as [m an res err rt cur ap mo [t r l so] br]; simpl.
  destruct t, r, so; reflexivity.
Qed.

Lemma stop_stoppedTracks (st : App.State) :
  App.stoppedTracks (App.browser (App.stopLiveAnalysis st))
  = (App.stoppedTracks (App.browser st) ++ App.tracksOf st)%list.
Proof.
  unfold App.stopLiveAnalysis, App.tracksOf.
  destruct st as [m an res err rt cur ap mo [t r l so] br]; simpl.
  destruct t, r, so; simpl; rewrite ?app_nil_r; reflexivity.
Qed.

Lemma isArmed_clearTimer (h h' : positive) (st : App.State) :
  App.isArmed h (App.clearTimer h' st)
  = (App.isArmed h st && negb (Pos.eqb h h'))%bool.
Proof.
  unfold App.isArmed, App.clearTimer; simpl.
  induction (App.activeTimers (App.browser st)) as [|a l IH]; simpl; [reflexivity|].
  destruct (Pos.eqb_spec a h') as [->|Hne]; simpl.
  - rewrite IH. destruct (Pos.eqb_spec h h'); simpl;
      [now rewrite !andb_false_r|now rewrite !andb_true_r].
  - rewrite IH. destruct (Pos.eqb_spec h a) as [->|Hne2]; simpl; [|reflexivity].
    destruct (Pos.eqb_spec a h'); [congruence|reflexivity].
Qed.

Lemma stop_activeTimers (st : App.State) :
  App.activeTimers (App.browser (App.stopLiveAnalysis st))
  = let without (h : option positive) (l : list positive) :=
        match h with
        | Some h => filter (fun h' => negb (Pos.eqb h' h)) l
        | None => l
        end in
    without (App.retryIntervalRef (App.refs st))
            (without (App.timerRef (App.refs st))
                     (App.activeTimers (App.browser st))).
Proof.
  unfold App.stopLiveAnalysis.
  destruct st as [m an res err rt cur ap mo [t r l so] br]; simpl.
  destruct t, r, so; reflexivity.
Qed.

Lemma existsb_filter_other (h h' : positive) (l : list positive) :
  existsb (Pos.eqb h) (filter (fun a => negb (Pos.eqb a h')) l)
  = (existsb (Pos.eqb h) l && negb (Pos.eqb h h'))%bool.
Proof.
  exact (isArmed_clearTimer h h'
           (App.withBrowser
              (fun b => {| App.activeTimers := l; App.nextHandle := App.nextHandle b;
                           App.stoppedTracks := App.stoppedTracks b;
                           App.timeline := App.timeline b;
                           App.storage := App.storage b |}) App.initial)).
Qed.

(** After a stop, the handles the refs held are no longer armed. *)
Lemma stop_disarms (st : App.State) (h : positive) :
  App.timerRef (App.refs st) = Some h \/ App.retryIntervalRef (App.refs st) = Some h ->
  App.isArmed h (App.stopLiveAnalysis st) = false.
Proof.
  intros H. unfold App.isArmed. rewrite stop_activeTimers. cbv zeta.
  destruct H as [-> | ->].
  - destruct (App.retryIntervalRef (App.refs st)) as [h'|].
    + rewrite !existsb_filter_other, Pos.eqb_refl. simpl.
      now rewrite andb_false_r.
    + rewrite existsb_filter_other, Pos.eqb_refl. apply andb_false_r.
  - rewrite existsb_filter_other, Pos.eqb_refl. apply andb_false_r.
Qed.

(** A stop in a state whose refs are already quiescent touches only the
    retry counter and the cursor's visibility. *)
Lemma stop_when_quiescent (st : App.State) :
  App.refs st = App.quiescent ->
  let st' := App.stopLiveAnalysis st in
  App.refs st' = App.quiescent
  /\ App.stoppedTracks (App.browser st') = App.stoppedTracks (App.browser st)
  /\ App.activeTimers (App.browser st') = App.activeTimers (App.browser st)
  /\ App.storage (App.browser st') = App.storage (App.browser st)
  /\ App.momentum st' = App.momentum st
  /\ App.mode st' = App.mode st
  /\ App.isAutoPilot st' = App.isAutoPilot st
  /\ App.isVisible (App.cursorState st') = false
  /\ App.cur_x (App.cursorState st') = App.cur_x (App.cursorState st)
  /\ App.cur_y (App.cursorState st') = App.cur_y (App.cursorState st)
  /\ App.isDown (App.cursorState st') = App.isDown (App.cursorState st).
Proof.
  destruct st as [m an res err rt cur ap mo rf br]; simpl.
  intros ->. unfold App.stopLiveAnalysis; simpl. repeat split; reflexivity.
Qed.

Lemma stop_untouched (st : App.State) :
  let st' := App.stopLiveAnalysis st in
  App.storage (App.browser st') = App.storage (App.browser st)
  /\ App.momentum st' = App.momentum st
  /\ App.mode st' = App.mode st
  /\ App.isAutoPilot st' = App.isAutoPilot st
  /\ App.isVisible (App.cursorState st') = false
  /\ App.cur_x (App.cursorState st') = App.cur_x (App.cursorState st)
  /\ App.cur_y (App.cursorState st') = App.cur_y (App.cursorState st)
  /\ App.isDown (App.cursorState st') = App.isDown (App.cursorState st).
Proof.
  unfold App.stopLiveAnalysis.
  destruct st as [m an res err rt cur ap mo [t r l so] br]; simpl.
  destruct t, r, so; simpl; repeat split; reflexivity.
Qed.

(** Which timers are armed after a stop: those that were armed and that
    neither ref held. *)
Lemma stop_armed (st : App.State) (h : positive) :
  App.isArmed h (App.stopLiveAnalysis st)
  = (App.isArmed h st && negb (Live.holds st h))%bool.
Proof.
  unfold App.isArmed, Live.holds. rewrite stop_activeTimers. cbv zeta.
  destruct (App.retryIntervalRef (App.refs st)) as [k|],
           (App.timerRef (App.refs st)) as [k'|];
    rewrite ?existsb_filter_other; cbn [orb negb];
    rewrite ?andb_true_r, ?orb_false_r; try reflexivity.
  rewrite negb_orb, <- andb_assoc. reflexivity.
Qed.

Lemma captureAndAnalyzeAt_off (pilotRef closureIsAnalyzing : bool)
      (closureRetryTimer : Q) (frameA frameB : option string) (st : App.State) :
  App.isLiveRef (App.refs st) = false ->
  Live.captureAndAnalyzeAt pilotRef closureIsAnalyzing closureRetryTimer
                           frameA frameB st = (st, Live.Idle).
Proof. intros H. unfold Live.captureAndAnalyzeAt. now rewrite H. Qed.

(** Any number of stops in a row leave what the first one left. *)
Lemma stop_repeated (st : App.State) (n : nat) :
  let once := App.stopLiveAnalysis st in
  let again := Nat.iter n App.stopLiveAnalysis once in
  (App.isLiveRef (App.refs again) = false
   /\ App.timerRef (App.refs again) = None
   /\ App.retryIntervalRef (App.refs again) = None
   /\ App.srcObject (App.refs again) = None
   /\ App.retryTimer again = 0%Q)
  /\ App.stoppedTracks (App.browser again)
     = (App.stoppedTracks (App.browser st) ++ App.tracksOf st)%list
  /\ App.stoppedTracks (App.browser again) = App.stoppedTracks (App.browser once)
  /\ App.activeTimers (App.browser again) = App.activeTimers (App.browser once)
  /\ (forall h, App.timerRef (App.refs st) = Some h
                \/ App.retryIntervalRef (App.refs st) = Some h ->
                App.isArmed h again = false)
  /\ App.refs again = App.refs once
  /\ App.isVisible (App.cursorState again) = false.
Proof.
  intros once again. subst again once.
  induction n as [|n IH].
  - cbn [Nat.iter nat_rect].
    rewrite stop_refs, stop_retryTimer, stop_stoppedTracks.
    refine (conj _ (conj eq_refl (conj eq_refl (conj eq_refl (conj _ (conj eq_refl _)))))).
    + repeat split.
    + intros h Hh. now apply stop_disarms.
    + apply (stop_untouched st).
  - destruct IH as ((L & T & R & S & RT) & Tr & Tr1 & Act & Arm & Rf & Vis).
    rewrite stop_refs in Rf.
    destruct (stop_when_quiescent _ Rf) as (Q1 & Q2 & Q3 & _ & _ & _ & _ & Q4 & _).
    rewrite Nat.iter_succ.
    rewrite !stop_refs, stop_retryTimer.
    refine (conj _ (conj _ (conj _ (conj _ (conj _ (conj _ _)))))).
    + repeat split.
    + rewrite Q2. exact Tr.
    + rewrite Q2. exact Tr1.
    + rewrite Q3. exact Act.
    + intros h Hh. unfold App.isArmed. rewrite Q3. apply (Arm h Hh).
    + reflexivity.
    + exact Q4.
Qed.

(** C8, as the code has it.  [stopLiveAnalysis] is idempotent.  After one
    call and after any number of further calls in a row the live flag is
    off (the Idle mode), no capture timer and no retry interval is held,
    the ones that were held are cancelled, the retry counter is 0, and the
    tracks of the capture stream have been stopped exactly once: the first
    call stops them and detaches the stream, the later calls stop nothing.
    The function is total: no call throws.  A timer stays armed exactly
    when it was armed and neither ref held its handle (the handle had been
    overwritten); when such a capture timer fires after the stop it
    captures nothing and arms nothing, and such a retry interval keeps the
    retry counter at 0. *)
Theorem stopLive_idempotent (st : App.State) (n : nat) :
  let once := App.stopLiveAnalysis st in
  let again := Nat.iter n App.stopLiveAnalysis once in
  (App.isLiveRef (App.refs again) = false
   /\ App.timerRef (App.refs again) = None
   /\ App.retryIntervalRef (App.refs again) = None
   /\ App.srcObject (App.refs again) = None
   /\ App.retryTimer again = 0%Q)
  /\ App.stoppedTracks (App.browser again)
     = (App.stoppedTracks (App.browser st) ++ App.tracksOf st)%list
  /\ App.stoppedTracks (App.browser again) = App.stoppedTracks (App.browser once)
  /\ App.activeTimers (App.browser again) = App.activeTimers (App.browser once)
  /\ (forall h, App.timerRef (App.refs st) = Some h
                \/ App.retryIntervalRef (App.refs st) = Some h ->
                App.isArmed h again = false)
  /\ App.refs again = App.refs once
  /\ App.isVisible (App.cursorState again) = false
  /\ (forall h, App.isArmed h again
                = (App.isArmed h st && negb (Live.holds st h))%bool)
  /\ (forall h closureIsAnalyzing closureRetryTimer frameA frameB,
         Live.timerFires h closureIsAnalyzing closureRetryTimer frameA frameB again
         = (if App.isArmed h again then App.clearTimer h again else again,
            Live.Idle))
  /\ (forall h, (App.retryTimer (App.retryTick h again) == 0)%Q).
Proof.
  intros once again.
  destruct (stop_repeated st n) as ((L & T & R & S & RT) & Tr & Tr1 & Act & Arm & Rf & Vis).
  cbv zeta in Tr1, Act, Rf, Arm. subst again once.
  refine (conj (conj L (conj T (conj R (conj S RT))))
            (conj Tr (conj Tr1 (conj Act (conj Arm (conj Rf (conj Vis
               (conj _ (conj _ _))))))))).
  - intros h. unfold App.isArmed at 1. rewrite Act. apply stop_armed.
  - intros h ca cr fa fb. unfold Live.timerFires, Live.captureAndAnalyze.
    destruct (App.isArmed h _); [|reflexivity].
    apply captureAndAnalyzeAt_off. exact L.
  - intros h. unfold App.retryTick.
    destruct (App.isArmed h _).
    + match goal with
      | |- (App.retryTimer (App.setRetryTimer ?f ?s) == 0)%Q =>
        change (App.retryTimer (App.setRetryTimer f s)) with (f (App.retryTimer s))
      end.
      rewrite RT. reflexivity.
    + rewrite RT. reflexivity.
Qed.

(** C8 as stated fails where a capture timer's handle has been
    overwritten.  Live mode starts on a camera that has no frame yet
    (timer 1); the auto-pilot is switched off and the timer fires, which
    arms the standby timer 2; the voice command ANALYZE, still reading the
    auto-pilot as off, arms timer 3 and overwrites the handle of timer 2.
    Stop, called three times in a row, cancels timer 3 only: no handle is
    held, but timer 2 is still armed. *)
Lemma stopLive_leaves_overwritten_timer :
  let started := fst (Live.startLiveAnalysis false true (Live.Granted [1%positive])
                        None None App.initial) in
  let standby := fst (Live.timerFires 1 false 0 None None
                        (App.setIsAutoPilot false started)) in
  let doubled := fst (Live.handleVoiceCommand "ANALYZE" None None standby) in
  let stopped := Nat.iter 3 App.stopLiveAnalysis doubled in
  App.timerRef (App.refs started) = Some 1%positive
  /\ App.timerRef (App.refs standby) = Some 2%positive
  /\ App.timerRef (App.refs doubled) = Some 3%positive
  /\ App.activeTimers (App.browser doubled) = [3%positive; 2%positive]
  /\ App.refs stopped = App.quiescent
  /\ App.activeTimers (App.browser stopped) = [2%positive]
  /\ App.isArmed 2 stopped = true.
Proof. vm_compute. repeat split. Qed.

(** C8 on the live sample state: two stops in a row. *)
Example stopLive_twice :
  let st2 := App.stopLiveAnalysis (App.stopLiveAnalysis Samples.live) in
  App.refs st2 = App.quiescent
  /\ App.activeTimers (App.browser st2) = []
  /\ App.stoppedTracks (App.browser st2) = [1%positive; 2%positive].
Proof. vm_compute. repeat split. Qed.

(** ** The engine: one step *)

(** The guard "Safety break if Auto-Pilot is disabled mid-sequence" lets the
    animation run. *)
Lemma animateSingleStep_runs (sf : Q) (closureMode : AppMode) (frames : list Q)
      (step : MacroStep) (st : App.State) :
  App.isAutoPilot st = true \/ closureMode = UPLOAD ->
  App.animateSingleStep sf closureMode frames (Some step) st
  = App.actAndRecover sf frames step
      (App.lockPhase step (App.travelPhase sf step (App.beginStep st))).
Proof.
  intros H. unfold App.animateSingleStep.
  destruct H as [-> | ->]; [reflexivity|].
  now rewrite andb_false_r.
Qed.

(** C6. A TAP step with a start coordinate snaps the pointer to exactly that
    coordinate, whatever the speed factor: its action phase shows the
    pointer pressed at the start point, waits 100 / momentum ms, and shows
    it released at the same point; the step ends, after the recovery wait,
    with the pointer at the start point and not pressed. *)
Theorem tap_snaps_to_start (sf : Q) (closureMode : AppMode) (frames : list Q)
        (step : MacroStep) (c : Point) (st : App.State) :
  type step = TAP ->
  coordinates step = Some c ->
  App.isAutoPilot st = true \/ closureMode = UPLOAD ->
  let locked := App.lockPhase step (App.travelPhase sf step (App.beginStep st)) in
  let acted := App.tapAction sf step locked in
  let down := {| App.cur_x := x c; App.cur_y := y c; App.isDown := true;
                 App.cur_type := "TAP"; App.isVisible := true;
                 App.precisionMode := true |} in
  let up := {| App.cur_x := x c; App.cur_y := y c; App.isDown := false;
               App.cur_type := "TAP"; App.isVisible := true;
               App.precisionMode := false |} in
  App.timeline (App.browser acted)
  = (App.timeline (App.browser locked)
       ++ [App.Render down; App.Sleep (100 / sf); App.Render up])%list
  /\ App.cursorState acted = up
  /\ App.animateSingleStep sf closureMode frames (Some step) st
     = (App.recover sf acted, JS.Resolved)
  /\ App.cursorState
       (fst (App.animateSingleStep sf closureMode frames (Some step) st)) = up.
Proof.
  intros Hty Hc Hrun locked acted down up.
  rewrite (animateSingleStep_runs _ _ _ _ _ Hrun).
  unfold App.actAndRecover. rewrite Hty. fold locked. fold acted.
  subst acted locked. unfold App.tapAction, App.lockPhase, App.travelPhase.
  rewrite Hc, Hty. cbn -[Qdiv]. rewrite <- !app_assoc. cbn -[Qdiv].
  repeat split.
Qed.

(** C6 on the tap at (300,700), at speed factor 1.7 in live mode. *)
Lemma tap_snaps_to_start_300_700 :
  let st' := fst (App.animateSingleStep (17 # 10) LIVE_VISION []
                    (Some (Samples.step TAP (Samples.at_ 300 700) None 0))
                    Samples.live) in
  App.cur_x (App.cursorState st') = 300%Q
  /\ App.cur_y (App.cursorState st') = 700%Q
  /\ App.isDown (App.cursorState st') = false.
Proof.
  intros st'.
  pose proof (tap_snaps_to_start (17 # 10) LIVE_VISION []
                (Samples.step TAP (Samples.at_ 300 700) None 0)
                {| x := 300; y := 700 |} Samples.live
                eq_refl eq_refl (or_introl eq_refl)) as H.
  cbv zeta in H. destruct H as (_ & _ & _ & H).
  subst st'. rewrite H. repeat split.
Defined.

Lemma swipeReady_missing (step : MacroStep) :
  coordinates step = None \/ endCoordinates step = None ->
  App.swipeReady step = false.
Proof.
  unfold App.swipeReady. intros [-> | ->];
    [now rewrite andb_false_r | apply andb_false_r].
Qed.

Lemma sequence_at_len (sequence : list MacroStep) (i : Z) (step : MacroStep) :
  MacroView.sequence_at sequence i = Some step ->
  0 <= i < MacroView.len sequence.
Proof.
  unfold MacroView.sequence_at. intros Hat.
  destruct (Z.ltb_spec i 0); [discriminate|].
  assert (Hn : nth_error sequence (Z.to_nat i) <> None) by congruence.
  apply nth_error_Some in Hn. unfold MacroView.len. lia.
Qed.

(** C7. A SWIPE, DRAG or HUMAN_SWIPE step that lacks its start or its end
    point is inert in the engine: its action phase shows nothing (no
    motion, no press) and the step goes straight to the recovery wait of
    100 / momentum ms; the animation resolves, never showing the pointer
    pressed if it was not pressed before.  The playback loop, however,
    does not go on with the next step: when a sequence that begins with
    such a step arrives, and when Play is pressed on it, the loop reads
    index -1, finds no step, and pauses with the index at 0, without
    having called the engine. *)
Theorem swipe_without_coordinates_is_inert
        (sf : Q) (closureMode : AppMode) (framesFor : MacroStep -> list Q)
        (step : MacroStep) (st : App.State)
        (rest : list MacroStep) (budget : nat) (interrupted : Z -> bool)
        (render : MacroView.State) :
  App.isSwipeKind (type step) = true ->
  coordinates step = None \/ endCoordinates step = None ->
  App.isAutoPilot st = true \/ closureMode = UPLOAD ->
  let locked := App.lockPhase step (App.travelPhase sf step (App.beginStep st)) in
  let done := App.animateSingleStep sf closureMode (framesFor step) (Some step) st in
  let paused := {| MacroView.currentStepIndex := 0;
                   MacroView.isLocallyPlaying := false |} in
  (forall s frames, App.actAndRecover sf frames step s = (App.recover sf s, JS.Resolved))
  /\ done = (App.recover sf locked, JS.Resolved)
  /\ App.cursorState (fst done) = App.cursorState locked
  /\ (exists shown,
         App.timeline (App.browser (fst done))
         = (App.timeline (App.browser st) ++ shown ++ [App.Sleep (100 / sf)])%list
         /\ (App.isDown (App.cursorState st) = false ->
             forallb (fun e => negb (App.pressed e)) shown = true))
  /\ MacroView.afterNewSequence (step :: rest)
       (App.onPreviewStep sf closureMode framesFor true)
       (S budget) interrupted render st
     = Some (paused, st)
  /\ MacroView.playbackEffect (step :: rest)
       (App.onPreviewStep sf closureMode framesFor true)
       (S budget) interrupted (MacroView.togglePlay paused) st
     = Some (paused, st).
Proof.
  intros Hkind Hmiss Hrun locked done paused.
  assert (Hact : forall s frames,
             App.actAndRecover sf frames step s = (App.recover sf s, JS.Resolved)).
  { intros s frames. unfold App.actAndRecover.
    rewrite (swipeReady_missing _ Hmiss).
    destruct (type step); try discriminate; reflexivity. }
  assert (Hdone : done = (App.recover sf locked, JS.Resolved)).
  { subst done. rewrite (animateSingleStep_runs _ _ _ _ _ Hrun). apply Hact. }
  refine (conj Hact (conj Hdone (conj _ (conj _ (conj _ _))))).
  - rewrite Hdone. reflexivity.
  - rewrite Hdone. subst locked.
    unfold App.lockPhase, App.travelPhase.
    destruct (coordinates step) as [c|].
    + exists [App.Render {| App.cur_x := App.cur_x (App.cursorState st);
                            App.cur_y := App.cur_y (App.cursorState st);
                            App.isDown := App.isDown (App.cursorState st);
                            App.cur_type := App.cur_type (App.cursorState st);
                            App.isVisible := true; App.precisionMode := false |};
              App.Render {| App.cur_x := x c; App.cur_y := y c; App.isDown := false;
                            App.cur_type := "MOVE"; App.isVisible := true;
                            App.precisionMode := false |};
              App.Sleep (200 / sf);
              App.Render {| App.cur_x := x c; App.cur_y := y c; App.isDown := false;
                            App.cur_type := "MOVE"; App.isVisible := true;
                            App.precisionMode := true |};
              App.Sleep 50].
      destruct (type step); try discriminate; cbn -[Qdiv];
        rewrite <- !app_assoc; cbn -[Qdiv]; (split; [reflexivity|]);
          intros ->; reflexivity.
    + exists [App.Render {| App.cur_x := App.cur_x (App.cursorState st);
                            App.cur_y := App.cur_y (App.cursorState st);
                            App.isDown := App.isDown (App.cursorState st);
                            App.cur_type := App.cur_type (App.cursorState st);
                            App.isVisible := true; App.precisionMode := false |}].
      cbn -[Qdiv]. rewrite <- !app_assoc. cbn -[Qdiv]. split; [reflexivity|].
      intros ->; reflexivity.
  - rewrite afterNewSequence_state. reflexivity.
  - unfold MacroView.playbackEffect, MacroView.playLoop, paused.
    cbn [MacroView.togglePlay MacroView.isLocallyPlaying negb].
    rewrite whilePlaying_pauses. reflexivity.
Qed.

(** C7 where the code leaves it: the two-step sequence whose first step is
    a swipe without an end point arrives in live mode with auto-pilot on.
    The engine would let the step pass without a press; the controller
    mounted for the sequence ends paused on that step, and nothing has
    been shown. *)
Lemma swipe_without_coordinates_is_inert_loop :
  let broken := Samples.step SWIPE (Samples.at_ 100 100) None 300 in
  let sequence := [broken; Samples.step WAIT None None 10] in
  snd (App.animateSingleStep 1 LIVE_VISION [] (Some broken) Samples.live)
  = JS.Resolved
  /\ MacroView.afterNewSequence sequence
       (App.onPreviewStep 1 LIVE_VISION (fun _ => []) true)
       2 (fun _ => false) (MacroView.initial true) Samples.live
     = Some ({| MacroView.currentStepIndex := 0;
                MacroView.isLocallyPlaying := false |}, Samples.live).
Proof.
  intros broken sequence.
  destruct (swipe_without_coordinates_is_inert
              1 LIVE_VISION (fun _ => []) broken Samples.live
              [Samples.step WAIT None None 10] 1%nat
              (fun _ => false) (MacroView.initial true)
              eq_refl (or_intror eq_refl) (or_introl eq_refl))
    as (_ & Hdone & _ & _ & Hloop & _).
  split.
  - exact (f_equal snd Hdone).
  - exact Hloop.
Defined.

(** ** The engine: swipes *)


Lemma Qlt_bool_false_iff (a b : Q) : JS.Qlt_bool a b = false <-> (b <= a)%Q.
Proof.
  unfold JS.Qlt_bool. rewrite negb_false_iff. apply Qle_bool_iff.
Qed.










Lemma animateSingleStep_swipe (sf : Q) (closureMode : AppMode) (frames : list Q)
      (step : MacroStep) (c e : Point) (st : App.State) :
  App.isSwipeKind (type step) = true ->
  coordinates step = Some c ->
  endCoordinates step = Some e ->
  App.isAutoPilot st = true \/ closureMode = UPLOAD ->
  App.animateSingleStep sf closureMode frames (Some step) st
  = App.swipeAction sf frames step
      (App.lockPhase step (App.travelPhase sf step (App.beginStep st))).
Proof.
  intros Hk Hc He Hrun. rewrite (animateSingleStep_runs _ _ _ _ _ Hrun).
  unfold App.actAndRecover, App.swipeReady. rewrite Hk, Hc, He.
  destruct (type step); try discriminate; reflexivity.
Qed.





(** ** Momentum *)

(** Each phase of a step leaves momentum and the auto-pilot switch alone. *)
Lemma animateSwipe_keeps (step : MacroStep) (duration : Q) (frames : list Q)
      (st : App.State) :
  App.momentum (fst (App.animateSwipe step duration frames st)) = App.momentum st
  /\ App.isAutoPilot (fst (App.animateSwipe step duration frames st))
     = App.isAutoPilot st.
Proof.
  revert st. induction frames as [|elapsed frames IH]; intros st; [now split|].
  cbn [App.animateSwipe].
  set (st1 := match coordinates step with Some _ => _ | None => _ end).
  assert (H1 : App.momentum st1 = App.momentum st
               /\ App.isAutoPilot st1 = App.isAutoPilot st).
  { subst st1. destruct (coordinates step), (endCoordinates step); now split. }
  clearbody st1.
  destruct (JS.Qlt_bool _ 1).
  - destruct (IH st1) as [IHm IHp]. rewrite IHm, IHp. exact H1.
  - exact H1.
Qed.

Lemma actAndRecover_keeps (sf : Q) (frames : list Q) (step : MacroStep)
      (st : App.State) :
  App.momentum (fst (App.actAndRecover sf frames step st)) = App.momentum st
  /\ App.isAutoPilot (fst (App.actAndRecover sf frames step st)) = App.isAutoPilot st.
Proof.
  unfold App.actAndRecover.
  assert (Hsw : App.momentum (fst (App.swipeAction sf frames step st)) = App.momentum st
                /\ App.isAutoPilot (fst (App.swipeAction sf frames step st))
                   = App.isAutoPilot st).
  { unfold App.swipeAction.
    match goal with
    | |- context [App.animateSwipe ?a ?b ?c ?d] =>
      destruct (animateSwipe_keeps a b c d) as [-> ->]
    end. now split. }
  destruct (type step) eqn:Ety; destruct (App.swipeReady step);
    try exact Hsw; unfold App.tapAction; destruct (coordinates step); now split.
Qed.

Lemma travel_lock_keeps (sf : Q) (step : MacroStep) (st : App.State) :
  App.momentum (App.lockPhase step (App.travelPhase sf step st)) = App.momentum st
  /\ App.isAutoPilot (App.lockPhase step (App.travelPhase sf step st))
     = App.isAutoPilot st.
Proof.
  unfold App.lockPhase, App.travelPhase.
  destruct (coordinates step), (type step); now split.
Qed.

(** "Increase momentum (max 2.0x speed)": what a step that is animated does
    to momentum. *)
Lemma animateSingleStep_momentum (sf : Q) (closureMode : AppMode) (frames : list Q)
      (step : MacroStep) (st : App.State) :
  App.isAutoPilot st = true \/ closureMode = UPLOAD ->
  let st' := fst (App.animateSingleStep sf closureMode frames (Some step) st) in
  App.momentum st' = Math.min (App.momentum st + Math.tenth)%float 2%float
  /\ App.isAutoPilot st' = App.isAutoPilot st.
Proof.
  intros Hrun st'. subst st'.
  rewrite (animateSingleStep_runs _ _ _ _ _ Hrun).
  destruct (actAndRecover_keeps sf frames step
              (App.lockPhase step (App.travelPhase sf step (App.beginStep st))))
    as [Hm Hp].
  destruct (travel_lock_keeps sf step (App.beginStep st)) as [Hm' Hp'].
  rewrite Hm, Hp, Hm', Hp'. now split.
Qed.

(** A step the guard skips, and an undefined step, change nothing. *)
Lemma animateSingleStep_skipped (sf : Q) (closureMode : AppMode) (frames : list Q)
      (step : option MacroStep) (st : App.State) :
  step = None \/ (App.isAutoPilot st = false /\ closureMode <> UPLOAD) ->
  App.animateSingleStep sf closureMode frames step st = (st, JS.Resolved).
Proof.
  intros [-> | [Hp Hm]]; [reflexivity|].
  destruct step as [step|]; [|reflexivity].
  unfold App.animateSingleStep. rewrite Hp.
  destruct closureMode; try congruence; reflexivity.
Qed.

Ltac effect :=
  unfold Reach.momentumEffect;
  first [ left; reflexivity | right; left; reflexivity | right; right; reflexivity ].

Lemma setters_momentum (st : App.State) :
  (forall e, App.momentum (App.setError e st) = App.momentum st)
  /\ (forall m, App.momentum (App.setMode m st) = App.momentum st)
  /\ (forall f, App.momentum (App.withRefs f st) = App.momentum st)
  /\ (forall r, App.momentum (App.setResult r st) = App.momentum st)
  /\ (forall b, App.momentum (App.setIsAutoPilot b st) = App.momentum st).
Proof. repeat split. Qed.

Ltac setters :=
  cbn [fst];
  repeat match goal with
         | |- context [App.momentum (App.setError ?e ?s)] =>
           rewrite (proj1 (setters_momentum s) e)
         | |- context [App.momentum (App.setMode ?m ?s)] =>
           rewrite (proj1 (proj2 (setters_momentum s)) m)
         | |- context [App.momentum (App.withRefs ?f ?s)] =>
           rewrite (proj1 (proj2 (proj2 (setters_momentum s))) f)
         | |- context [App.momentum (App.setResult ?r ?s)] =>
           rewrite (proj1 (proj2 (proj2 (proj2 (setters_momentum s)))) r)
         | |- context [App.momentum (App.setIsAutoPilot ?b ?s)] =>
           rewrite (proj2 (proj2 (proj2 (proj2 (setters_momentum s)))) b)
         end.

Lemma schedule_momentum (st : App.State) :
  App.momentum (Live.schedule st) = App.momentum st.
Proof. reflexivity. Qed.

Lemma clearTimer_momentum (h : positive) (st : App.State) :
  App.momentum (App.clearTimer h st) = App.momentum st.
Proof. reflexivity. Qed.

Lemma stop_momentum (st : App.State) :
  App.momentum (App.stopLiveAnalysis st) = App.momentum st.
Proof. apply stop_untouched. Qed.

Lemma captureAndAnalyzeAt_momentum (pilotRef closureIsAnalyzing : bool)
      (closureRetryTimer : Q) (frameA frameB : option string) (st : App.State) :
  Reach.momentumEffect (App.momentum st)
    (App.momentum (fst (Live.captureAndAnalyzeAt pilotRef closureIsAnalyzing
                          closureRetryTimer frameA frameB st))).
Proof.
  unfold Live.captureAndAnalyzeAt.
  destruct (negb (App.isLiveRef (App.refs st))); [effect|].
  destruct (closureIsAnalyzing || JS.Qlt_bool 0 closureRetryTimer)%bool; [effect|].
  destruct (negb pilotRef); [effect|].
  destruct (Live.burst frameA frameB); cbn [fst].
  - destruct (beginAnalysis_state st) as (-> & _). effect.
  - effect.
Qed.

(** What each step does to momentum. *)
Lemma step_momentum (st st' : App.State) :
  Reach.step st st' ->
  Reach.momentumEffect (App.momentum st) (App.momentum st').
Proof.
  intros [ | parse imgs rm prof now out | sf cm frames step | | h | m | b
         | pr ca cr fa fb | h ca cr fa fb | us hd m fa fb | cmd fa fb | file ].
  - destruct (beginAnalysis_state st) as (-> & _). effect.
  - destruct (finishAnalysis_keeps parse imgs rm prof now out st) as (-> & _).
    effect.
  - destruct step as [step|]; [|effect].
    destruct (App.isAutoPilot st) eqn:Hp.
    + destruct (animateSingleStep_momentum sf cm frames step st (or_introl Hp))
        as [-> _]. effect.
    + destruct cm.
      * destruct (animateSingleStep_momentum sf UPLOAD frames step st
                    (or_intror eq_refl)) as [-> _]. effect.
      * rewrite animateSingleStep_skipped; [effect|right; split; congruence].
      * rewrite animateSingleStep_skipped; [effect|right; split; congruence].
  - rewrite stop_momentum. effect.
  - unfold App.retryTick. destruct (App.isArmed h st); effect.
  - effect.
  - effect.
  - apply captureAndAnalyzeAt_momentum.
  - unfold Live.timerFires, Live.captureAndAnalyze.
    destruct (App.isArmed h st); [|effect].
    rewrite <- (clearTimer_momentum h st) at 1.
    apply captureAndAnalyzeAt_momentum.
  - unfold Live.startLiveAnalysis.
    destruct (us && negb hd)%bool; cbn [fst].
    + setters. rewrite stop_momentum. effect.
    + destruct m as [tracks|isError msg].
      * unfold Live.captureAndAnalyze.
        match goal with
        | |- context [Live.captureAndAnalyzeAt ?a ?b ?c ?d ?e ?s] =>
          replace (App.momentum st) with (App.momentum s)
            by (setters; apply stop_momentum);
          apply captureAndAnalyzeAt_momentum
        end.
      * destruct us; setters; rewrite stop_momentum; effect.
  - unfold Live.handleVoiceCommand.
    destruct (cmd =? "ANALYZE")%string.
    + destruct (Live.isLive (App.mode st)).
      * match goal with
        | |- context [Live.captureAndAnalyzeAt ?a ?b ?c ?d ?e ?s] =>
          replace (App.momentum st) with (App.momentum s)
            by (destruct (negb (App.isAutoPilot st)); reflexivity);
          apply captureAndAnalyzeAt_momentum
        end.
      * destruct (negb (App.isAutoPilot st)); effect.
    + destruct (cmd =? "STOP")%string; setters; [rewrite stop_momentum|]; effect.
  - unfold Live.handleFileUpload.
    destruct file as [[data|]|]; cbn [fst].
    + destruct (beginAnalysis_state
                  (App.setError None (App.stopLiveAnalysis (App.setMode UPLOAD st))))
        as (-> & _). effect.
    + setters. rewrite stop_momentum. effect.
    + effect.
Qed.

(** The eleven values momentum takes: once 2.0 is reached a further step
    leaves it there. *)
Lemma momentumAfter_capped (k : nat) :
  (10 <= k)%nat -> Reach.momentumAfter k = 2%float.
Proof.
  intros H. replace k with ((k - 10) + 10)%nat by lia.
  induction (k - 10)%nat as [|n IH]; [reflexivity|].
  cbn [Nat.add]. unfold Reach.momentumAfter in *. rewrite Nat.iter_succ, IH.
  reflexivity.
Qed.

Lemma momentumAfter_cases (k : nat) (P : nat -> Prop) :
  P 0%nat -> P 1%nat -> P 2%nat -> P 3%nat -> P 4%nat -> P 5%nat -> P 6%nat ->
  P 7%nat -> P 8%nat -> P 9%nat -> (forall n, (10 <= n)%nat -> P n) -> P k.
Proof.
  intros H0 H1 H2 H3 H4 H5 H6 H7 H8 H9 H10.
  do 10 (destruct k as [|k]; [assumption|]).
  apply H10. lia.
Qed.

Lemma momentumAfter_range (k : nat) :
  (1 <=? Reach.momentumAfter k)%float = true
  /\ (Reach.momentumAfter k <=? 2)%float = true.
Proof.
  apply (momentumAfter_cases k); [split; reflexivity .. |].
  intros n Hn. rewrite (momentumAfter_capped n Hn). split; reflexivity.
Qed.

(** In every reachable state momentum is what some number of steps after
    a reset leave. *)
Lemma momentum_reachable (st : App.State) :
  Reach.reachable st -> exists k, App.momentum st = Reach.momentumAfter k.
Proof.
  induction 1 as [ | st st' Hst [k Hk] Hstep ]; [exists 0%nat; reflexivity|].
  destruct (step_momentum st st' Hstep) as [E | [E | E]].
  - exists k. congruence.
  - exists 0%nat. exact E.
  - exists (S k). rewrite E, Hk. reflexivity.
Qed.

(** Steps animated one after the other raise momentum once each. *)
Lemma animateSteps_momentum (calls : list (Q * AppMode * list Q * MacroStep)) :
  forall (st : App.State) (k : nat),
    App.isAutoPilot st = true
    \/ Forall (fun call => snd (fst (fst call)) = UPLOAD) calls ->
    App.momentum st = Reach.momentumAfter k ->
    App.momentum (App.animateSteps calls st)
    = Reach.momentumAfter (k + List.length calls).
Proof.
  induction calls as [|[[[sf cm] frames] step] calls IH]; intros st k Hrun Hk.
  - cbn. now rewrite Nat.add_0_r.
  - cbn [App.animateSteps List.length].
    assert (Hrun1 : App.isAutoPilot st = true \/ cm = UPLOAD).
    { destruct Hrun as [Hp | Hall]; [now left|right].
      inversion Hall; subst; assumption. }
    destruct (animateSingleStep_momentum sf cm frames step st Hrun1) as [Hm Hp].
    replace (k + S (List.length calls))%nat with (S k + List.length calls)%nat by lia.
    apply IH.
    + destruct Hrun as [Hp' | Hall]; [left; congruence|right].
      inversion Hall; subst; assumption.
    + rewrite Hm, Hk. reflexivity.
Qed.

(** The value the code computes stays within 2^-50 of the value of the
    closed form. *)
Lemma momentumAfter_close (k : nat) :
  (Qabs (Spec.valueOf (Reach.momentumAfter k) - Spec.momentumAfter k)
   <= 1 # (2 ^ 50))%Q.
Proof.
  apply (momentumAfter_cases k); [vm_compute; discriminate .. |].
  intros n Hn. rewrite (momentumAfter_capped n Hn).
  unfold Spec.momentumAfter.
  rewrite Q.min_r.
  - vm_compute. discriminate.
  - assert (H : (10 <= inject_Z (Z.of_nat n))%Q).
    { rewrite <- (Zle_Qle 10). lia. }
    lra.
Qed.

(** C3, as the code has it.  Momentum is a double within [1.0, 2.0] in
    every state the application can reach.  It is put back to 1.0 whenever
    an analysis cycle begins, whether a sequence is being shown or not;
    each step the engine animates replaces it by
    [Math.min(momentum + 0.1, 2.0)], a step the auto-pilot guard skips
    leaves it alone, and so do settling the analysis, stopping live mode
    and the retry countdown: whatever happens to the application leaves
    momentum alone, puts it back to 1.0 or raises it in this way.
    Consequently, after the [k]-th step animated
    since a cycle began, momentum is the result of [k] such additions in
    double arithmetic, which is within 2^-50 of min(1.0 + 0.1*k, 2.0) and
    is exactly 2.0 from the tenth step on. *)
Theorem momentum_ramp (st : App.State)
        (calls : list (Q * AppMode * list Q * MacroStep)) :
  Reach.reachable st ->
  App.isAutoPilot st = true
  \/ Forall (fun call => snd (fst (fst call)) = UPLOAD) calls ->
  let k := List.length calls in
  let after := App.momentum (App.animateSteps calls (App.beginAnalysis st)) in
  ((1 <=? App.momentum st)%float = true /\ (App.momentum st <=? 2)%float = true)
  /\ App.momentum (App.beginAnalysis st) = 1%float
  /\ (forall sf closureMode frames step,
         App.isAutoPilot st = true \/ closureMode = UPLOAD ->
         App.momentum (fst (App.animateSingleStep sf closureMode frames (Some step) st))
         = Math.min (App.momentum st + Math.tenth)%float 2%float)
  /\ (forall sf closureMode frames step,
         App.isAutoPilot st = false -> closureMode <> UPLOAD ->
         App.momentum (fst (App.animateSingleStep sf closureMode frames (Some step) st))
         = App.momentum st)
  /\ (forall JSON_parse base64Images renderMode currentProfile now out,
         App.momentum (fst (App.finishAnalysis JSON_parse base64Images
                                               renderMode currentProfile now out st))
         = App.momentum st)
  /\ App.momentum (App.stopLiveAnalysis st) = App.momentum st
  /\ (forall h, App.momentum (App.retryTick h st) = App.momentum st)
  /\ (forall st', Reach.step st st' ->
                  App.momentum st' = App.momentum st
                  \/ App.momentum st' = 1%float
                  \/ App.momentum st'
                     = Math.min (App.momentum st + Math.tenth)%float 2%float)
  /\ after = Reach.momentumAfter k
  /\ (Qabs (Spec.valueOf after - Spec.momentumAfter k) <= 1 # (2 ^ 50))%Q
  /\ ((10 <= k)%nat -> after = 2%float)
  /\ ((1 <=? after)%float = true /\ (after <=? 2)%float = true).
Proof.
  intros Hreach Hrun k after.
  assert (Hafter : after = Reach.momentumAfter k).
  { subst after k.
    apply (animateSteps_momentum calls (App.beginAnalysis st) 0).
    - destruct Hrun as [Hp | Hall]; [left|now right].
      destruct (beginAnalysis_state st) as (_ & _ & -> & _). exact Hp.
    - apply beginAnalysis_state. }
  destruct (momentum_reachable st Hreach) as [k0 Hk0].
  refine (conj _ (conj _ (conj _ (conj _ (conj _ (conj _ (conj _
          (conj (step_momentum st) (conj Hafter (conj _ (conj _ _))))))))))).
  - rewrite Hk0. apply momentumAfter_range.
  - apply beginAnalysis_state.
  - intros sf cm frames step Hr.
    apply (animateSingleStep_momentum sf cm frames step st Hr).
  - intros sf cm frames step Hp Hm.
    rewrite animateSingleStep_skipped; [reflexivity|right; now split].
  - intros. apply finishAnalysis_keeps.
  - apply stop_momentum.
  - intros h. unfold App.retryTick. destruct (App.isArmed h st); reflexivity.
  - rewrite Hafter. apply momentumAfter_close.
  - intros Hk. rewrite Hafter. now apply momentumAfter_capped.
  - rewrite Hafter. apply momentumAfter_range.
Qed.

(** C3 on three taps animated in live mode, auto-pilot on, after a cycle
    begun in the initial state: momentum is 1.3000000000000003. *)
Lemma momentum_ramp_three_steps :
  let tap := Samples.step TAP (Samples.at_ 300 700) None 0 in
  let calls := [(1%Q, LIVE_VISION, @nil Q, tap);
                ((11 # 10)%Q, LIVE_VISION, @nil Q, tap);
                ((12 # 10)%Q, LIVE_VISION, @nil Q, tap)] in
  App.momentum (App.animateSteps calls (App.beginAnalysis App.initial))
  = 0x1.4cccccccccccep+0%float.
Proof.
  intros tap calls.
  destruct (momentum_ramp App.initial calls Reach.reach_initial (or_introl eq_refl))
    as (_ & _ & _ & _ & _ & _ & _ & _ & Hafter & _).
  rewrite Hafter. reflexivity.
Defined.

(** C3 as stated fails in two ways.  The reset belongs to the analysis
    cycle, not to the sequence: a cycle that begins while three attached
    taps are being stepped through, and fails on the network, puts
    momentum back to 1.0 between the second and the third tap although
    the sequence stays attached.  And the sum is taken in doubles: after
    the second step momentum is 1.2000000000000002, which is neither the
    double that 1.0 + 0.1*2 gives nor the number 1.2. *)
Lemma momentum_not_as_claimed :
  let tap := Samples.step TAP (Samples.at_ 300 700) None 0 in
  let steps := [tap; tap; tap] in
  let animate := fun st => fst (App.animateSingleStep 1 UPLOAD [] (Some tap) st) in
  exists sys0,
    Playback.analysisCycle JSON.parse ["/9j/4AAQ"%string] UPLOAD Samples.profile 0
                           (Samples.analysis steps) 1 (fun _ => []) 3
                           (fun _ => false) Samples.system = Some sys0
    /\ let a2 := animate (animate (Playback.app sys0)) in
       let a3 := fst (App.triggerAnalysis JSON.parse ["/9j/4AAQ"%string] UPLOAD
                        Samples.profile 1
                        (App.Failed (App.ThrownString "TypeError: fetch failed")) a2) in
       let a4 := animate a3 in
       App.momentum a2 = 0x1.3333333333334p+0%float
       /\ App.momentum a2 <> (1 + Math.tenth * 2)%float
       /\ ~ (Spec.valueOf (App.momentum a2) == Spec.momentumAfter 2)%Q
       /\ Playback.sequenceProp a3 = Some steps
       /\ App.momentum a3 = 1%float
       /\ App.momentum a4 = 0x1.199999999999ap+0%float.
Proof.
  intros tap steps animate.
  eexists. split; [vm_compute; reflexivity|].
  cbv zeta. refine (conj _ (conj _ (conj _ (conj _ (conj _ _))))).
  - vm_compute. reflexivity.
  - intros H. apply (f_equal Prim2SF) in H. vm_compute in H. discriminate.
  - intros H. vm_compute in H. discriminate.
  - vm_compute. reflexivity.
  - vm_compute. reflexivity.
  - vm_compute. reflexivity.
Qed.

(** ** The error classifier *)

Lemma orElse_orb (a b : bool) (x y : option bool) :
  x = Some a -> y = Some b -> App.orElse x y = Some (a || b)%bool.
Proof. intros -> ->. destruct a; reflexivity. Qed.

(** On a message that is a text, the classifier does not throw and picks
    the first category, in the order RateLimit, Safety, Network, Other, one
    of whose tokens occurs in the text as written. *)
Lemma classify_text (JSON_parse : string -> option json) (e : App.thrown)
      (text : option string) (m : string) :
  App.extractMessage e = Some text ->
  App.unwrap JSON_parse text = Some (JStr m) ->
  exists c, App.classifiedWith JSON_parse e m c
            /\ App.category c = Spec.categoryOf JS.includes m
            /\ App.nextDelay c = Spec.backoffMs (App.category c).
Proof.
  intros Hx Hu. unfold App.classifiedWith, App.classify. rewrite Hx. cbv zeta.
  rewrite Hu. unfold JS.callIncludes, JS.callSubstring0.
  rewrite !(orElse_orb _ _ _ _ eq_refl eq_refl).
  unfold Spec.categoryOf.
  destruct (JS.includes m "429" || (JS.includes m "quota"
            || JS.includes m "RESOURCE_EXHAUSTED"))%bool eqn:Erl.
  - eexists. split; [split; reflexivity|]. unfold App.category; cbn.
    rewrite orb_assoc in Erl. rewrite Erl. split; reflexivity.
  - rewrite orb_assoc in Erl. rewrite Erl.
    destruct (JS.includes m "SAFETY" || JS.includes m "harmful")%bool eqn:Esf.
    + eexists. split; [split; reflexivity|]. unfold App.category; cbn.
      split; reflexivity.
    + destruct (JS.includes m "fetch" || JS.includes m "network")%bool eqn:Enw.
      * eexists. split; [split; reflexivity|]. unfold App.category; cbn.
        split; reflexivity.
      * eexists. split; [split; reflexivity|]. unfold App.category; cbn.
        split; reflexivity.
Qed.

Lemma unwrap_plain (JSON_parse : string -> option json) (text : string) :
  JS.startsWith (JS.trim text) "{" = false \/ JSON_parse text = None ->
  App.unwrap JSON_parse (Some text) = Some (JStr text).
Proof.
  unfold App.unwrap. intros [-> | H]; [reflexivity|].
  rewrite H. destruct (JS.startsWith _ _); reflexivity.
Qed.

Lemma unwrap_error_message (JSON_parse : string -> option json) (text : string)
      (fields errFields : list (string * json)) (inner : string) :
  JS.startsWith (JS.trim text) "{" = true ->
  JSON_parse text = Some (JObj fields) ->
  JS.lookup "error" fields = Some (JObj errFields) ->
  JS.lookup "message" errFields = Some (JStr inner) ->
  inner <> ""%string ->
  App.unwrap JSON_parse (Some text) = Some (JStr inner).
Proof.
  intros Hs Hp He Hm Hne. unfold App.unwrap. rewrite Hs, Hp.
  cbn [JS.getProp]. rewrite He. cbn [JS.truthy JS.getProp]. rewrite Hm.
  cbn [JS.truthy]. destruct (String.eqb_spec inner ""); [contradiction|reflexivity].
Qed.

(** Unwrapping a text never throws, and yields what the spec's wording
    yields. *)
Lemma unwrap_unwrapped (JSON_parse : string -> option json) (text : string) :
  App.unwrap JSON_parse (Some text) = Some (Spec.unwrapped JSON_parse text).
Proof.
  unfold App.unwrap, Spec.unwrapped.
  destruct (JS.startsWith (JS.trim text) "{"); [|reflexivity].
  destruct (JSON_parse text) as [[ | b | n | s | items | fields]|];
    cbn [option_map Spec.errorMessageField JS.getProp JS.truthy]; try reflexivity.
  destruct (JS.lookup "error" fields) as [[ | b | n | s | items | errFields]|];
    cbn [JS.getProp JS.truthy]; try reflexivity.
  - now destruct b.
  - now destruct (negb (Qeq_bool n 0)).
  - now destruct (negb (s =? "")%string).
  - destruct (JS.lookup "message" errFields) as [m|]; [|reflexivity].
    change (match m with
            | JNull => false
            | JBool b => b
            | JNum n => negb (Qeq_bool n 0)
            | JStr s => negb (s =? "")%string
            | _ => true
            end) with (JS.truthy (Some m)).
    now destruct (JS.truthy (Some m)).
Qed.

(** C1, as the code has it.  For a failure whose message is a text (a
    thrown string, an [Error], or a payload that [JSON.stringify] turns into
    a text), unwrapping does not throw: what is classified is the
    [error.message] of the message when the message starts with a brace,
    parses, and holds a truthy one, and the message as written otherwise.
    Whenever that is a text, the classifier produces one record by
    first-match-wins substring matching that is case-sensitive: "429",
    "quota" or "RESOURCE_EXHAUSTED" give RateLimit with 25000 ms, "SAFETY"
    or "harmful" give Safety with 5000 ms, "fetch" or "network" give
    Network with 8000 ms, anything else gives Other with 5000 ms.  So the
    text classified and recorded is the message itself when it does not
    start with a brace or does not parse, and the [error.message] text
    when the message is a JSON object holding a non-empty one. *)
Theorem classify_first_match (JSON_parse : string -> option json) (e : App.thrown)
        (text : string) :
  App.extractMessage e = Some (Some text) ->
  let classifiedAs (m : string) :=
      exists c, App.classifiedWith JSON_parse e m c
                /\ App.category c = Spec.categoryOf JS.includes m
                /\ App.nextDelay c = Spec.backoffMs (App.category c)
                /\ (forall c', App.classify JSON_parse e = Some c' -> c' = c) in
  App.unwrap JSON_parse (Some text) = Some (Spec.unwrapped JSON_parse text)
  /\ (forall m, Spec.unwrapped JSON_parse text = JStr m -> classifiedAs m)
  /\ (JS.startsWith (JS.trim text) "{" = false \/ JSON_parse text = None ->
      Spec.unwrapped JSON_parse text = JStr text /\ classifiedAs text)
  /\ (forall fields errFields inner,
         JS.startsWith (JS.trim text) "{" = true ->
         JSON_parse text = Some (JObj fields) ->
         JS.lookup "error" fields = Some (JObj errFields) ->
         JS.lookup "message" errFields = Some (JStr inner) ->
         inner <> ""%string ->
         Spec.unwrapped JSON_parse text = JStr inner /\ classifiedAs inner).
Proof.
  intros Hx classifiedAs. subst classifiedAs. cbv beta.
  assert (Hone : forall m, Spec.unwrapped JSON_parse text = JStr m ->
                 exists c, App.classifiedWith JSON_parse e m c
                   /\ App.category c = Spec.categoryOf JS.includes m
                   /\ App.nextDelay c = Spec.backoffMs (App.category c)
                   /\ (forall c', App.classify JSON_parse e = Some c' -> c' = c)).
  { intros m Hu.
    assert (Hu' : App.unwrap JSON_parse (Some text) = Some (JStr m))
      by (rewrite unwrap_unwrapped; now f_equal).
    destruct (classify_text JSON_parse e (Some text) m Hx Hu') as (c & Hc & Hcat & Hd).
    exists c. refine (conj Hc (conj Hcat (conj Hd _))).
    intros c' Hc'. destruct Hc as [Hc _]. congruence. }
  assert (Hsame : forall m, App.unwrap JSON_parse (Some text) = Some (JStr m) ->
                            Spec.unwrapped JSON_parse text = JStr m).
  { intros m Hu. rewrite unwrap_unwrapped in Hu. congruence. }
  refine (conj (unwrap_unwrapped JSON_parse text) (conj Hone (conj _ _))).
  - intros H. assert (Hu := Hsame _ (unwrap_plain JSON_parse text H)).
    split; [exact Hu|now apply Hone].
  - intros fields errFields inner Hs Hp He Hm Hne.
    assert (Hu := Hsame _ (unwrap_error_message JSON_parse text fields errFields
                             inner Hs Hp He Hm Hne)).
    split; [exact Hu|now apply Hone].
Qed.

(** C1 on the three messages of the spec. *)
Lemma classify_first_match_examples :
  let result (s : string) :=
      option_map (fun c => (App.category c, App.nextDelay c))
                 (App.classify JSON.parse (App.ThrownString s)) in
  result "Error 429: RESOURCE_EXHAUSTED"%string = Some (App.RateLimit, 25000%Q)
  /\ result "TypeError: fetch failed"%string = Some (App.Network, 8000%Q)
  /\ result "weird stuff"%string = Some (App.Other, 5000%Q).
Proof.
  intros result.
  assert (H : forall s, JS.startsWith (JS.trim s) "{" = false ->
                        result s = Some (Spec.categoryOf JS.includes s,
                                         Spec.backoffMs (Spec.categoryOf JS.includes s))).
  { intros s Hs.
    destruct (classify_first_match JSON.parse (App.ThrownString s) s eq_refl)
      as (_ & _ & Hplain & _).
    destruct (Hplain (or_introl Hs)) as (_ & c & [Hc _] & Hcat & Hd & _).
    subst result. cbv beta. rewrite Hc. cbn [option_map]. now rewrite Hd, Hcat. }
  rewrite !H by reflexivity. repeat split.
Defined.

(** C1 on a structured payload: the [error.message] of the JSON text is
    what gets classified and recorded. *)
Example classify_unwraps_json :
  let text := ("{" ++ JSON.quote "error" ++ ": {" ++ JSON.quote "code" ++ ": 503, "
                   ++ JSON.quote "message" ++ ": "
                   ++ JSON.quote "The network is unreachable" ++ "}}")%string in
  option_map (fun c => (App.technicalMessage c, App.category c, App.nextDelay c))
             (App.classify JSON.parse (App.ThrownOther (App.Text text)))
  = Some (JStr "The network is unreachable", App.Network, 8000%Q).
Proof. vm_compute. reflexivity. Qed.

(** C1 as stated fails in four ways.  A token in another case: "Quota"
    matches "quota" when case is ignored, so the claim has RateLimit with
    25000 ms, but the code matches the text as written and ends in Other
    with 5000 ms.  An [error.message] that is not a text: the payload
    [{error: {message: 429}}] is unwrapped to the number 429, on which the
    first [includes] call throws, so the catch block throws and the cycle's
    promise rejects.  A thrown value without a message text:
    [JSON.stringify] maps [undefined] to [undefined], on which [trim]
    throws.  And a payload that does not parse is classified as it is
    written, which need not give Other. *)
Lemma classify_not_as_claimed :
  let text := "Quota exceeded for this project"%string in
  let payload := ("{" ++ JSON.quote "error" ++ ": {" ++ JSON.quote "message"
                      ++ ": 429}}")%string in
  (Spec.categoryOf Spec.includesIgnoreCase text = App.RateLimit
   /\ option_map (fun c => (App.category c, App.nextDelay c))
                 (App.classify JSON.parse (App.ThrownString text))
      = Some (App.Other, 5000%Q)
   /\ option_map App.category (App.classify JSON.parse (App.ThrownString text))
      <> Some (Spec.categoryOf Spec.includesIgnoreCase text))
  /\ (App.unwrap JSON.parse (Some payload) = Some (JNum 429)
      /\ App.classify JSON.parse (App.ThrownOther (App.Text payload)) = None
      /\ snd (App.finishAnalysis JSON.parse ["/9j/4AAQ"%string] UPLOAD Samples.profile 0
                (App.Failed (App.ThrownOther (App.Text payload))) App.initial)
         = JS.Rejected)
  /\ App.classify JSON.parse (App.ThrownOther App.Undefined) = None
  /\ (JSON.parse "{quota exhausted" = None
      /\ option_map (fun c => (App.technicalMessage c, App.category c))
                    (App.classify JSON.parse
                       (App.ThrownOther (App.Text "{quota exhausted")))
         = Some (JStr "{quota exhausted", App.RateLimit)).
Proof. vm_compute. repeat split. discriminate. Qed.

(** Beyond texts: a thrown value that [JSON.stringify] maps to [undefined]
    makes the catch block itself throw. *)
Example classify_undefined_throws :
  App.classify JSON.parse (App.ThrownOther App.Undefined) = None.
Proof. reflexivity. Qed.

(** ** The retry countdown *)

Lemma classify_flags (JSON_parse : string -> option json) (e : App.thrown)
      (c : App.Classification) :
  App.classify JSON_parse e = Some c ->
  (App.isRateLimit c = true -> App.nextDelay c = 25000%Q)
  /\ App.nextDelay c = Spec.backoffMs (App.category c).
Proof.
  unfold App.classify.
  destruct (App.extractMessage e) as [text|]; [|discriminate].
  cbv zeta. set (tm := App.unwrap JSON_parse text). clearbody tm.
  destruct tm as [j|]; [|discriminate].
  destruct (App.orElse (JS.callIncludes (Some j) "429") _) as [rl|]; [|discriminate].
  destruct (App.orElse (JS.callIncludes (Some j) "SAFETY") _) as [sf|]; [|discriminate].
  destruct (App.orElse (JS.callIncludes (Some j) "fetch") _) as [nw|]; [|discriminate].
  destruct rl; [|destruct sf; [|destruct nw;
                                [|destruct (JS.callSubstring0 (Some j) 40);
                                  [|discriminate]]]];
    intros H; injection H as <-; unfold App.category; cbn; split;
      try reflexivity; try discriminate.
Qed.

Lemma category_RateLimit (c : App.Classification) :
  App.category c = App.RateLimit <-> App.isRateLimit c = true.
Proof.
  unfold App.category.
  destruct (App.isRateLimit c), (App.isSafety c), (App.isNetwork c);
    split; intros; congruence.
Qed.

Lemma onFinally_keeps (d : Q) (st : App.State) (h : positive) :
  App.retryTimer (App.onFinally d st) = App.retryTimer st
  /\ App.error (App.onFinally d st) = App.error st
  /\ App.retryIntervalRef (App.refs (App.onFinally d st))
     = App.retryIntervalRef (App.refs st)
  /\ (App.isArmed h st = true -> App.isArmed h (App.onFinally d st) = true).
Proof.
  unfold App.onFinally.
  destruct (App.isLiveRef _ && App.isAutoPilot _)%bool; cbn.
  - repeat split. unfold App.isArmed; cbn. intros ->. apply orb_true_r.
  - repeat split. auto.
Qed.

Lemma Qmax_dec_step (r k : Q) :
  (0 <= k)%Q -> (Qmax 0 (Qmax 0 (r - 1) - k) == Qmax 0 (r - (k + 1)))%Q.
Proof.
  intros Hk.
  destruct (Q.max_spec 0 (r - 1)) as [[H1 E1] | [H1 E1]]; rewrite E1;
    destruct (Q.max_spec 0 (r - (k + 1))) as [[H2 E2] | [H2 E2]]; rewrite E2.
  - rewrite Q.max_r by lra. lra.
  - apply Q.max_l. lra.
  - exfalso. lra.
  - apply Q.max_l. lra.
Qed.

(** The countdown: [n] ticks of an armed interval take [n] off the counter,
    stopping at zero. *)
Lemma retryTicks_counts (n : nat) (h : positive) (st : App.State) :
  App.isArmed h st = true ->
  (0 <= App.retryTimer st)%Q ->
  (App.retryTimer (App.retryTicks n h st)
   == Qmax 0 (App.retryTimer st - inject_Z (Z.of_nat n)))%Q.
Proof.
  revert st. induction n as [|n IH]; intros st Harm Hr.
  - cbn [App.retryTicks Z.of_nat]. rewrite Q.max_r.
    + change (inject_Z 0) with 0%Q. ring.
    + change (inject_Z 0) with 0%Q. lra.
  - cbn [App.retryTicks].
    assert (Harm' : App.isArmed h (App.retryTick h st) = true).
    { unfold App.retryTick. rewrite Harm. exact Harm. }
    assert (Hr' : App.retryTimer (App.retryTick h st)
                  = Qmax 0 (App.retryTimer st - 1)).
    { unfold App.retryTick. rewrite Harm. reflexivity. }
    rewrite (IH _ Harm') by (rewrite Hr'; apply Q.le_max_l).
    rewrite Hr'. rewrite Nat2Z.inj_succ. unfold Z.succ. rewrite inject_Z_plus.
    change (inject_Z 1) with 1%Q.
    apply Qmax_dec_step. rewrite <- (Zle_Qle 0). lia.
Qed.

(** C5, as the code has it.  After a failure has been classified, only a
    RateLimit failure starts a countdown: the retry counter is set to the
    backoff in seconds (backoffMs / 1000 = 25) and an interval takes one off
    it every second until it is zero, where it stays.  For Safety, Network
    and Other failures the counter stays 0, no interval is started, and the
    error text is shown instead. *)
Theorem retry_countdown (JSON_parse : string -> option json)
        (base64Images : list string) (renderMode : AppMode)
        (currentProfile : App.GameProfile) (now : Z)
        (e : App.thrown) (c : App.Classification) (st : App.State) :
  App.classify JSON_parse e = Some c ->
  let st' := fst (App.triggerAnalysis JSON_parse base64Images renderMode currentProfile now
                                      (App.Failed e) st) in
  (App.category c = App.RateLimit ->
   (App.retryTimer st' == App.nextDelay c / 1000)%Q
   /\ (App.retryTimer st' == 25)%Q
   /\ App.error st' = None
   /\ exists h, App.retryIntervalRef (App.refs st') = Some h
                /\ App.isArmed h st' = true
                /\ (forall n, (App.retryTimer (App.retryTicks n h st')
                               == Qmax 0 (25 - inject_Z (Z.of_nat n)))%Q)
                /\ (forall n, (25 <= n)%nat ->
                              (App.retryTimer (App.retryTicks n h st') == 0)%Q))
  /\ (App.category c <> App.RateLimit ->
      App.retryTimer st' = 0%Q
      /\ App.error st' = Some (App.friendlyMessage c)
      /\ App.retryIntervalRef (App.refs st') = App.retryIntervalRef (App.refs st)).
Proof.
  intros Hc st'. subst st'. unfold App.triggerAnalysis, App.finishAnalysis.
  rewrite Hc. cbn [fst].
  set (st1 := App.beginAnalysis st).
  destruct (beginAnalysis_state st) as (_ & Hrt & _ & _ & _ & Href).
  fold st1 in Hrt, Href. clearbody st1.
  destruct (classify_flags JSON_parse e c Hc) as [Hdelay _].
  split.
  - intros Hcat. apply category_RateLimit in Hcat.
    set (h := App.nextHandle (App.browser st1)).
    destruct (onFinally_keeps (App.nextDelay c) (App.onClassified renderMode currentProfile now c st1) h)
      as (Kt & Ke & Kr & Ka).
    rewrite Kt, Ke, Kr.
    assert (Ht : App.retryTimer (App.onClassified renderMode currentProfile now c st1)
                 = (App.nextDelay c / 1000)%Q)
      by (unfold App.onClassified; rewrite Hcat; reflexivity).
    assert (Harm : App.isArmed h (App.onClassified renderMode currentProfile now c st1) = true).
    { unfold App.onClassified. rewrite Hcat. unfold App.isArmed. cbn.
      subst h. now rewrite Pos.eqb_refl. }
    specialize (Ka Harm).
    assert (H25 : (App.retryTimer (App.onFinally (App.nextDelay c)
                                     (App.onClassified renderMode currentProfile now c st1))
                   == 25)%Q).
    { rewrite Kt, Ht, (Hdelay Hcat). reflexivity. }
    rewrite Ht.
    refine (conj (Qeq_refl _) (conj _ (conj _ _))).
    + rewrite (Hdelay Hcat). reflexivity.
    + unfold App.onClassified. rewrite Hcat. reflexivity.
    + exists h. refine (conj _ (conj Ka (conj _ _))).
      * unfold App.onClassified. rewrite Hcat. reflexivity.
      * intros n. rewrite (retryTicks_counts n h _ Ka) by (rewrite H25; discriminate).
        rewrite H25. reflexivity.
      * intros n Hn.
        rewrite (retryTicks_counts n h _ Ka) by (rewrite H25; discriminate).
        rewrite H25. apply Q.max_l.
        assert (Hq : (25 <= inject_Z (Z.of_nat n))%Q).
        { change 25%Q with (inject_Z 25). rewrite <- Zle_Qle. lia. }
        lra.
  - intros Hcat.
    assert (Hrl : App.isRateLimit c = false).
    { destruct (App.isRateLimit c) eqn:E; [|reflexivity].
      exfalso. apply Hcat. now apply category_RateLimit. }
    destruct (onFinally_keeps (App.nextDelay c)
                (App.onClassified renderMode currentProfile now c st1) 1%positive)
      as (Kt & Ke & Kr & _).
    rewrite Kt, Ke, Kr. unfold App.onClassified. rewrite Hrl. cbn.
    refine (conj Hrt (conj eq_refl Href)).
Qed.

(** C5 on a quota failure in live mode: 25 seconds, 20 after five ticks,
    zero after 25 and after 40. *)
Lemma retry_countdown_quota :
  let st' := fst (App.triggerAnalysis JSON.parse ["a"; "b"]%string LIVE_VISION Samples.profile 0
                    (App.Failed (App.ThrownString "Error 429: RESOURCE_EXHAUSTED"))
                    Samples.live) in
  exists h, App.retryIntervalRef (App.refs st') = Some h
            /\ (App.retryTimer st' == 25)%Q
            /\ (App.retryTimer (App.retryTicks 5 h st') == 20)%Q
            /\ (App.retryTimer (App.retryTicks 25 h st') == 0)%Q
            /\ (App.retryTimer (App.retryTicks 40 h st') == 0)%Q.
Proof.
  intros st'. subst st'.
  destruct (classify_text JSON.parse
              (App.ThrownString "Error 429: RESOURCE_EXHAUSTED")
              (Some "Error 429: RESOURCE_EXHAUSTED"%string)
              "Error 429: RESOURCE_EXHAUSTED" eq_refl eq_refl)
    as (c & [Hc _] & Hcat & _).
  destruct (retry_countdown JSON.parse ["a"; "b"]%string LIVE_VISION Samples.profile 0
              (App.ThrownString "Error 429: RESOURCE_EXHAUSTED") c Samples.live Hc)
    as [Hrate _].
  destruct (Hrate Hcat) as (_ & H25 & _ & h & Href & _ & Hn & Hz).
  exists h. refine (conj Href (conj H25 (conj _ (conj _ _)))).
  - rewrite (Hn 5%nat). reflexivity.
  - apply Hz. lia.
  - apply Hz. lia.
Defined.

(** C5 as stated fails for a Network failure: the backoff is 8000 ms, but
    the retry counter stays 0 (it is neither 8000 nor 8) and no countdown
    interval is started; the error text is shown instead. *)
Lemma retry_countdown_not_for_network :
  let st0 := App.initial in
  let e := App.ThrownString "TypeError: fetch failed" in
  let st' := fst (App.triggerAnalysis JSON.parse ["a"; "b"]%string LIVE_VISION Samples.profile 0
                                      (App.Failed e) st0) in
  option_map (fun c => (App.category c, App.nextDelay c)) (App.classify JSON.parse e)
  = Some (App.Network, 8000%Q)
  /\ (App.retryTimer st' == 0)%Q
  /\ ~ (App.retryTimer st' == 8000)%Q
  /\ ~ (App.retryTimer st' == 8000 / 1000)%Q
  /\ App.retryIntervalRef (App.refs st') = None
  /\ App.activeTimers (App.browser st') = []
  /\ App.error st' = Some "Network uplink lost. Reconnecting..."%string.
Proof. vm_compute. repeat split; discriminate. Qed.

(** ** Stored profiles *)

Lemma find_app_first {A} (q : A -> bool) (l1 l2 : list A) :
  find q (l1 ++ l2) = match find q l1 with Some a => Some a | None => find q l2 end.
Proof.
  induction l1 as [|a l1 IH]; simpl; [reflexivity|].
  destruct (q a); [reflexivity|exact IH].
Qed.

Lemma find_none_forallb {A} (q : A -> bool) (l : list A) :
  forallb (fun a => negb (q a)) l = true -> find q l = None.
Proof.
  induction l as [|a l IH]; simpl; [reflexivity|].
  destruct (q a); simpl; [discriminate|exact IH].
Qed.

(** What [findIndex] finds: the first element that satisfies the test. *)
Lemma findIndex_spec {A} (p : A -> bool) (l : list A) :
  match Profiles.findIndex p l with
  | None => forallb (fun a => negb (p a)) l = true
  | Some i => exists pre a post,
      l = (pre ++ a :: post)%list /\ List.length pre = i /\ p a = true
      /\ forallb (fun a => negb (p a)) pre = true
  end.
Proof.
  induction l as [|a l IH]; simpl; [reflexivity|].
  destruct (p a) eqn:Ea.
  - exists [], a, l. repeat split; assumption.
  - destruct (Profiles.findIndex p l) as [i|].
    + destruct IH as (pre & b & post & -> & <- & Hb & Hpre).
      exists (a :: pre), b, post. simpl. rewrite Ea. repeat split; assumption.
    + simpl. exact IH.
Qed.

Lemma updateAt_middle {A} (f : A -> A) (pre : list A) (a : A) (post : list A) :
  Profiles.updateAt (List.length pre) f (pre ++ a :: post) = (pre ++ f a :: post)%list.
Proof. induction pre as [|b pre IH]; simpl; [reflexivity|now rewrite IH]. Qed.

(** [saveProfile] either replaces the first stored profile of that id, in
    place, or appends the profile when the id is new. *)
Lemma saveProfile_cases (profile : App.GameProfile)
      (stored : option (list App.GameProfile)) :
  let id := App.profile_id profile in
  let l := Storage.parsed stored in
  (forallb (fun p => negb (Profiles.hasId id p)) l = true
   /\ Profiles.saveProfile profile stored = Some (l ++ [profile])%list)
  \/ (exists pre old post,
         l = (pre ++ old :: post)%list
         /\ forallb (fun p => negb (Profiles.hasId id p)) pre = true
         /\ App.profile_id old = id
         /\ Profiles.saveProfile profile stored = Some (pre ++ profile :: post)%list).
Proof.
  intros id l. unfold Profiles.saveProfile. fold l. fold id.
  pose proof (findIndex_spec (Profiles.hasId id) l) as H.
  destruct (Profiles.findIndex (Profiles.hasId id) l) as [i|].
  - right. destruct H as (pre & old & post & Hl & <- & Hold & Hpre).
    exists pre, old, post. rewrite Hl, updateAt_middle.
    repeat split; try assumption. now apply String.eqb_eq.
  - left. split; [exact H|reflexivity].
Qed.

Lemma hasId_self (p : App.GameProfile) : Profiles.hasId (App.profile_id p) p = true.
Proof. apply String.eqb_refl. Qed.

Lemma hasId_other (id : string) (p : App.GameProfile) :
  App.profile_id p <> id -> Profiles.hasId id p = false.
Proof. intros H. now apply String.eqb_neq. Qed.

Lemma notIn_forallb (id : string) (l : list App.GameProfile) :
  forallb (fun p => negb (Profiles.hasId id p)) l = true ->
  ~ In id (map App.profile_id l).
Proof.
  induction l as [|a l IH]; simpl; [tauto|].
  intros H. apply andb_true_iff in H. destruct H as [Ha Hl].
  intros [E|E]; [|now apply IH].
  unfold Profiles.hasId in Ha. rewrite E, String.eqb_refl in Ha. discriminate.
Qed.

(** [saveProfile] is an insert-or-replace by id.  Afterwards a lookup by the
    saved id gives the saved profile, and lookups by any other id give what
    they gave before; the stored list grows by one exactly when the id was
    new; ids that were distinct stay distinct; and saving the same profile
    again changes nothing. *)
Theorem saveProfile_upsert (profile : App.GameProfile)
        (stored : option (list App.GameProfile)) :
  let id := App.profile_id profile in
  let l := Storage.parsed stored in
  let l' := Storage.parsed (Profiles.saveProfile profile stored) in
  find (Profiles.hasId id) l' = Some profile
  /\ (forall id', id' <> id -> find (Profiles.hasId id') l' = find (Profiles.hasId id') l)
  /\ List.length l'
     = (if existsb (Profiles.hasId id) l then List.length l else S (List.length l))
  /\ (NoDup (map App.profile_id l) -> NoDup (map App.profile_id l'))
  /\ Profiles.saveProfile profile (Profiles.saveProfile profile stored)
     = Profiles.saveProfile profile stored.
Proof.
  intros id l l'.
  destruct (saveProfile_cases profile stored)
    as [[Hnew Hs] | (pre & old & post & Hl & Hpre & Hold & Hs)].
  - fold id in Hnew. fold l in Hnew. subst l'. fold l in Hs. rewrite Hs.
    cbn [Storage.parsed].
    refine (conj _ (conj _ (conj _ (conj _ _)))).
    + rewrite find_app_first, (find_none_forallb _ _ Hnew). simpl.
      unfold id. now rewrite hasId_self.
    + intros id' Hne. rewrite find_app_first.
      destruct (find (Profiles.hasId id') l); [reflexivity|]. simpl.
      rewrite hasId_other; [reflexivity|]. unfold id in Hne. congruence.
    + rewrite length_app. simpl.
      replace (existsb (Profiles.hasId id) l) with false; [lia|].
      symmetry. clear Hs. induction l as [|a l0 IH]; simpl in *; [reflexivity|].
      apply andb_true_iff in Hnew. destruct Hnew as [Ha Hl0].
      apply negb_true_iff in Ha. rewrite Ha. now apply IH.
    + intros Hnd. rewrite map_app. simpl.
      apply NoDup_app; [exact Hnd|repeat constructor; simpl; tauto|].
      intros a Ha [E|[]]. subst a. now apply (notIn_forallb _ _ Hnew).
    + destruct (saveProfile_cases profile (Some (l ++ [profile])%list))
        as [[Hnew' _] | (pre & old & post & Hl & Hpre & Hold & Hs')].
      * cbn [Storage.parsed] in Hnew'. rewrite forallb_app in Hnew'.
        apply andb_true_iff in Hnew'. destruct Hnew' as [_ H]. simpl in H.
        rewrite hasId_self in H. discriminate.
      * rewrite Hs'. cbn [Storage.parsed] in Hl. f_equal.
        (* the profile just appended is the first of its id *)
        assert (Hp : pre = l /\ old = profile /\ post = []).
        { clear Hs Hs'. fold id in Hpre, Hold. revert pre Hl Hpre.
          induction l as [|a l0 IH]; intros pre Hl Hpre.
          - destruct pre as [|b pre]; simpl in Hl.
            + injection Hl as <- <-. repeat split.
            + injection Hl as _ Hl. destruct pre; discriminate.
          - simpl in Hnew. apply andb_true_iff in Hnew. destruct Hnew as [Ha Hl0].
            destruct pre as [|b pre]; simpl in Hl.
            + injection Hl as <- _. unfold Profiles.hasId in Ha.
              rewrite Hold, String.eqb_refl in Ha. discriminate.
            + injection Hl as <- Hl. simpl in Hpre.
              apply andb_true_iff in Hpre. destruct Hpre as [_ Hpre].
              destruct (IH Hl0 pre Hl Hpre) as (-> & -> & ->). repeat split. }
        destruct Hp as (-> & -> & ->). reflexivity.
  - fold id in Hpre, Hold. fold l in Hl. subst l'. rewrite Hs. cbn [Storage.parsed].
    refine (conj _ (conj _ (conj _ (conj _ _)))).
    + rewrite find_app_first, (find_none_forallb _ _ Hpre). simpl.
      unfold id. now rewrite hasId_self.
    + intros id' Hne. rewrite Hl, !find_app_first.
      destruct (find (Profiles.hasId id') pre); [reflexivity|]. simpl.
      rewrite !hasId_other; [reflexivity| |]; unfold id in *; congruence.
    + rewrite Hl, !length_app. simpl.
      replace (existsb (Profiles.hasId id) (pre ++ old :: post)) with true; [reflexivity|].
      symmetry. rewrite existsb_app. simpl.
      unfold Profiles.hasId at 2. rewrite Hold, String.eqb_refl.
      now rewrite orb_true_r.
    + rewrite Hl, !map_app. simpl. now rewrite Hold.
    + destruct (saveProfile_cases profile (Some (pre ++ profile :: post)%list))
        as [[Hnew' _] | (pre' & old' & post' & Hl' & Hpre' & Hold' & Hs')].
      * cbn [Storage.parsed] in Hnew'. rewrite forallb_app in Hnew'.
        apply andb_true_iff in Hnew'. destruct Hnew' as [_ H]. simpl in H.
        rewrite hasId_self in H. discriminate.
      * rewrite Hs'. cbn [Storage.parsed] in Hl'. f_equal.
        fold id in Hpre', Hold'.
        assert (Hp : pre' = pre /\ post' = post).
        { clear Hs Hs' Hl. revert pre' Hl' Hpre'.
          induction pre as [|a pre0 IH]; intros pre' Hl' Hpre'.
          - destruct pre' as [|b pre']; simpl in Hl'.
            + injection Hl' as _ <-. split; reflexivity.
            + injection Hl' as <- _. simpl in Hpre'. unfold id in Hpre'.
              rewrite hasId_self in Hpre'. discriminate.
          - simpl in Hpre. apply andb_true_iff in Hpre. destruct Hpre as [Ha Hpre0].
            destruct pre' as [|b pre']; simpl in Hl'.
            + injection Hl' as <- _. unfold Profiles.hasId in Ha.
              rewrite Hold', String.eqb_refl in Ha. discriminate.
            + injection Hl' as <- Hl'. simpl in Hpre'.
              apply andb_true_iff in Hpre'. destruct Hpre' as [_ Hpre'].
              destruct (IH Hpre0 pre' Hl' Hpre') as (-> & ->). split; reflexivity. }
        destruct Hp as (-> & ->). reflexivity.
Qed.

Lemma isSystemId_spec (id : string) :
  Profiles.isSystemId id = true <-> In id (map App.profile_id Profiles.SYSTEM_PROFILES).
Proof.
  unfold Profiles.isSystemId. rewrite existsb_exists. split.
  - intros (p & Hin & Hp). apply String.eqb_eq in Hp. subst id. now apply in_map.
  - intros Hin. apply in_map_iff in Hin. destruct Hin as (p & <- & Hin).
    exists p. split; [exact Hin|apply hasId_self].
Qed.

Lemma find_user_filtered (id : string) (l : list App.GameProfile) :
  Profiles.isSystemId id = true ->
  find (Profiles.hasId id)
       (filter (fun up => negb (Profiles.isSystemId (App.profile_id up))) l) = None.
Proof.
  intros Hsys. induction l as [|a l IH]; simpl; [reflexivity|].
  destruct (Profiles.isSystemId (App.profile_id a)) eqn:Ea; simpl; [exact IH|].
  destruct (Profiles.hasId id a) eqn:Eh; [|exact IH].
  apply String.eqb_eq in Eh. congruence.
Qed.

(** [getProfiles]: the ten system profiles come first, whatever is stored;
    a stored profile is listed exactly when its id is not a system id, so it
    never shadows a system profile; the list is never empty, the profile
    [App] selects on load is always the system profile "universal_auto", and
    an analysis always finds a profile to run with. *)
Theorem getProfiles_system_first (stored : option (list App.GameProfile)) :
  let listed := Profiles.getProfiles stored in
  firstn 10 listed = Profiles.SYSTEM_PROFILES
  /\ (forall p, In p listed <->
                In p Profiles.SYSTEM_PROFILES
                \/ (In p (Storage.parsed stored)
                    /\ Profiles.isSystemId (App.profile_id p) = false))
  /\ (forall id, Profiles.isSystemId id = true ->
                 find (Profiles.hasId id) listed
                 = find (Profiles.hasId id) Profiles.SYSTEM_PROFILES
                 /\ find (Profiles.hasId id) listed <> None)
  /\ Profiles.defaultProfile listed = hd_error Profiles.SYSTEM_PROFILES
  /\ (forall selectedProfileId,
         Profiles.currentProfile listed selectedProfileId <> None).
Proof.
  intros listed. subst listed. unfold Profiles.getProfiles.
  refine (conj eq_refl (conj _ (conj _ (conj eq_refl _)))).
  - intros p. rewrite in_app_iff, filter_In, negb_true_iff. tauto.
  - intros id Hsys. rewrite find_app_first.
    assert (Hfound : find (Profiles.hasId id) Profiles.SYSTEM_PROFILES <> None).
    { apply isSystemId_spec in Hsys. apply in_map_iff in Hsys.
      destruct Hsys as (p & <- & Hin).
      destruct (find (Profiles.hasId (App.profile_id p)) Profiles.SYSTEM_PROFILES) eqn:E;
        [discriminate|].
      exfalso. apply (find_none _ _ E) in Hin. rewrite hasId_self in Hin. discriminate. }
    destruct (find (Profiles.hasId id) Profiles.SYSTEM_PROFILES) eqn:E;
      [split; [reflexivity|discriminate]|contradiction].
  - intros sel. unfold Profiles.currentProfile. rewrite find_app_first.
    destruct (find (Profiles.hasId sel) Profiles.SYSTEM_PROFILES); [discriminate|].
    destruct (find _ _); discriminate.
Qed.

(** A profile saved under the id of a system profile is stored but never
    listed: [getProfiles] gives the same list as before the save. *)
Theorem saveProfile_system_id_hidden (profile : App.GameProfile)
        (stored : option (list App.GameProfile)) :
  Profiles.isSystemId (App.profile_id profile) = true ->
  Profiles.getProfiles (Profiles.saveProfile profile stored)
  = Profiles.getProfiles stored
  /\ find (Profiles.hasId (App.profile_id profile))
          (Storage.parsed (Profiles.saveProfile profile stored)) = Some profile.
Proof.
  intros Hsys. split.
  2:{ destruct (saveProfile_cases profile stored)
        as [[Hnew Hs] | (pre & old & post & Hl & Hpre & Hold & Hs)]; rewrite Hs;
        cbn [Storage.parsed]; rewrite find_app_first.
      - rewrite (find_none_forallb _ _ Hnew). simpl. now rewrite hasId_self.
      - rewrite (find_none_forallb _ _ Hpre). simpl. now rewrite hasId_self. }
  unfold Profiles.getProfiles. f_equal.
  destruct (saveProfile_cases profile stored)
    as [[_ Hs] | (pre & old & post & Hl & _ & Hold & Hs)]; rewrite Hs;
    cbn [Storage.parsed].
  - rewrite filter_app. simpl. rewrite Hsys. simpl. apply app_nil_r.
  - rewrite Hl, !filter_app. simpl. rewrite Hold, Hsys. reflexivity.
Qed.

(** The auto-detect profile with learned notes, saved under its system id:
    the list the application shows is unchanged. *)
Lemma saveProfile_system_id_hidden_universal :
  let learned := {| App.profile_id := "universal_auto";
                    App.profile_name := "UNIVERSAL";
                    App.notes := "Boss attacks after red flash" |} in
  Profiles.getProfiles (Profiles.saveProfile learned None) = Profiles.getProfiles None
  /\ Profiles.saveProfile learned None = Some [learned].
Proof.
  intros learned.
  destruct (saveProfile_system_id_hidden learned None eq_refl) as [H _].
  split; [exact H|reflexivity].
Defined.

Lemma filter_filter_same {A} (f : A -> bool) (l : list A) :
  filter f (filter f l) = filter f l.
Proof.
  induction l as [|a l IH]; simpl; [reflexivity|].
  destruct (f a) eqn:E; simpl; rewrite ?E, IH; reflexivity.
Qed.

Lemma filter_comm {A} (f g : A -> bool) (l : list A) :
  filter f (filter g l) = filter g (filter f l).
Proof.
  induction l as [|a l IH]; simpl; [reflexivity|].
  destruct (f a) eqn:Ef, (g a) eqn:Eg; simpl; rewrite ?Ef, ?Eg, IH; reflexivity.
Qed.

(** [deleteProfile] protects the system profiles (deleting one changes
    nothing).  For any other id, the listed profiles afterwards are those
    listed before whose id differs, so a lookup by the deleted id finds
    nothing; and deleting twice is deleting once. *)
Theorem deleteProfile_removes (id : string) (stored : option (list App.GameProfile)) :
  (Profiles.isSystemId id = true -> Profiles.deleteProfile id stored = stored)
  /\ (Profiles.isSystemId id = false ->
      Profiles.getProfiles (Profiles.deleteProfile id stored)
      = filter (fun p => negb (Profiles.hasId id p)) (Profiles.getProfiles stored)
      /\ find (Profiles.hasId id) (Profiles.getProfiles (Profiles.deleteProfile id stored))
         = None
      /\ (forall p, In p (Profiles.getProfiles (Profiles.deleteProfile id stored)) <->
                    In p (Profiles.getProfiles stored) /\ App.profile_id p <> id))
  /\ Profiles.deleteProfile id (Profiles.deleteProfile id stored)
     = Profiles.deleteProfile id stored.
Proof.
  refine (conj _ (conj _ _)).
  - intros Hsys. unfold Profiles.deleteProfile. now rewrite Hsys.
  - intros Hsys.
    assert (Hsysfix : filter (fun p => negb (Profiles.hasId id p)) Profiles.SYSTEM_PROFILES
                      = Profiles.SYSTEM_PROFILES).
    { apply forallb_filter_id. apply forallb_forall. intros p Hin.
      apply negb_true_iff. destruct (Profiles.hasId id p) eqn:E; [|reflexivity].
      apply String.eqb_eq in E. exfalso.
      assert (Profiles.isSystemId id = true); [|congruence].
      apply isSystemId_spec. rewrite <- E. now apply in_map. }
    assert (Hlist : Profiles.getProfiles (Profiles.deleteProfile id stored)
                    = filter (fun p => negb (Profiles.hasId id p))
                             (Profiles.getProfiles stored)).
    { unfold Profiles.getProfiles, Profiles.deleteProfile. rewrite Hsys.
      rewrite filter_app, Hsysfix. f_equal.
      destruct stored as [l|]; cbn [Storage.parsed]; [|reflexivity].
      apply filter_comm. }
    refine (conj Hlist (conj _ _)).
    + rewrite Hlist.
      destruct (find (Profiles.hasId id) (filter _ (Profiles.getProfiles stored))) eqn:E;
        [|reflexivity].
      apply find_some in E. destruct E as [Hin Hp].
      apply filter_In in Hin. destruct Hin as [_ Hn]. rewrite Hp in Hn. discriminate.
    + intros p. rewrite Hlist, filter_In, negb_true_iff.
      unfold Profiles.hasId. rewrite String.eqb_neq. tauto.
  - unfold Profiles.deleteProfile.
    destruct (Profiles.isSystemId id) eqn:Hsys; rewrite ?Hsys; [reflexivity|].
    destruct stored as [l|]; [|reflexivity].
    now rewrite filter_filter_same.
Qed.

(** Saving a profile under a fresh, non-system id and deleting that id again
    gives back the list of profiles there was. *)
Theorem save_then_delete_profile (profile : App.GameProfile)
        (stored : option (list App.GameProfile)) :
  Profiles.isSystemId (App.profile_id profile) = false ->
  find (Profiles.hasId (App.profile_id profile)) (Storage.parsed stored) = None ->
  Profiles.getProfiles
    (Profiles.deleteProfile (App.profile_id profile)
                            (Profiles.saveProfile profile stored))
  = Profiles.getProfiles stored
  /\ In profile (Profiles.getProfiles (Profiles.saveProfile profile stored)).
Proof.
  intros Hsys Hnew.
  assert (Hnone : forallb (fun p => negb (Profiles.hasId (App.profile_id profile) p))
                          (Storage.parsed stored) = true).
  { apply forallb_forall. intros p Hin. apply negb_true_iff.
    apply (find_none _ _ Hnew p Hin). }
  assert (Hs : Profiles.saveProfile profile stored
               = Some (Storage.parsed stored ++ [profile])%list).
  { destruct (saveProfile_cases profile stored)
      as [[_ Hs] | (pre & old & post & Hl & _ & Hold & _)]; [exact Hs|].
    exfalso. rewrite Hl, forallb_app in Hnone. apply andb_true_iff in Hnone.
    destruct Hnone as [_ H]. simpl in H. unfold Profiles.hasId in H.
    rewrite Hold, String.eqb_refl in H. discriminate. }
  split.
  - rewrite Hs. unfold Profiles.deleteProfile. rewrite Hsys.
    unfold Profiles.getProfiles. cbn [Storage.parsed]. f_equal.
    rewrite filter_app. simpl. rewrite hasId_self. simpl. rewrite app_nil_r.
    f_equal. now apply forallb_filter_id.
  - rewrite Hs. unfold Profiles.getProfiles. cbn [Storage.parsed].
    apply in_or_app. right. apply filter_In. split.
    + apply in_or_app. right. now left.
    + now rewrite Hsys.
Qed.

(** A custom profile saved into an empty store and deleted again. *)
Lemma save_then_delete_profile_custom :
  let custom := {| App.profile_id := "1700000000000"; App.profile_name := "Chess";
                   App.notes := "Control the centre." |} in
  Profiles.getProfiles
    (Profiles.deleteProfile "1700000000000" (Profiles.saveProfile custom None))
  = Profiles.SYSTEM_PROFILES
  /\ List.length (Profiles.getProfiles (Profiles.saveProfile custom None)) = 11%nat.
Proof.
  intros custom.
  destruct (save_then_delete_profile custom None eq_refl eq_refl) as [H _].
  split; [exact H|reflexivity].
Defined.

(** ** Feedback on training logs *)

Lemma updateLogFeedback_cases (logId : Z)
      (feedback : option Feedback.FeedbackDetails)
      (stored : option (list Feedback.RatedLog)) :
  (forallb (fun a => negb (log_id (Feedback.entry a) =? logId)) (Storage.parsed stored)
   = true
   /\ Feedback.updateLogFeedback logId feedback stored = stored)
  \/ exists pre old post,
      Storage.parsed stored = (pre ++ old :: post)%list
      /\ forallb (fun a => negb (log_id (Feedback.entry a) =? logId)) pre = true
      /\ log_id (Feedback.entry old) = logId
      /\ Feedback.updateLogFeedback logId feedback stored
         = Some (pre ++ {| Feedback.entry := Feedback.entry old;
                           Feedback.userFeedback := feedback |} :: post)%list.
Proof.
  unfold Feedback.updateLogFeedback.
  destruct stored as [l|]; cbn [Storage.parsed]; [|left; now split].
  pose proof (findIndex_spec (fun l => log_id (Feedback.entry l) =? logId) l) as H.
  destruct (Profiles.findIndex _ l) as [i|]; [right|left; now split].
  destruct H as (pre & old & post & -> & <- & Hold & Hpre).
  exists pre, old, post. rewrite updateAt_middle.
  repeat split; try assumption. now apply Z.eqb_eq.
Qed.

Lemma forallb_other_ids (logId : Z) (pre : list Feedback.RatedLog) :
  forallb (fun a => negb (log_id (Feedback.entry a) =? logId)) pre = true ->
  forall e, In e pre -> log_id (Feedback.entry e) <> logId.
Proof.
  intros Hp e Hin. rewrite forallb_forall in Hp. specialize (Hp e Hin).
  now apply negb_true_iff, Z.eqb_neq in Hp.
Qed.

(** The first log of a given id splits a list in one way only. *)
Lemma first_match_unique (logId : Z) (pre pre' post post' : list Feedback.RatedLog)
      (old old' : Feedback.RatedLog) :
  (pre ++ old :: post = pre' ++ old' :: post')%list ->
  (forall e, In e pre -> log_id (Feedback.entry e) <> logId) ->
  (forall e, In e pre' -> log_id (Feedback.entry e) <> logId) ->
  log_id (Feedback.entry old) = logId ->
  log_id (Feedback.entry old') = logId ->
  pre' = pre /\ old' = old /\ post' = post.
Proof.
  revert pre'. induction pre as [|a pre0 IH]; intros pre' Hl Hpre Hpre' Hold Hold'.
  - destruct pre' as [|b pre']; simpl in Hl.
    + injection Hl as E1 E2. subst. repeat split.
    + injection Hl as E1 E2. subst b. exfalso.
      apply (Hpre' old); [now left|exact Hold].
  - destruct pre' as [|b pre']; simpl in Hl.
    + injection Hl as E1 E2. subst a. exfalso.
      apply (Hpre old'); [now left|exact Hold'].
    + injection Hl as E1 E2. subst b.
      destruct (IH pre' E2 (fun e He => Hpre e (or_intror He))
                   (fun e He => Hpre' e (or_intror He)) Hold Hold') as (-> & -> & ->).
      repeat split.
Qed.

(** [updateLogFeedback] rewrites the feedback of the first stored log with
    the given id and of no other: the logs' entries and their order stay as
    they are, so the number of logs never changes; without such a log, or
    with nothing stored, the item is left as it is. *)
Theorem updateLogFeedback_first_match (logId : Z)
        (feedback : option Feedback.FeedbackDetails)
        (stored : option (list Feedback.RatedLog)) :
  let logs := Storage.parsed stored in
  let stored' := Feedback.updateLogFeedback logId feedback stored in
  let logs' := Storage.parsed stored' in
  map Feedback.entry logs' = map Feedback.entry logs
  /\ Feedback.total (Feedback.getLogStats stored')
     = Feedback.total (Feedback.getLogStats stored)
  /\ ((forall l, In l logs -> log_id (Feedback.entry l) <> logId) -> stored' = stored)
  /\ (forall l, In l logs -> log_id (Feedback.entry l) = logId ->
      exists pre old post,
        logs = (pre ++ old :: post)%list
        /\ (forall e, In e pre -> log_id (Feedback.entry e) <> logId)
        /\ log_id (Feedback.entry old) = logId
        /\ logs' = (pre ++ {| Feedback.entry := Feedback.entry old;
                              Feedback.userFeedback := feedback |} :: post)%list).
Proof.
  intros logs stored' logs'. subst logs' stored' logs.
  destruct (updateLogFeedback_cases logId feedback stored)
    as [[Hnone Hsame] | (pre & old & post & Hl & Hp & Hold & Hs)].
  - rewrite Hsame.
    refine (conj eq_refl (conj eq_refl (conj (fun _ => eq_refl) _))).
    intros l Hin Hid. exfalso. apply (forallb_other_ids _ _ Hnone l Hin Hid).
  - rewrite Hs. cbn [Storage.parsed].
    refine (conj _ (conj _ (conj _ _))).
    + rewrite Hl, !map_app. reflexivity.
    + unfold Feedback.getLogStats. cbn [Storage.parsed Feedback.total].
      rewrite Hl, !length_app. reflexivity.
    + intros Hno. exfalso. apply (Hno old); [|exact Hold].
      rewrite Hl. apply in_or_app. right. now left.
    + intros _ _ _. exists pre, old, post.
      refine (conj Hl (conj (forallb_other_ids _ _ Hp) (conj Hold eq_refl))).
Qed.

Lemma filter_length_split {A} (f g : A -> bool) (l : list A) :
  (forall a, f a = true -> g a = false) ->
  (List.length (filter f l) + List.length (filter g l)
   + List.length (filter (fun a => negb (f a || g a)) l) = List.length l)%nat.
Proof.
  intros Hfg. induction l as [|a l IH]; simpl; [reflexivity|].
  destruct (f a) eqn:Ef.
  - rewrite (Hfg a Ef). simpl. lia.
  - destruct (g a); simpl; lia.
Qed.

(** [getLogStats]: every log counts as accurate, as wrong, or as not rated,
    and as one of them only, so accurate + errors never exceeds the total.
    Rating a log that was not rated (the first one of its id) moves exactly
    one log into the group of its verdict. *)
Theorem getLogStats_partition (stored : option (list Feedback.RatedLog)) :
  let stats := Feedback.getLogStats stored in
  let notRated :=
      filter (fun l => match Feedback.userFeedback l with None => true | Some _ => false end)
             (Storage.parsed stored) in
  (Feedback.accurate stats + Feedback.errors stats + List.length notRated
   = Feedback.total stats)%nat
  /\ (Feedback.accurate stats + Feedback.errors stats <= Feedback.total stats)%nat
  /\ (forall logId verdict pre old post,
         Storage.parsed stored = (pre ++ old :: post)%list ->
         (forall e, In e pre -> log_id (Feedback.entry e) <> logId) ->
         log_id (Feedback.entry old) = logId ->
         Feedback.userFeedback old = None ->
         let stats' := Feedback.getLogStats
                         (Feedback.updateLogFeedback logId (Some verdict) stored) in
         Feedback.total stats' = Feedback.total stats
         /\ Feedback.accurate stats'
            = (Feedback.accurate stats
               + if Feedback.isAccurate verdict then 1 else 0)%nat
         /\ Feedback.errors stats'
            = (Feedback.errors stats
               + if Feedback.isAccurate verdict then 0 else 1)%nat).
Proof.
  intros stats notRated.
  assert (Hsum : (Feedback.accurate stats + Feedback.errors stats + List.length notRated
                  = Feedback.total stats)%nat).
  { subst stats notRated. unfold Feedback.getLogStats.
    cbn [Feedback.accurate Feedback.errors Feedback.total].
    rewrite <- (filter_length_split Feedback.ratedAccurate Feedback.ratedWrong
                                    (Storage.parsed stored)).
    - f_equal. f_equal. apply filter_ext. intros l.
      unfold Feedback.ratedAccurate, Feedback.ratedWrong.
      destruct (Feedback.userFeedback l) as [f|]; [|reflexivity].
      destruct (Feedback.isAccurate f); reflexivity.
    - intros l. unfold Feedback.ratedAccurate, Feedback.ratedWrong.
      destruct (Feedback.userFeedback l) as [f|]; [|discriminate].
      intros ->. reflexivity. }
  refine (conj Hsum (conj _ _)); [lia|].
  intros logId verdict pre old post Hl Hpre Hold Hnone stats'.
  destruct (updateLogFeedback_cases logId (Some verdict) stored)
    as [[Hno _] | (pre' & old' & post' & Hl' & Hpre' & Hold' & Hs)].
  { exfalso. rewrite Hl, forallb_app in Hno. apply andb_true_iff in Hno.
    destruct Hno as [_ Hno]. simpl in Hno. rewrite Hold, Z.eqb_refl in Hno.
    discriminate. }
  rewrite Hl in Hl'.
  destruct (first_match_unique logId pre pre' post post' old old' Hl' Hpre
              (forallb_other_ids _ _ Hpre') Hold Hold') as (-> & -> & ->).
  subst stats' stats. unfold Feedback.getLogStats.
  cbn [Feedback.accurate Feedback.errors Feedback.total].
  rewrite Hs. cbn [Storage.parsed]. rewrite Hl, !filter_app, !length_app. cbn [filter].
  assert (Ha : Feedback.ratedAccurate old = false)
    by (unfold Feedback.ratedAccurate; now rewrite Hnone).
  assert (Hw : Feedback.ratedWrong old = false)
    by (unfold Feedback.ratedWrong; now rewrite Hnone).
  rewrite Ha, Hw.
  unfold Feedback.ratedAccurate at 2, Feedback.ratedWrong at 2.
  cbn [Feedback.userFeedback].
  destruct (Feedback.isAccurate verdict); cbn [negb List.length]; repeat split; lia.
Qed.

(** ** The error log counter *)

Lemma saveErrorLog_count (error : ErrorLog) (ls : Storage.localStorage) :
  Storage.getSystemErrorCount (Storage.saveErrorLog error ls)
  = if (50 <? Z.of_nat (Storage.getSystemErrorCount ls))
    then Storage.getSystemErrorCount ls
    else S (Storage.getSystemErrorCount ls).
Proof.
  unfold Storage.getSystemErrorCount, Storage.saveErrorLog. cbn [Storage.nexus_system_errors Storage.parsed].
  set (l := Storage.parsed (Storage.nexus_system_errors ls)). clearbody l.
  destruct (Z.ltb_spec 50 (Z.of_nat (List.length l))) as [H|H].
  - apply length_shift_push. intros ->. simpl in H. lia.
  - apply length_push.
Qed.

(** The error counter shown in the side bar: clearing puts it to 0, every
    saved error adds one until 51 records are stored, and from then on it
    stays at 51 (the store keeps the last 51 records, not 50); saving a
    training log does not move it. *)
Theorem error_count_saturates (errors : list ErrorLog) (ls : Storage.localStorage) :
  let saveAll := fold_left (fun s e => Storage.saveErrorLog e s) errors in
  Storage.getSystemErrorCount (Storage.clearErrorLogs ls) = 0%nat
  /\ Storage.getSystemErrorCount (saveAll (Storage.clearErrorLogs ls))
     = Nat.min (List.length errors) 51
  /\ ((Storage.getSystemErrorCount ls <= 51)%nat ->
      Storage.getSystemErrorCount (saveAll ls)
      = Nat.min (Storage.getSystemErrorCount ls + List.length errors) 51)
  /\ (forall log, Storage.getSystemErrorCount (Storage.saveLog log ls)
                  = Storage.getSystemErrorCount ls)
  /\ Storage.nexus_training_logs (Storage.clearErrorLogs ls)
     = Storage.nexus_training_logs ls.
Proof.
  intros saveAll.
  assert (Hgen : forall s, (Storage.getSystemErrorCount s <= 51)%nat ->
                 Storage.getSystemErrorCount (saveAll s)
                 = Nat.min (Storage.getSystemErrorCount s + List.length errors) 51).
  { subst saveAll. induction errors as [|e errors IH]; intros s Hs;
      cbn [fold_left List.length].
    - lia.
    - rewrite IH; rewrite saveErrorLog_count;
        destruct (Z.ltb_spec 50 (Z.of_nat (Storage.getSystemErrorCount s))); lia. }
  refine (conj eq_refl (conj _ (conj (Hgen ls) (conj (fun _ => eq_refl) eq_refl)))).
  rewrite Hgen; [reflexivity|]. cbn. lia.
Qed.

(** ** The swipe animation frame by frame *)






Lemma locked_timeline_swipe (sf : Q) (step : MacroStep) (c : Point) (st : App.State) :
  App.isSwipeKind (type step) = true ->
  coordinates step = Some c ->
  let locked := App.lockPhase step (App.travelPhase sf step st) in
  let at_c := fun precise =>
    {| App.cur_x := x c; App.cur_y := y c; App.isDown := false;
       App.cur_type := "MOVE"; App.isVisible := true; App.precisionMode := precise |} in
  App.timeline (App.browser locked)
  = (App.timeline (App.browser st)
       ++ [App.Render (at_c false); App.Sleep (200 / sf);
           App.Render (at_c true); App.Sleep 50])%list
  /\ App.cursorState locked = at_c true.
Proof.
  intros Hk Hc. unfold App.lockPhase, App.travelPhase. rewrite Hc.
  destruct (type step); try discriminate; cbn -[Qdiv];
    rewrite <- !app_assoc; split; reflexivity.
Qed.




(** The frames of a swipe are all pressed; the release is rendered exactly
    when a frame reaches the duration, and the promise settles only then. *)
Lemma animateSwipe_held (step : MacroStep) (c e : Point) (duration : Q)
      (frames : list Q) (st : App.State) :
  coordinates step = Some c ->
  endCoordinates step = Some e ->
  let r := App.animateSwipe step duration frames st in
  exists moving ending,
    App.timeline (App.browser (fst r))
    = (App.timeline (App.browser st) ++ moving ++ ending)%list
    /\ Forall Trace.held moving
    /\ (List.length moving <= List.length frames)%nat
    /\ if App.framesReachEnd duration frames
       then snd r = JS.Resolved
            /\ (exists pose, ending = [App.Render pose] /\ App.isDown pose = false)
            /\ App.isDown (App.cursorState (fst r)) = false
       else snd r = JS.Pending /\ ending = []
            /\ (App.isDown (App.cursorState st) = true ->
                App.isDown (App.cursorState (fst r)) = true).
Proof.
  intros Hc He. revert st.
  induction frames as [|elapsed frames IH]; intros st.
  - exists [], []. cbn. rewrite app_nil_r.
    repeat split; try constructor; auto.
  - cbn [App.animateSwipe App.framesReachEnd existsb]. rewrite Hc, He.
    set (progress := Qmin (elapsed / duration) 1).
    set (pose := {| App.cur_x := (x c + (x e - x c) * App.ease (type step) progress)%Q;
                    App.cur_y := (y c + (y e - y c) * App.ease (type step) progress)%Q;
                    App.isDown := true; App.cur_type := typeName (type step);
                    App.isVisible := true; App.precisionMode := false |}).
    set (st1 := App.setCursorState (fun _ => pose) st).
    assert (Ht1 : App.timeline (App.browser st1)
                  = (App.timeline (App.browser st) ++ [App.Render pose])%list)
      by reflexivity.
    destruct (JS.Qlt_bool progress 1); cbn [negb orb].
    + destruct (IH st1) as (moving & ending & Htl & Hheld & Hlen & Hsnd).
      exists (App.Render pose :: moving), ending.
      rewrite Htl, Ht1, <- app_assoc. cbn [app].
      refine (conj eq_refl (conj _ (conj _ _))).
      * constructor; [reflexivity|exact Hheld].
      * cbn [List.length]. lia.
      * fold (App.framesReachEnd duration frames).
        destruct (App.framesReachEnd duration frames); [exact Hsnd|].
        destruct Hsnd as (Hp & Hend & Hdown).
        refine (conj Hp (conj Hend _)). intros _. apply Hdown. reflexivity.
    + exists [App.Render pose],
             [App.Render {| App.cur_x := App.cur_x pose; App.cur_y := App.cur_y pose;
                            App.isDown := false; App.cur_type := App.cur_type pose;
                            App.isVisible := App.isVisible pose;
                            App.precisionMode := App.precisionMode pose |}].
      cbn [fst snd].
      refine (conj _ (conj _ (conj _ (conj eq_refl (conj _ eq_refl))))).
      * cbn. rewrite <- app_assoc. reflexivity.
      * constructor; [reflexivity|constructor].
      * cbn [List.length]. lia.
      * eexists. split; reflexivity.
Qed.

(** A swipe holds the pointer down until it settles.  For a SWIPE, DRAG or
    HUMAN_SWIPE step with both points, everything shown after the target
    lock is a pressed pose, the first one at the start point; nothing is
    slept.  If some frame reaches the duration, one released pose follows and
    the step resolves with the pointer up; if none does, the step never
    settles and the pointer stays down. *)
Theorem swipe_holds_until_settled (sf : Q) (closureMode : AppMode) (frames : list Q)
        (step : MacroStep) (c e : Point) (st : App.State) :
  App.isSwipeKind (type step) = true ->
  coordinates step = Some c ->
  endCoordinates step = Some e ->
  App.isAutoPilot st = true \/ closureMode = UPLOAD ->
  let locked := App.lockPhase step (App.travelPhase sf step (App.beginStep st)) in
  let r := App.animateSingleStep sf closureMode frames (Some step) st in
  exists press moving ending,
    App.timeline (App.browser (fst r))
    = (App.timeline (App.browser locked) ++ App.Render press :: moving ++ ending)%list
    /\ App.isDown press = true
    /\ App.cur_x press = x c /\ App.cur_y press = y c
    /\ Forall Trace.held moving
    /\ if App.framesReachEnd (App.swipeDuration sf step) frames
       then snd r = JS.Resolved
            /\ (exists pose, ending = [App.Render pose] /\ App.isDown pose = false)
            /\ App.isDown (App.cursorState (fst r)) = false
       else snd r = JS.Pending /\ ending = []
            /\ App.isDown (App.cursorState (fst r)) = true.
Proof.
  intros Hk Hc He Hrun locked r.
  subst r. rewrite (animateSingleStep_swipe _ _ _ _ c e _ Hk Hc He Hrun).
  destruct (locked_timeline_swipe sf step c (App.beginStep st) Hk Hc) as [_ Hcur].
  cbv zeta in Hcur. fold locked in Hcur |- *.
  unfold App.swipeAction.
  set (pressedSt := App.setCursorState _ locked).
  destruct (animateSwipe_held step c e (App.swipeDuration sf step) frames pressedSt
              Hc He) as (moving & ending & Htl & Hheld & _ & Hsnd).
  cbv zeta in Htl, Hsnd.
  exists (App.cursorState pressedSt), moving, ending.
  refine (conj _ (conj eq_refl (conj _ (conj _ (conj Hheld _))))).
  - rewrite Htl. subst pressedSt. cbn. rewrite <- app_assoc. reflexivity.
  - subst pressedSt. cbn. rewrite Hcur. reflexivity.
  - subst pressedSt. cbn. rewrite Hcur. reflexivity.
  - destruct (App.framesReachEnd (App.swipeDuration sf step) frames); [exact Hsnd|].
    destruct Hsnd as (Hp & Hend & Hdown).
    refine (conj Hp (conj Hend _)). apply Hdown. reflexivity.
Qed.

Lemma swipe_holds_until_settled_stalled :
  let step := Samples.step SWIPE (Samples.at_ 100 100) (Samples.at_ 900 100) 600 in
  let r := App.animateSingleStep 1 LIVE_VISION [0; 16; 300]%Q (Some step)
                                 Samples.live in
  snd r = JS.Pending /\ App.isDown (App.cursorState (fst r)) = true.
Proof.
  intros step r.
  destruct (swipe_holds_until_settled 1 LIVE_VISION [0; 16; 300]%Q step
              {| x := 100; y := 100 |} {| x := 900; y := 100 |} Samples.live
              eq_refl eq_refl eq_refl (or_introl eq_refl))
    as (press & moving & ending & _ & _ & _ & _ & _ & Hsnd).
  cbv zeta in Hsnd.
  change (App.framesReachEnd (App.swipeDuration 1 step) [0; 16; 300]%Q)
    with false in Hsnd.
  destruct Hsnd as (Hp & _ & Hdown). split; [exact Hp|exact Hdown].
Defined.

(** ** The playback loop and the buttons *)

(** The loop never reaches the preview: whatever it returns, the world
    is the one it started in. *)
Lemma whilePlaying_world {W : Type} (sequence : list MacroStep)
      (onPreviewStep : option (MacroStep -> W -> W * JS.settled))
      (interrupted : Z -> bool) (budget : nat) (playingRef : bool)
      (v v' : MacroView.State) (w w' : W) :
  MacroView.whilePlaying sequence onPreviewStep budget interrupted playingRef v w
  = Some (v', w') ->
  w' = w.
Proof.
  destruct budget as [|budget]; [discriminate|].
  destruct playingRef.
  - rewrite whilePlaying_pauses. congruence.
  - cbn. congruence.
Qed.

(** The playback loop pauses at once.  It reads the index through a state
    updater, which React runs only when it renders the component again,
    so it sees -1, finds no step there and switches playback off.  On a
    playing controller with a sequence on show the playback effect
    therefore returns in its first iteration with the index where it was
    and playback paused, without having called the preview callback (so
    also when the callback's promise would never settle); with no step in
    the sequence it returns without touching anything.  When a new
    sequence arrives the controller ends paused at step 0, or at -1 if
    the sequence has no step.  One iteration is the least the loop needs:
    with none it has not returned. *)
Theorem playLoop_pauses_at_once {W : Type} (sequence : list MacroStep)
        (onPreviewStep : option (MacroStep -> W -> W * JS.settled))
        (budget : nat) (interrupted : Z -> bool) (v : MacroView.State) (w : W) :
  MacroView.playbackEffect sequence onPreviewStep (S budget) interrupted v w
  = Some (if (MacroView.isLocallyPlaying v && MacroView.controlsRendered sequence)%bool
          then {| MacroView.currentStepIndex := MacroView.currentStepIndex v;
                  MacroView.isLocallyPlaying := false |}
          else v, w)
  /\ MacroView.afterNewSequence sequence onPreviewStep (S budget) interrupted v w
     = Some ({| MacroView.currentStepIndex :=
                  if MacroView.controlsRendered sequence then 0 else -1;
                MacroView.isLocallyPlaying := false |}, w)
  /\ (MacroView.isLocallyPlaying v = true ->
      MacroView.controlsRendered sequence = true ->
      MacroView.playbackEffect sequence onPreviewStep 0 interrupted v w = None).
Proof.
  refine (conj _ (conj _ _)).
  - unfold MacroView.playbackEffect, MacroView.playLoop, MacroView.controlsRendered.
    rewrite whilePlaying_pauses.
    destruct (MacroView.isLocallyPlaying v); [|reflexivity].
    destruct (MacroView.len sequence =? 0); reflexivity.
  - rewrite afterNewSequence_state. unfold MacroView.controlsRendered.
    pose proof (len_nonneg sequence) as Hlen.
    destruct (Z.ltb_spec 0 (MacroView.len sequence));
      destruct (Z.eqb_spec (MacroView.len sequence) 0); try lia; reflexivity.
  - intros Hp Hc. unfold MacroView.playbackEffect, MacroView.playLoop.
    unfold MacroView.controlsRendered in Hc. rewrite Hp.
    destruct (MacroView.len sequence =? 0); [discriminate|reflexivity].
Qed.

(** Play does nothing once the sequence has run out.  With a sequence on
    show and playback paused at an index outside it (at the end, where the
    loop stops, or at -1), pressing Play starts the loop, which stops at
    once: no step is previewed, the index stays, and playback is paused
    again. *)
Theorem play_outside_sequence_bounces {W : Type} (sequence : list MacroStep)
        (onPreviewStep : option (MacroStep -> W -> W * JS.settled))
        (budget : nat) (interrupted : Z -> bool) (v : MacroView.State) (w : W) :
  MacroView.controlsRendered sequence = true ->
  MacroView.isLocallyPlaying v = false ->
  MacroView.currentStepIndex v < 0
  \/ MacroView.len sequence <= MacroView.currentStepIndex v ->
  MacroView.isLocallyPlaying (MacroView.togglePlay v) = true
  /\ MacroView.playbackEffect sequence onPreviewStep (S budget) interrupted
                              (MacroView.togglePlay v) w
     = Some (v, w).
Proof.
  intros Hc Hp Hout. destruct v as [idx playing]. cbn in Hp, Hout. subst playing.
  split; [reflexivity|].
  unfold MacroView.playbackEffect, MacroView.togglePlay, MacroView.playLoop.
  cbn [MacroView.isLocallyPlaying MacroView.currentStepIndex negb].
  unfold MacroView.controlsRendered in Hc.
  destruct (MacroView.len sequence =? 0); [discriminate|].
  rewrite whilePlaying_pauses. reflexivity.
Qed.

Lemma play_outside_sequence_bounces_at_end :
  let sequence := [Samples.step TAP (Samples.at_ 10 10) None 0;
                   Samples.step WAIT None None 300] in
  let v := {| MacroView.currentStepIndex := 2; MacroView.isLocallyPlaying := false |} in
  MacroView.playbackEffect sequence
    (App.onPreviewStep 1 LIVE_VISION (fun _ => []) true) 5 (fun _ => false)
    (MacroView.togglePlay v) Samples.live
  = Some (v, Samples.live).
Proof.
  intros sequence v.
  refine (proj2 (play_outside_sequence_bounces sequence _ 4 _ v Samples.live
                   eq_refl eq_refl _)).
  right. cbn. lia.
Defined.

(** A controller without a preview callback leaves the application as it
    is, whatever button is pressed. *)
Lemma controller_without_callback (sf : Q) (framesFor : MacroStep -> list Q)
      (sys : Playback.System) :
  App.isAutoPilot (Playback.app sys) = false ->
  Playback.callback sf framesFor (Playback.app sys) = None
  /\ (forall budget interrupted sys',
         Playback.play sf framesFor budget interrupted sys = Some sys' ->
         Playback.app sys' = Playback.app sys)
  /\ (forall budget interrupted sys',
         Playback.pressPlay sf framesFor budget interrupted sys = Some sys' ->
         Playback.app sys' = Playback.app sys)
  /\ Playback.app (Playback.stepForward sf framesFor sys) = Playback.app sys
  /\ Playback.app (Playback.stepBackward sf framesFor sys) = Playback.app sys.
Proof.
  intros Hoff.
  assert (Hcb : Playback.callback sf framesFor (Playback.app sys) = None)
    by (unfold Playback.callback; now rewrite Hoff).
  assert (Hplay : forall budget interrupted s sys',
             Playback.app s = Playback.app sys ->
             Playback.play sf framesFor budget interrupted s = Some sys' ->
             Playback.app sys' = Playback.app sys).
  { intros budget interrupted s sys' Hs H. unfold Playback.play in H.
    rewrite Hs in H.
    destruct (Playback.sequenceProp (Playback.app sys)) as [sequence|];
      [|injection H as <-; exact Hs].
    destruct (Playback.view s) as [v|]; [|injection H as <-; exact Hs].
    rewrite Hcb in H. unfold MacroView.playbackEffect, MacroView.playLoop in H.
    destruct (MacroView.isLocallyPlaying v); [|now injection H as <-].
    destruct (MacroView.len sequence =? 0); [now injection H as <-|].
    destruct (MacroView.whilePlaying sequence None budget interrupted true v
                (Playback.app sys)) as [[v' a]|] eqn:E; [|discriminate].
    injection H as <-. cbn. exact (whilePlaying_world _ _ _ _ _ _ _ _ _ E). }
  refine (conj Hcb (conj _ (conj _ (conj _ _)))).
  - intros budget interrupted sys'. now apply Hplay.
  - intros budget interrupted sys'. unfold Playback.pressPlay. now apply Hplay.
  - unfold Playback.stepForward.
    destruct (Playback.sequenceProp (Playback.app sys)) as [sequence|]; [|reflexivity].
    destruct (Playback.view sys) as [v|]; [|reflexivity].
    rewrite Hcb. unfold MacroView.stepForward, MacroView.preview. cbn.
    now destruct (MacroView.sequence_at _ _).
  - unfold Playback.stepBackward.
    destruct (Playback.sequenceProp (Playback.app sys)) as [sequence|]; [|reflexivity].
    destruct (Playback.view sys) as [v|]; [|reflexivity].
    rewrite Hcb. unfold MacroView.stepBackward, MacroView.preview. cbn.
    now destruct (MacroView.sequence_at _ _).
Qed.

(** With the auto-pilot switched off the controller gets no preview
    callback.  Whatever the mode (UPLOAD included, where the engine itself
    would still animate), pressing Play or stepping through the sequence
    then leaves the application untouched: no cursor pose is shown and
    momentum does not move. *)
Theorem playback_without_autopilot (sf : Q) (framesFor : MacroStep -> list Q)
        (sys : Playback.System) :
  App.isAutoPilot (Playback.app sys) = false ->
  Playback.callback sf framesFor (Playback.app sys) = None
  /\ (forall budget interrupted sys',
         Playback.play sf framesFor budget interrupted sys = Some sys' ->
         Playback.app sys' = Playback.app sys)
  /\ (forall budget interrupted sys',
         Playback.pressPlay sf framesFor budget interrupted sys = Some sys' ->
         Playback.app sys' = Playback.app sys)
  /\ Playback.app (Playback.stepForward sf framesFor sys) = Playback.app sys
  /\ Playback.app (Playback.stepBackward sf framesFor sys) = Playback.app sys.
Proof. apply controller_without_callback. Qed.

Lemma playback_without_autopilot_upload :
  let steps := [Samples.step TAP (Samples.at_ 10 10) None 0;
                Samples.step SWIPE (Samples.at_ 0 0) (Samples.at_ 500 500) 200] in
  let a := App.setIsAutoPilot false
             (App.setResult (Some (Samples.analysis steps)) App.initial) in
  let sys := {| Playback.app := a;
                Playback.view := Some {| MacroView.currentStepIndex := 0;
                                         MacroView.isLocallyPlaying := false |} |} in
  Playback.stepForward 1 (fun _ => [1000%Q]) sys
  = {| Playback.app := a;
       Playback.view := Some {| MacroView.currentStepIndex := 1;
                                MacroView.isLocallyPlaying := false |} |}.
Proof.
  intros steps a sys.
  pose proof (proj1 (proj2 (proj2 (proj2 (playback_without_autopilot
                                            1 (fun _ => [1000%Q]) sys eq_refl)))))
    as H.
  destruct (Playback.stepForward 1 (fun _ => [1000%Q]) sys) as [a' v'] eqn:E.
  cbn [Playback.app] in H. subst a'.
  apply (f_equal Playback.view) in E. cbn [Playback.view] in E.
  rewrite <- E. reflexivity.
Defined.

(** ** The end of an analysis cycle and the capture loop *)

Lemma onFinally_schedules (d : Q) (st : App.State) :
  let st' := App.onFinally d st in
  App.isAnalyzing st' = false
  /\ App.isLiveRef (App.refs st') = App.isLiveRef (App.refs st)
  /\ App.srcObject (App.refs st') = App.srcObject (App.refs st)
  /\ App.storage (App.browser st') = App.storage (App.browser st)
  /\ (if (App.isLiveRef (App.refs st) && App.isAutoPilot st)%bool
      then App.timerRef (App.refs st') = Some (App.nextHandle (App.browser st))
           /\ App.activeTimers (App.browser st')
              = App.nextHandle (App.browser st) :: App.activeTimers (App.browser st)
      else App.timerRef (App.refs st') = App.timerRef (App.refs st)
           /\ App.activeTimers (App.browser st') = App.activeTimers (App.browser st)).
Proof.
  unfold App.onFinally. cbn.
  destruct (App.isLiveRef (App.refs st) && App.isAutoPilot st)%bool; cbn;
    repeat split; reflexivity.
Qed.

Lemma onAnalysed_scheduler (base64Images : list string)
      (currentProfile : App.GameProfile) (now : Z) (analysis : AnalysisResult)
      (st : App.State) :
  let st' := App.onAnalysed base64Images currentProfile now analysis st in
  App.refs st' = App.refs st
  /\ App.isAutoPilot st' = App.isAutoPilot st
  /\ App.activeTimers (App.browser st') = App.activeTimers (App.browser st)
  /\ App.nextHandle (App.browser st') = App.nextHandle (App.browser st).
Proof. repeat split; reflexivity. Qed.

Lemma onClassified_scheduler (renderMode : AppMode) (currentProfile : App.GameProfile) (now : Z)
      (c : App.Classification) (st : App.State) :
  let st' := App.onClassified renderMode currentProfile now c st in
  App.timerRef (App.refs st') = App.timerRef (App.refs st)
  /\ App.isLiveRef (App.refs st') = App.isLiveRef (App.refs st)
  /\ App.srcObject (App.refs st') = App.srcObject (App.refs st)
  /\ App.isAutoPilot st' = App.isAutoPilot st
  /\ (if App.isRateLimit c
      then App.retryIntervalRef (App.refs st') = Some (App.nextHandle (App.browser st))
           /\ App.activeTimers (App.browser st')
              = App.nextHandle (App.browser st) :: App.activeTimers (App.browser st)
      else App.retryIntervalRef (App.refs st') = App.retryIntervalRef (App.refs st)
           /\ App.activeTimers (App.browser st') = App.activeTimers (App.browser st)).
Proof.
  unfold App.onClassified. destruct (App.isRateLimit c); cbn; repeat split; reflexivity.
Qed.

Lemma isArmed_cons (h h' : positive) (st st' : App.State) :
  App.activeTimers (App.browser st') = h' :: App.activeTimers (App.browser st) ->
  App.isArmed h st' = (Pos.eqb h h' || App.isArmed h st)%bool.
Proof. unfold App.isArmed. intros ->. reflexivity. Qed.

Lemma isArmed_same (h : positive) (st st' : App.State) :
  App.activeTimers (App.browser st') = App.activeTimers (App.browser st) ->
  App.isArmed h st' = App.isArmed h st.
Proof. unfold App.isArmed. intros ->. reflexivity. Qed.

(** The scheduler facts of [finishAnalysis], for every outcome. *)
Lemma finishAnalysis_scheduler (JSON_parse : string -> option json)
      (base64Images : list string) (renderMode : AppMode)
      (currentProfile : App.GameProfile) (now : Z)
      (out : App.outcome) (st : App.State) :
  let st' := fst (App.finishAnalysis JSON_parse base64Images renderMode currentProfile
                                     now out st) in
  App.isAnalyzing st' = false
  /\ App.isLiveRef (App.refs st') = App.isLiveRef (App.refs st)
  /\ App.srcObject (App.refs st') = App.srcObject (App.refs st)
  /\ (if (App.isLiveRef (App.refs st) && App.isAutoPilot st)%bool
      then exists h, App.timerRef (App.refs st') = Some h /\ App.isArmed h st' = true
      else App.timerRef (App.refs st') = App.timerRef (App.refs st))
  /\ (forall h, App.isArmed h st = true -> App.isArmed h st' = true).
Proof.
  intros st'. subst st'.
  assert (Hgen : forall d mid,
             App.isLiveRef (App.refs mid) = App.isLiveRef (App.refs st) ->
             App.srcObject (App.refs mid) = App.srcObject (App.refs st) ->
             App.timerRef (App.refs mid) = App.timerRef (App.refs st) ->
             App.isAutoPilot mid = App.isAutoPilot st ->
             (forall h, App.isArmed h st = true -> App.isArmed h mid = true) ->
             let st' := App.onFinally d mid in
             App.isAnalyzing st' = false
             /\ App.isLiveRef (App.refs st') = App.isLiveRef (App.refs st)
             /\ App.srcObject (App.refs st') = App.srcObject (App.refs st)
             /\ (if (App.isLiveRef (App.refs st) && App.isAutoPilot st)%bool
                 then exists h, App.timerRef (App.refs st') = Some h
                                /\ App.isArmed h st' = true
                 else App.timerRef (App.refs st') = App.timerRef (App.refs st))
             /\ (forall h, App.isArmed h st = true -> App.isArmed h st' = true)).
  { intros d mid Hl Hs Ht Hp Harm st'.
    destruct (onFinally_schedules d mid) as (Ha & Hl' & Hs' & _ & Hsched).
    fold st' in Ha, Hl', Hs', Hsched. rewrite Hl, Hp in Hsched.
    refine (conj Ha (conj _ (conj _ (conj _ _)))); [congruence|congruence| |].
    - destruct (App.isLiveRef (App.refs st) && App.isAutoPilot st)%bool.
      + destruct Hsched as [Href Hact]. eexists. split; [exact Href|].
        rewrite (isArmed_cons _ _ _ _ Hact). now rewrite Pos.eqb_refl.
      + destruct Hsched as [Href _]. congruence.
    - intros h Hh. apply Harm in Hh.
      destruct (App.isLiveRef (App.refs st) && App.isAutoPilot st)%bool;
        destruct Hsched as [_ Hact].
      + rewrite (isArmed_cons _ _ _ _ Hact), Hh. apply orb_true_r.
      + now rewrite (isArmed_same _ _ _ Hact). }
  unfold App.finishAnalysis.
  destruct out as [analysis|e]; [|destruct (App.classify JSON_parse e) as [c|]];
    cbn [fst].
  - destruct (onAnalysed_scheduler base64Images currentProfile now analysis st)
      as (Hr & Hp & Hact & _).
    apply Hgen; try (rewrite Hr; reflexivity); [exact Hp|].
    intros h Hh. now rewrite (isArmed_same _ _ _ Hact).
  - destruct (onClassified_scheduler renderMode currentProfile now c st)
      as (Ht & Hl & Hs & Hp & Hrl).
    apply Hgen; try assumption.
    intros h Hh. destruct (App.isRateLimit c); destruct Hrl as [_ Hact].
    + rewrite (isArmed_cons _ _ _ _ Hact), Hh. apply orb_true_r.
    + now rewrite (isArmed_same _ _ _ Hact).
  - apply Hgen; auto.
Qed.

(** However an analysis ends (a result, a classified failure, or a catch
    block that throws), the cycle clears [isAnalyzing] and cancels no timer;
    it arms the next capture exactly when live mode is on and the auto-pilot
    is engaged, and otherwise leaves the capture timer reference as it was:
    with the auto-pilot off nothing is scheduled, and switching it on again
    afterwards schedules nothing either. *)
Theorem analysis_end_schedules (JSON_parse : string -> option json)
        (base64Images : list string) (renderMode : AppMode)
        (currentProfile : App.GameProfile) (now : Z)
        (out : App.outcome) (st : App.State) :
  let st' := fst (App.finishAnalysis JSON_parse base64Images renderMode currentProfile
                                     now out st) in
  App.isAnalyzing st' = false
  /\ App.isLiveRef (App.refs st') = App.isLiveRef (App.refs st)
  /\ (if (App.isLiveRef (App.refs st) && App.isAutoPilot st)%bool
      then exists h, App.timerRef (App.refs st') = Some h /\ App.isArmed h st' = true
      else App.timerRef (App.refs st') = App.timerRef (App.refs st)
           /\ App.timerRef (App.refs (App.setIsAutoPilot true st'))
              = App.timerRef (App.refs st)
           /\ App.activeTimers (App.browser (App.setIsAutoPilot true st'))
              = App.activeTimers (App.browser st'))
  /\ (forall h, App.isArmed h st = true -> App.isArmed h st' = true).
Proof.
  intros st'.
  destruct (finishAnalysis_scheduler JSON_parse base64Images renderMode currentProfile now out st)
    as (Ha & Hl & _ & Ht & Harm).
  fold st' in Ha, Hl, Ht, Harm.
  refine (conj Ha (conj Hl (conj _ Harm))).
  destruct (App.isLiveRef (App.refs st) && App.isAutoPilot st)%bool; [exact Ht|].
  repeat split; exact Ht.
Qed.

Lemma onFinally_off (d : Q) (st : App.State) :
  App.isLiveRef (App.refs st) = false ->
  App.onFinally d st = App.setIsAnalyzing false st.
Proof.
  intros H. unfold App.onFinally.
  change (App.refs (App.setIsAnalyzing false st)) with (App.refs st).
  now rewrite H.
Qed.

(** Stopping halts the capture loop for good.  After [stopLiveAnalysis],
    a call of [captureAndAnalyze] does nothing, from whichever render it
    comes and whatever the auto-pilot says; a capture timer that fires late
    captures nothing; and an analysis that was under way, however it ends,
    arms no capture timer and leaves live mode off and the stream
    detached.  Only a rate-limited failure still starts its retry
    interval. *)
Theorem stop_halts_capture_loop (st : App.State) :
  let off := App.stopLiveAnalysis st in
  (forall pilotRef closureIsAnalyzing closureRetryTimer frameA frameB,
      Live.captureAndAnalyzeAt pilotRef closureIsAnalyzing closureRetryTimer
                               frameA frameB off = (off, Live.Idle))
  /\ (forall h closureIsAnalyzing closureRetryTimer frameA frameB,
         let r := Live.timerFires h closureIsAnalyzing closureRetryTimer
                                  frameA frameB off in
         snd r = Live.Idle /\ App.refs (fst r) = App.quiescent
         /\ App.isAnalyzing (fst r) = App.isAnalyzing off)
  /\ (forall JSON_parse base64Images renderMode currentProfile now out,
         let st' := fst (App.finishAnalysis JSON_parse base64Images renderMode currentProfile
                                            now out off) in
         App.timerRef (App.refs st') = None
         /\ App.isLiveRef (App.refs st') = false
         /\ App.srcObject (App.refs st') = None
         /\ (forall e c, out = App.Failed e -> App.classify JSON_parse e = Some c ->
                         App.isRateLimit c = true ->
                         exists h, App.retryIntervalRef (App.refs st') = Some h
                                   /\ App.isArmed h st' = true)
         /\ ((forall e c, out = App.Failed e -> App.classify JSON_parse e = Some c ->
                          App.isRateLimit c = false) ->
             App.refs st' = App.quiescent
             /\ App.activeTimers (App.browser st') = App.activeTimers (App.browser off))).
Proof.
  intros off.
  pose proof (stop_refs st) as Hq. fold off in Hq.
  assert (Hlive : App.isLiveRef (App.refs off) = false) by now rewrite Hq.
  refine (conj _ (conj _ _)).
  - intros. now apply captureAndAnalyzeAt_off.
  - intros h cIA cRT fA fB r. subst r. unfold Live.timerFires.
    destruct (App.isArmed h off).
    + unfold Live.captureAndAnalyze. rewrite captureAndAnalyzeAt_off by exact Hlive.
      cbn [fst snd]. repeat split. exact Hq.
    + cbn [fst snd]. repeat split. exact Hq.
  - intros JSON_parse base64Images renderMode currentProfile now out st'.
    destruct (finishAnalysis_scheduler JSON_parse base64Images renderMode currentProfile now
                                       out off) as (_ & Hl & Hs & Ht & _).
    fold st' in Hl, Hs, Ht. rewrite Hlive in Ht. cbn [andb] in Ht.
    rewrite Hq in Hl, Hs, Ht. cbn in Hl, Hs, Ht.
    refine (conj Ht (conj Hl (conj Hs (conj _ _)))).
    + intros e c -> Hc Hrl. subst st'. unfold App.finishAnalysis. rewrite Hc.
      cbn [fst].
      destruct (onClassified_scheduler renderMode currentProfile now c off)
        as (_ & _ & _ & _ & Hint). rewrite Hrl in Hint. destruct Hint as [Href Hact].
      destruct (onFinally_keeps (App.nextDelay c)
                  (App.onClassified renderMode currentProfile now c off)
                  (App.nextHandle (App.browser off))) as (_ & _ & Hkeep & Harm).
      eexists. split; [rewrite Hkeep; exact Href|].
      apply Harm. rewrite (isArmed_cons _ _ _ _ Hact). now rewrite Pos.eqb_refl.
    + intros Hnot. subst st'. clear Hl Hs Ht. clearbody off.
      unfold App.finishAnalysis.
      destruct out as [analysis|e]; [|destruct (App.classify JSON_parse e) as [c|] eqn:Hc];
        cbn [fst].
      * rewrite onFinally_off by exact Hlive. split; [exact Hq|reflexivity].
      * pose proof (Hnot e c eq_refl Hc) as Hrl.
        rewrite onFinally_off by (unfold App.onClassified; rewrite Hrl; exact Hlive).
        unfold App.onClassified. rewrite Hrl. split; [exact Hq|reflexivity].
      * rewrite onFinally_off by exact Hlive. split; [exact Hq|reflexivity].
Qed.

(** ** What a cycle records *)

Lemma classify_some_iff (JSON_parse : string -> option json) (e : App.thrown) :
  App.classify JSON_parse e <> None
  <-> exists text, App.extractMessage e = Some text
                   /\ Live.classifiable (App.unwrap JSON_parse text) = true.
Proof.
  unfold App.classify.
  destruct (App.extractMessage e) as [text|].
  2:{ split; [congruence|]. intros (text & H & _). discriminate. }
  cbv zeta.
  destruct (App.unwrap JSON_parse text) as [[| b | n | s | items | fields]|] eqn:Htm;
    try (cbn; split; [congruence|]; intros (text0 & Heq & Hcl);
         injection Heq as <-; rewrite Htm in Hcl; discriminate).
  - (* a text *)
    cbn [JS.callIncludes JS.callSubstring0].
    split.
    + intros _. exists text. rewrite Htm. split; reflexivity.
    + intros _.
      destruct (JS.includes s "429"), (JS.includes s "quota"),
        (JS.includes s "RESOURCE_EXHAUSTED"), (JS.includes s "SAFETY"),
        (JS.includes s "harmful"), (JS.includes s "fetch"),
        (JS.includes s "network"); cbn [App.orElse]; discriminate.
  - (* an array *)
    cbn [JS.callIncludes JS.callSubstring0].
    assert (Hcl : Live.classifiable (Some (JArr items))
                  = (existsb (JS.isStr "429") items
                     || (existsb (JS.isStr "quota") items
                     || (existsb (JS.isStr "RESOURCE_EXHAUSTED") items
                     || (existsb (JS.isStr "SAFETY") items
                     || (existsb (JS.isStr "harmful") items
                     || (existsb (JS.isStr "fetch") items
                     || (existsb (JS.isStr "network") items || false)))))))%bool)
      by reflexivity.
    split.
    + intros H. exists text. rewrite Htm. split; [reflexivity|]. rewrite Hcl.
      destruct (existsb (JS.isStr "429") items),
        (existsb (JS.isStr "quota") items),
        (existsb (JS.isStr "RESOURCE_EXHAUSTED") items),
        (existsb (JS.isStr "SAFETY") items),
        (existsb (JS.isStr "harmful") items),
        (existsb (JS.isStr "fetch") items),
        (existsb (JS.isStr "network") items); try reflexivity.
      cbn in H. congruence.
    + intros (text0 & Heq & Hc). injection Heq as <-. rewrite Htm, Hcl in Hc.
      destruct (existsb (JS.isStr "429") items),
        (existsb (JS.isStr "quota") items),
        (existsb (JS.isStr "RESOURCE_EXHAUSTED") items),
        (existsb (JS.isStr "SAFETY") items),
        (existsb (JS.isStr "harmful") items),
        (existsb (JS.isStr "fetch") items),
        (existsb (JS.isStr "network") items); cbn [App.orElse]; discriminate.
Qed.

(** When the catch block itself throws.  The classifier gets through
    exactly when the message it extracted is a text, or an array holding one
    of its keywords as an element; for [undefined], a [JSON.stringify] that
    throws, or an [error.message] that is a number, a boolean, an object or
    an array without a keyword, it throws.  The cycle then rejects and is
    silent: nothing is logged, no error text is shown and no countdown
    starts; only the [finally] block runs. *)
Theorem catch_block_throws_iff (JSON_parse : string -> option json) (e : App.thrown) :
  (App.classify JSON_parse e = None
   <-> forall text, App.extractMessage e = Some text ->
                    Live.classifiable (App.unwrap JSON_parse text) = false)
  /\ (App.classify JSON_parse e = None ->
      forall base64Images renderMode currentProfile now st,
        let r := App.finishAnalysis JSON_parse base64Images renderMode currentProfile now
                                    (App.Failed e) st in
        snd r = JS.Rejected
        /\ App.storage (App.browser (fst r)) = App.storage (App.browser st)
        /\ App.error (fst r) = App.error st
        /\ App.retryTimer (fst r) = App.retryTimer st
        /\ App.retryIntervalRef (App.refs (fst r)) = App.retryIntervalRef (App.refs st)
        /\ App.isAnalyzing (fst r) = false).
Proof.
  split.
  - pose proof (classify_some_iff JSON_parse e) as Hiff. split.
    + intros Hnone text Ht.
      destruct (Live.classifiable (App.unwrap JSON_parse text)) eqn:Hc; [|reflexivity].
      exfalso. apply (proj2 Hiff); [|exact Hnone]. now exists text.
    + intros Hall.
      destruct (App.classify JSON_parse e) eqn:Hc; [|reflexivity].
      exfalso. destruct (proj1 Hiff) as (text & Ht & Hcl); [congruence|].
      rewrite (Hall text Ht) in Hcl. discriminate.
  - intros Hnone base64Images renderMode currentProfile now st r. subst r.
    unfold App.finishAnalysis. rewrite Hnone. cbn [fst snd].
    destruct (onFinally_keeps 3000 st 1%positive) as (Hrt & Herr & Hint & _).
    destruct (onFinally_schedules 3000 st) as (Ha & _ & _ & Hst & _).
    cbv zeta in Ha, Hst.
    repeat split; assumption.
Qed.

(** A classified failure is written to the error log.  The cycle resolves
    and appends one record, as the newest one, that carries the classified
    message, the profile of the cycle, and the mode of the render the
    cycle's [triggerAnalysis] belongs to (which need not be the mode the
    application is in by then), with severity WARNING for a rate limit and
    ERROR otherwise (never FATAL).  The stored count grows by one until 51
    records are kept; the training logs and the last result are left
    alone. *)
Theorem classified_failure_is_logged (JSON_parse : string -> option json)
        (base64Images : list string) (renderMode : AppMode)
        (currentProfile : App.GameProfile) (now : Z)
        (e : App.thrown) (c : App.Classification) (st : App.State) :
  App.classify JSON_parse e = Some c ->
  let r := App.finishAnalysis JSON_parse base64Images renderMode currentProfile now
                              (App.Failed e) st in
  let ls := App.storage (App.browser st) in
  let ls' := App.storage (App.browser (fst r)) in
  snd r = JS.Resolved
  /\ (exists front rec,
         Storage.parsed (Storage.nexus_system_errors ls') = (front ++ [rec])%list
         /\ message rec = App.technicalMessage c
         /\ severity rec = (if App.isRateLimit c then WARNING else ERROR)
         /\ severity rec <> FATAL
         /\ err_timestamp rec = now
         /\ ctx_mode rec = renderMode
         /\ ctx_gameId rec = App.profile_id currentProfile
         /\ ctx_gameName rec = App.profile_name currentProfile)
  /\ Storage.getSystemErrorCount ls'
     = (if 50 <? Z.of_nat (Storage.getSystemErrorCount ls)
        then Storage.getSystemErrorCount ls
        else S (Storage.getSystemErrorCount ls))
  /\ Storage.nexus_training_logs ls' = Storage.nexus_training_logs ls
  /\ App.result (fst r) = App.result st.
Proof.
  intros Hc r ls ls'.
  set (errLog := {| err_id := now; err_timestamp := now;
                    severity := if App.isRateLimit c then WARNING else ERROR;
                    message := App.technicalMessage c;
                    ctx_mode := renderMode;
                    ctx_gameId := App.profile_id currentProfile;
                    ctx_gameName := App.profile_name currentProfile |}).
  assert (Hls : ls' = Storage.saveErrorLog errLog ls).
  { subst ls' r. unfold App.finishAnalysis. rewrite Hc. cbn [fst].
    destruct (onFinally_schedules (App.nextDelay c)
                (App.onClassified renderMode currentProfile now c st)) as (_ & _ & _ & Hst & _).
    cbv zeta in Hst. rewrite Hst. unfold App.onClassified.
    destruct (App.isRateLimit c); reflexivity. }
  refine (conj _ (conj _ (conj _ (conj _ _)))).
  - subst r. unfold App.finishAnalysis. now rewrite Hc.
  - rewrite Hls. unfold Storage.saveErrorLog. cbn [Storage.nexus_system_errors Storage.parsed].
    eexists _, errLog. split; [reflexivity|].
    cbn. repeat split. destruct (App.isRateLimit c); discriminate.
  - rewrite Hls. apply saveErrorLog_count.
  - rewrite Hls. reflexivity.
  - subst r. apply finishAnalysis_failed_result.
Qed.

(** A quota failure of a cycle started from the UPLOAD render, settling
    while the application is in live mode: the record says UPLOAD. *)
Lemma classified_failure_is_logged_quota :
  let e := App.ThrownError "429 Too Many Requests" None in
  let r := App.finishAnalysis JSON.parse ["img"%string] UPLOAD Samples.profile
                              1700000000123 (App.Failed e) Samples.live in
  Storage.getSystemErrorCount (App.storage (App.browser (fst r))) = 1%nat
  /\ snd r = JS.Resolved
  /\ App.mode Samples.live = LIVE_VISION
  /\ exists front rec,
       Storage.parsed (Storage.nexus_system_errors (App.storage (App.browser (fst r))))
       = (front ++ [rec])%list
       /\ ctx_mode rec = UPLOAD.
Proof.
  intros e r.
  destruct (classified_failure_is_logged JSON.parse ["img"%string] UPLOAD
              Samples.profile 1700000000123 e
              {| App.technicalMessage := JStr "429 Too Many Requests";
                 App.friendlyMessage := "Quota Exceeded. Cooling down neural link...";
                 App.nextDelay := 25000; App.isRateLimit := true;
                 App.isSafety := false; App.isNetwork := false |}
              Samples.live eq_refl)
    as (Hres & (front & rec & Hlog & _ & _ & _ & _ & Hmode & _) & Hcount & _).
  refine (conj Hcount (conj Hres (conj eq_refl _))).
  exists front, rec. split; [exact Hlog|exact Hmode].
Defined.

(** ** Starting live mode *)








(** ** Voice commands *)

Lemma fresh_handle_differs (h : positive) (st : App.State) :
  App.isArmed h st = true ->
  App.isArmed (App.nextHandle (App.browser st)) st = false ->
  Pos.eqb (App.nextHandle (App.browser st)) h = false.
Proof.
  intros Harmed Hfresh. destruct (Pos.eqb_spec (App.nextHandle (App.browser st)) h) as [E|];
    [|reflexivity].
  rewrite E in Hfresh. congruence.
Qed.

Lemma captureAndAnalyzeAt_burst (closureRetryTimer : Q)
      (frameA frameB : option string) (base64Images : list string) (st : App.State) :
  App.isLiveRef (App.refs st) = true ->
  (closureRetryTimer <= 0)%Q ->
  Live.burst frameA frameB = Some base64Images ->
  Live.captureAndAnalyzeAt true false closureRetryTimer frameA frameB st
  = (App.beginAnalysis st, Live.Analysing base64Images).
Proof.
  intros Hl Hrt Hb. unfold Live.captureAndAnalyzeAt.
  rewrite Hl, Hb, (proj2 (Qlt_bool_false_iff _ _) Hrt). reflexivity.
Qed.

Lemma captureAndAnalyzeAt_standby (closureRetryTimer : Q)
      (frameA frameB : option string) (st : App.State) :
  App.isLiveRef (App.refs st) = true ->
  (closureRetryTimer <= 0)%Q ->
  Live.captureAndAnalyzeAt false false closureRetryTimer frameA frameB st
  = (Live.schedule st, Live.Rescheduled 1000).
Proof.
  intros Hl Hrt. unfold Live.captureAndAnalyzeAt.
  rewrite Hl, (proj2 (Qlt_bool_false_iff _ _) Hrt). reflexivity.
Qed.

Lemma beginAnalysis_idle_refs (st : App.State) :
  App.retryIntervalRef (App.refs st) = None ->
  App.refs (App.beginAnalysis st) = App.refs st
  /\ App.browser (App.beginAnalysis st) = App.browser st
  /\ App.isAutoPilot (App.beginAnalysis st) = App.isAutoPilot st
  /\ App.isAnalyzing (App.beginAnalysis st) = true.
Proof.
  intros H. unfold App.beginAnalysis.
  change (App.refs (App.setMomentum (fun _ => 1%float)
                      (App.setRetryTimer (fun _ => 0%Q) (App.setIsAnalyzing true st))))
    with (App.refs st).
  rewrite H. repeat split; reflexivity.
Qed.

Lemma schedule_state (st : App.State) :
  let st' := Live.schedule st in
  App.timerRef (App.refs st') = Some (App.nextHandle (App.browser st))
  /\ App.retryIntervalRef (App.refs st') = App.retryIntervalRef (App.refs st)
  /\ App.isLiveRef (App.refs st') = App.isLiveRef (App.refs st)
  /\ App.srcObject (App.refs st') = App.srcObject (App.refs st)
  /\ App.activeTimers (App.browser st')
     = App.nextHandle (App.browser st) :: App.activeTimers (App.browser st)
  /\ App.isAutoPilot st' = App.isAutoPilot st
  /\ App.isAnalyzing st' = App.isAnalyzing st
  /\ App.mode st' = App.mode st.
Proof. repeat split; reflexivity. Qed.

(** The voice command ANALYZE given in standby starts a second capture
    loop.  With live mode on, the auto-pilot off and the standby timer
    pending, the command switches the auto-pilot on and calls
    [captureAndAnalyze], which still reads the old ref: it arms a new timer
    over the pending one without clearing it.  Both timers then fire into
    a capture, and both start an analysis, the second while the first is
    still running, since the guard on [isAnalyzing] reads the value of the
    render the callback came from. *)
Theorem voice_analyze_in_standby_doubles_loop
        (frameA frameB : option string) (base64Images : list string)
        (closureRetryTimer : Q) (h : positive) (st : App.State) :
  Live.isLive (App.mode st) = true ->
  App.isLiveRef (App.refs st) = true ->
  App.isAutoPilot st = false ->
  App.isAnalyzing st = false ->
  (App.retryTimer st <= 0)%Q ->
  (closureRetryTimer <= 0)%Q ->
  App.retryIntervalRef (App.refs st) = None ->
  App.timerRef (App.refs st) = Some h ->
  App.isArmed h st = true ->
  App.isArmed (App.nextHandle (App.browser st)) st = false ->
  Live.burst frameA frameB = Some base64Images ->
  let r := Live.handleVoiceCommand "ANALYZE" frameA frameB st in
  let first := Live.timerFires h false closureRetryTimer frameA frameB (fst r) in
  let h' := App.nextHandle (App.browser st) in
  let second := Live.timerFires h' false (App.retryTimer st) frameA frameB (fst first) in
  snd r = Live.Rescheduled 1000
  /\ App.isAutoPilot (fst r) = true
  /\ h' <> h
  /\ App.timerRef (App.refs (fst r)) = Some h'
  /\ App.isArmed h (fst r) = true
  /\ App.isArmed h' (fst r) = true
  /\ snd first = Live.Analysing base64Images
  /\ App.isAnalyzing (fst first) = true
  /\ snd second = Live.Analysing base64Images.
Proof.
  intros Hmode Hlive Hpilot Hidle Hrt Hcrt Hint Htimer Harmed Hfresh Hburst r first h' second.
  pose proof (fresh_handle_differs h st Harmed Hfresh) as Hne. fold h' in Hne.
  assert (Hne' : Pos.eqb h h' = false) by (rewrite Pos.eqb_sym; exact Hne).
  set (on := App.setIsAutoPilot true st).
  assert (Hr : r = (Live.schedule on, Live.Rescheduled 1000)).
  { subst r. unfold Live.handleVoiceCommand.
    change (("ANALYZE" =? "ANALYZE")%string) with true. cbv iota.
    rewrite Hpilot, Hmode, Hidle. cbn [negb]. fold on.
    apply captureAndAnalyzeAt_standby; [exact Hlive|exact Hrt]. }
  destruct (schedule_state on) as (Ht & Hi & Hl & _ & Hact & Hp & _ & _).
  cbv zeta in Ht, Hi, Hl, Hact, Hp.
  change (App.nextHandle (App.browser on)) with h' in Ht, Hact.
  change (App.activeTimers (App.browser on)) with (App.activeTimers (App.browser st))
    in Hact.
  assert (Hah : App.isArmed h (Live.schedule on) = true).
  { unfold App.isArmed. rewrite Hact. cbn [existsb]. rewrite Hne'. exact Harmed. }
  assert (Hah' : App.isArmed h' (Live.schedule on) = true).
  { unfold App.isArmed. rewrite Hact. cbn [existsb]. now rewrite Pos.eqb_refl. }
  set (s1 := App.clearTimer h (Live.schedule on)).
  assert (Hs1 : App.refs s1 = App.refs (Live.schedule on)) by reflexivity.
  assert (Hfirst : first = (App.beginAnalysis s1, Live.Analysing base64Images)).
  { subst first. rewrite Hr. cbn [fst]. unfold Live.timerFires. rewrite Hah.
    unfold Live.captureAndAnalyze. fold s1.
    change (App.isAutoPilot s1) with (App.isAutoPilot (Live.schedule on)).
    rewrite Hp. apply captureAndAnalyzeAt_burst; [|exact Hcrt|exact Hburst].
    rewrite Hs1, Hl. exact Hlive. }
  destruct (beginAnalysis_idle_refs s1) as (Hrefs & Hbr & Hpil & Han).
  { rewrite Hs1, Hi. exact Hint. }
  refine (conj _ (conj _ (conj _ (conj _ (conj _ (conj _ (conj _ (conj _ _)))))))).
  - now rewrite Hr.
  - rewrite Hr. exact Hp.
  - intros E. rewrite E, Pos.eqb_refl in Hne. discriminate.
  - rewrite Hr. exact Ht.
  - rewrite Hr. exact Hah.
  - rewrite Hr. exact Hah'.
  - now rewrite Hfirst.
  - rewrite Hfirst. exact Han.
  - subst second. rewrite Hfirst. cbn [fst]. unfold Live.timerFires.
    assert (Ha2 : App.isArmed h' (App.beginAnalysis s1) = true).
    { unfold App.isArmed. rewrite Hbr. fold (App.isArmed h' s1). subst s1.
      rewrite isArmed_clearTimer, Hah', Hne. reflexivity. }
    rewrite Ha2. unfold Live.captureAndAnalyze.
    set (s2 := App.clearTimer h' (App.beginAnalysis s1)).
    change (App.isAutoPilot s2) with (App.isAutoPilot (App.beginAnalysis s1)).
    rewrite Hpil.
    change (App.isAutoPilot s1) with (App.isAutoPilot (Live.schedule on)).
    rewrite Hp.
    rewrite captureAndAnalyzeAt_burst with (base64Images := base64Images);
      [reflexivity| |exact Hrt|exact Hburst].
    change (App.refs s2) with (App.refs (App.beginAnalysis s1)).
    rewrite Hrefs, Hs1, Hl. exact Hlive.
Qed.

Lemma voice_analyze_in_standby_doubles_loop_live :
  let st := App.setRetryTimer (fun _ => 0%Q)
              (App.setIsAutoPilot false
                 (App.withRefs (fun r => {| App.timerRef := Some 3%positive;
                                            App.retryIntervalRef := None;
                                            App.isLiveRef := true;
                                            App.srcObject := App.srcObject r |})
                               Samples.live)) in
  let r := Live.handleVoiceCommand "ANALYZE" (Some "AAAA"%string) (Some "BBBB"%string) st in
  App.isArmed 3%positive (fst r) = true /\ App.isArmed 5%positive (fst r) = true
  /\ App.timerRef (App.refs (fst r)) = Some 5%positive.
Proof.
  intros st r.
  assert (H0 : (App.retryTimer st <= 0)%Q) by discriminate.
  assert (H1 : (0 <= 0)%Q) by discriminate.
  destruct (voice_analyze_in_standby_doubles_loop
              (Some "AAAA"%string) (Some "BBBB"%string) ["AAAA"; "BBBB"]%string
              0%Q 3%positive st eq_refl eq_refl eq_refl eq_refl H0 H1 eq_refl eq_refl
              eq_refl eq_refl eq_refl) as (_ & _ & _ & Ht & Ha & Ha' & _).
  split; [exact Ha|]. split; [exact Ha'|exact Ht].
Defined.

Lemma isWhiteSpace_lowerChar (c : ascii) :
  JS.isWhiteSpace (Live.lowerChar c) = JS.isWhiteSpace c.
Proof.
  destruct c as [[] [] [] [] [] [] [] []]; reflexivity.
Qed.

Lemma lowerChar_idem (c : ascii) :
  Live.lowerChar (Live.lowerChar c) = Live.lowerChar c.
Proof.
  destruct c as [[] [] [] [] [] [] [] []]; reflexivity.
Qed.

Lemma toLowerCase_idem (s : string) :
  Live.toLowerCase (Live.toLowerCase s) = Live.toLowerCase s.
Proof.
  induction s as [|c s IH]; [reflexivity|].
  cbn [Live.toLowerCase]. now rewrite lowerChar_idem, IH.
Qed.

Lemma toLowerCase_empty (s : string) :
  (Live.toLowerCase s =? "")%string = (s =? "")%string.
Proof. destruct s; reflexivity. Qed.

Lemma toLowerCase_trimStart (s : string) :
  Live.toLowerCase (JS.trimStart s) = JS.trimStart (Live.toLowerCase s).
Proof.
  induction s as [|c s IH]; [reflexivity|].
  cbn [JS.trimStart Live.toLowerCase]. rewrite isWhiteSpace_lowerChar.
  destruct (JS.isWhiteSpace c); [exact IH|reflexivity].
Qed.

Lemma toLowerCase_trimEnd (s : string) :
  Live.toLowerCase (JS.trimEnd s) = JS.trimEnd (Live.toLowerCase s).
Proof.
  induction s as [|c s IH]; [reflexivity|].
  cbn [JS.trimEnd Live.toLowerCase]. rewrite isWhiteSpace_lowerChar, <- IH.
  rewrite toLowerCase_empty.
  destruct (JS.isWhiteSpace c && (JS.trimEnd s =? "")%string)%bool; reflexivity.
Qed.

Lemma toLowerCase_trim (s : string) :
  Live.toLowerCase (JS.trim s) = JS.trim (Live.toLowerCase s).
Proof.
  unfold JS.trim. now rewrite toLowerCase_trimEnd, toLowerCase_trimStart.
Qed.

(** Voice commands are recognised whatever the letter case: two transcripts
    that differ only in the case of ASCII letters give the same command.
    Only ANALYZE and STOP are ever handed on, and an analyse word
    (analyze, scan, check) anywhere in the utterance wins over a stop
    word. *)
Theorem voice_recognition_ignores_case :
  (forall t t', Live.toLowerCase t = Live.toLowerCase t' ->
                Live.onresult t = Live.onresult t')
  /\ (forall t, Live.onresult (Live.toLowerCase t) = Live.onresult t)
  /\ (forall t c, Live.onresult t = Some c ->
                  c = "ANALYZE"%string \/ c = "STOP"%string)
  /\ (forall t word,
         In word ["analyze"; "scan"; "check"]%string ->
         JS.includes (Live.toLowerCase (JS.trim t)) word = true ->
         Live.onresult t = Some "ANALYZE"%string).
Proof.
  assert (Hcase : forall t t', Live.toLowerCase t = Live.toLowerCase t' ->
                               Live.onresult t = Live.onresult t').
  { intros t t' H. unfold Live.onresult. now rewrite !toLowerCase_trim, H. }
  refine (conj Hcase (conj _ (conj _ _))).
  - intros t. apply Hcase. apply toLowerCase_idem.
  - intros t c. unfold Live.onresult.
    destruct (_ || _ || _)%bool; [intros [= <-]; now left|].
    destruct (_ || _)%bool; [intros [= <-]; now right|discriminate].
  - intros t word Hin Hinc. unfold Live.onresult.
    destruct Hin as [<- | [<- | [<- | []]]]; rewrite Hinc;
      rewrite ?orb_true_r; reflexivity.
Qed.

(** ** Upload *)


(** ** Frame capture *)

(** A captured frame is never wider than 1280.  The frame is drawn at the
    size of the video when that is at most 1280 wide; a wider video is
    drawn at width 1280 and at the integer part of the height times
    1280 / width, both computed in doubles.  No frame is captured while
    the video has no width. *)
Theorem capture_size_bounded (videoWidth videoHeight : Z) :
  match Live.captureSize videoWidth videoHeight with
  | Some (width, height) =>
    0 < videoWidth
    /\ width = Z.min videoWidth Live.MAX_WIDTH
    /\ width <= 1280
    /\ (videoWidth <= Live.MAX_WIDTH -> height = videoHeight)
    /\ (Live.MAX_WIDTH < videoWidth ->
        height = Math.trunc (Math.ofZ videoHeight
                             * (Math.ofZ 1280 / Math.ofZ videoWidth))%float)
  | None => videoWidth <= 0
  end.
Proof.
  unfold Live.captureSize, Live.MAX_WIDTH.
  destruct (Z.ltb_spec 0 videoWidth) as [Hpos|Hnone]; [|exact Hnone].
  destruct (Z.ltb_spec 1280 videoWidth) as [Hbig|Hsmall].
  - refine (conj Hpos (conj _ (conj _ (conj _ (fun _ => eq_refl))))); lia.
  - refine (conj Hpos (conj _ (conj _ (conj (fun _ => eq_refl) _)))); lia.
Qed.

(** Frame sizes of common screens and cameras.  The scaled height is the
    exact quotient rounded down, or one less where the doubles fall just
    short of a whole number (1432 x 1074 gives 959, the quotient being
    960); it never exceeds the height of the video. *)
Example capture_size_common :
  Live.captureSize 1366 768 = Some (1280, 719)
  /\ Live.captureSize 1920 1080 = Some (1280, 720)
  /\ Live.captureSize 1432 1074 = Some (1280, 959)
  /\ Live.captureSize 1280 720 = Some (1280, 720)
  /\ Live.captureSize 640 480 = Some (640, 480)
  /\ Live.captureSize 0 0 = None
  /\ forallb (fun size : Z * Z =>
                let (w, h) := size in
                match Live.captureSize w h with
                | Some (width, height) =>
                  (width =? 1280) && (0 <=? height) && (height <=? h)
                  && (h * 1280 / w - 1 <=? height) && (height <=? h * 1280 / w)
                | None => false
                end)
             [(1366, 768); (1440, 900); (1536, 864); (1600, 900); (1680, 1050);
              (1920, 1080); (1920, 1200); (2560, 1080); (2560, 1440); (2560, 1600);
              (2880, 1800); (3440, 1440); (3840, 2160); (1432, 1074); (4096, 2160)]
     = true.
Proof. vm_compute. repeat split. Qed.

(** ** Auto-learning *)












(** ** Stopping by voice *)

Lemma upload_state (read : option string) (st : App.State) :
  let r := Live.handleFileUpload (Some read) st in
  App.mode (fst r) = UPLOAD
  /\ App.isAutoPilot (fst r) = App.isAutoPilot st
  /\ match read with
     | Some _ => App.momentum (fst r) = 1%float
     | None => App.momentum (fst r) = App.momentum st
     end.
Proof.
  intros r. subst r. unfold Live.handleFileUpload.
  destruct (stop_untouched (App.setMode UPLOAD st)) as (_ & Hmo & Hm & Hp & _).
  cbv zeta in Hmo, Hm, Hp.
  change (App.mode (App.setMode UPLOAD st)) with UPLOAD in Hm.
  change (App.isAutoPilot (App.setMode UPLOAD st)) with (App.isAutoPilot st) in Hp.
  change (App.momentum (App.setMode UPLOAD st)) with (App.momentum st) in Hmo.
  set (off := App.stopLiveAnalysis (App.setMode UPLOAD st)) in *. clearbody off.
  destruct read as [base64Data|]; cbn [fst].
  - destruct (beginAnalysis_state (App.setError None off))
      as (Hmom & _ & Hpil & Hmode & _).
    rewrite Hmode, Hpil, Hmom. repeat split; assumption.
  - repeat split; assumption.
Qed.

Lemma handleVoiceCommand_STOP (frameA frameB : option string) (st : App.State) :
  Live.handleVoiceCommand "STOP" frameA frameB st
  = (App.setMode UPLOAD (App.stopLiveAnalysis (App.setIsAutoPilot false st)), Live.Idle).
Proof. reflexivity. Qed.

Lemma voice_stop_state (frameA frameB : option string) (st : App.State) :
  let stopped := fst (Live.handleVoiceCommand "STOP" frameA frameB st) in
  App.mode stopped = UPLOAD
  /\ App.isAutoPilot stopped = false
  /\ App.refs stopped = App.quiescent.
Proof.
  rewrite handleVoiceCommand_STOP. cbn [fst].
  destruct (stop_untouched (App.setIsAutoPilot false st)) as (_ & _ & _ & Hp0 & _).
  refine (conj eq_refl (conj Hp0 _)).
  exact (stop_refs (App.setIsAutoPilot false st)).
Qed.

Lemma upload_result_not_animated (base64Data : string)
      (JSON_parse : string -> option json) (renderMode : AppMode)
      (currentProfile : App.GameProfile)
      (now : Z) (analysis : AnalysisResult) (stopped : App.State) :
  App.isAutoPilot stopped = false ->
  let uploading := fst (Live.handleFileUpload (Some (Some base64Data)) stopped) in
  let done := fst (App.finishAnalysis JSON_parse [base64Data] renderMode currentProfile now
                                      (App.Analysed analysis) uploading) in
  App.result done = Some analysis
  /\ App.mode done = UPLOAD
  /\ App.isAutoPilot done = false
  /\ App.momentum done = 1%float.
Proof.
  intros Hoff.
  destruct (upload_state (Some base64Data) stopped) as (Hm2 & Hp2 & Hmo2).
  cbv zeta iota in Hm2, Hp2, Hmo2.
  destruct (finishAnalysis_keeps JSON_parse [base64Data] renderMode currentProfile now
              (App.Analysed analysis)
              (fst (Live.handleFileUpload (Some (Some base64Data)) stopped)))
    as (Hmo3 & Hp3 & Hm3).
  cbv zeta in Hmo3, Hp3, Hm3. cbv zeta.
  refine (conj _ (conj _ (conj _ _))).
  - apply finishAnalysis_result.
  - rewrite Hm3. exact Hm2.
  - rewrite Hp3, Hp2. exact Hoff.
  - rewrite Hmo3. exact Hmo2.
Qed.

(** After the voice command STOP an uploaded screenshot is analysed but its
    macro is not animated.  STOP switches the auto-pilot off, stops live
    mode and leaves the application in UPLOAD mode (where the auto-pilot
    switch is not on show).  An upload analysed afterwards delivers its
    result, but the controller gets no preview callback: the arrival of
    the sequence, Play and the step buttons all leave the application
    untouched, although the engine itself would animate in UPLOAD mode. *)
Theorem voice_stop_then_upload_not_animated
        (frameA frameB : option string) (base64Data : string)
        (JSON_parse : string -> option json) (renderMode : AppMode)
        (currentProfile : App.GameProfile)
        (now : Z) (analysis : AnalysisResult) (st : App.State) :
  let stopped := fst (Live.handleVoiceCommand "STOP" frameA frameB st) in
  let uploading := fst (Live.handleFileUpload (Some (Some base64Data)) stopped) in
  let done := fst (App.finishAnalysis JSON_parse [base64Data] renderMode currentProfile now
                                      (App.Analysed analysis) uploading) in
  (App.mode stopped = UPLOAD
   /\ App.isAutoPilot stopped = false
   /\ App.refs stopped = App.quiescent)
  /\ App.result done = Some analysis
  /\ App.mode done = UPLOAD
  /\ App.isAutoPilot done = false
  /\ (forall sf framesFor budget interrupted v,
         exists v',
           Playback.attach JSON_parse [base64Data] renderMode currentProfile now
                           analysis sf framesFor (S budget) interrupted
                           {| Playback.app := uploading; Playback.view := v |}
           = Some {| Playback.app := done; Playback.view := Some v' |})
  /\ (forall sf framesFor v,
         let sys := {| Playback.app := done; Playback.view := v |} in
         Playback.callback sf framesFor done = None
         /\ (forall budget interrupted sys',
                Playback.play sf framesFor budget interrupted sys = Some sys' ->
                Playback.app sys' = done)
         /\ (forall budget interrupted sys',
                Playback.pressPlay sf framesFor budget interrupted sys = Some sys' ->
                Playback.app sys' = done)
         /\ Playback.app (Playback.stepForward sf framesFor sys) = done
         /\ Playback.app (Playback.stepBackward sf framesFor sys) = done)
  /\ (forall sf frames step,
         App.momentum (fst (App.animateSingleStep sf (App.mode done) frames
                                                  (Some step) done))
         = Math.min (1 + Math.tenth)%float 2%float).
Proof.
  pose proof (voice_stop_state frameA frameB st) as Hstop.
  pose proof (upload_result_not_animated base64Data JSON_parse renderMode currentProfile now
                analysis (fst (Live.handleVoiceCommand "STOP" frameA frameB st))
                (proj1 (proj2 Hstop))) as Hdone.
  cbv zeta in Hstop, Hdone |- *.
  revert Hstop Hdone.
  generalize (fst (Live.handleVoiceCommand "STOP" frameA frameB st)).
  intros stopped Hstop.
  assert (Hatt : forall sf framesFor budget interrupted v,
             exists v',
               Playback.attach JSON_parse [base64Data] renderMode currentProfile now
                 analysis sf framesFor (S budget) interrupted
                 {| Playback.app :=
                      fst (Live.handleFileUpload (Some (Some base64Data)) stopped);
                    Playback.view := v |}
               = Some {| Playback.app :=
                           fst (App.finishAnalysis JSON_parse [base64Data] renderMode
                                  currentProfile now (App.Analysed analysis)
                                  (fst (Live.handleFileUpload (Some (Some base64Data))
                                          stopped)));
                         Playback.view := Some v' |}).
  { intros sf framesFor budget interrupted v. rewrite attach_state.
    eexists. reflexivity. }
  revert Hatt.
  generalize (fst (Live.handleFileUpload (Some (Some base64Data)) stopped)).
  intros uploading Hatt. revert Hatt.
  generalize (fst (App.finishAnalysis JSON_parse [base64Data] renderMode currentProfile now
                     (App.Analysed analysis) uploading)).
  intros done Hatt (Hres & Hmode3 & Hpilot3 & Hmom).
  refine (conj Hstop (conj Hres (conj Hmode3 (conj Hpilot3 (conj Hatt (conj _ _)))))).
  - intros sf framesFor v.
    exact (controller_without_callback sf framesFor
             {| Playback.app := done; Playback.view := v |} Hpilot3).
  - intros sf frames step.
    destruct (animateSingleStep_momentum sf (App.mode done) frames step done
                                         (or_intror Hmode3)) as [Hbump _].
    cbv zeta in Hbump. rewrite Hbump, Hmom. reflexivity.
Qed.

(** ** Which timers a stop cancels *)

(** [stopLiveAnalysis] cancels exactly the timers the two refs hold.  A
    timer whose handle was overwritten in the ref (as by a capture call in
    standby) stays armed through a stop; every other armed timer stays armed
    as well, and no timer is armed by stopping. *)
Theorem stop_cancels_only_held_timers (st : App.State) (h : positive) :
  App.isArmed h (App.stopLiveAnalysis st)
  = (App.isArmed h st && negb (Live.holds st h))%bool.
Proof. apply stop_armed. Qed.

(** ** How long a step waits *)

Lemma waited_app (a b : list App.event) :
  (Trace.waited (a ++ b) == Trace.waited a + Trace.waited b)%Q.
Proof.
  induction a as [|[pose|ms] a IH]; cbn [app Trace.waited].
  - ring.
  - exact IH.
  - rewrite IH. ring.
Qed.

Lemma waited_setCursorState (f : App.CursorState -> App.CursorState) (st : App.State) :
  (Trace.waited (App.timeline (App.browser (App.setCursorState f st)))
   == Trace.waited (App.timeline (App.browser st)))%Q.
Proof. cbn. rewrite waited_app. cbn. ring. Qed.

Lemma waited_sleep (ms : Q) (st : App.State) :
  (Trace.waited (App.timeline (App.browser (App.sleep ms st)))
   == Trace.waited (App.timeline (App.browser st)) + ms)%Q.
Proof. cbn. rewrite waited_app. cbn. ring. Qed.

(** The time a step that is not a swipe spends waiting.  Such a step always
    resolves.  A tap on a target waits 50 ms for the target lock and
    400 / momentum ms in all (travel, press, recovery); a WAIT step waits
    its own duration, which momentum does not shorten, besides the travel
    and recovery waits; a step without a start point skips travel and lock;
    a swipe lacking its end point only travels, locks and recovers. *)
Theorem step_waiting_time (sf : Q) (closureMode : AppMode) (frames : list Q)
        (step : MacroStep) (st : App.State) :
  App.swipeReady step = false ->
  App.isAutoPilot st = true \/ closureMode = UPLOAD ->
  let r := App.animateSingleStep sf closureMode frames (Some step) st in
  let spent := (Trace.waited (App.timeline (App.browser (fst r)))
                - Trace.waited (App.timeline (App.browser st)))%Q in
  snd r = JS.Resolved
  /\ match type step, coordinates step with
     | TAP, Some _ => (spent == 50 + 400 / sf)%Q
     | TAP, None => (spent == 200 / sf)%Q
     | WAIT, Some _ => (spent == durationMs step + 300 / sf)%Q
     | WAIT, None => (spent == durationMs step + 100 / sf)%Q
     | _, Some _ => (spent == 50 + 300 / sf)%Q
     | _, None => (spent == 100 / sf)%Q
     end.
Proof.
  intros Hsw Hrun r spent. subst spent r.
  rewrite (animateSingleStep_runs _ _ _ _ _ Hrun).
  unfold App.actAndRecover. rewrite Hsw.
  assert (Hbegin : (Trace.waited (App.timeline (App.browser (App.beginStep st)))
                    == Trace.waited (App.timeline (App.browser st)))%Q).
  { unfold App.beginStep. rewrite waited_setCursorState. reflexivity. }
  set (s0 := App.beginStep st) in *. clearbody s0.
  unfold App.lockPhase, App.travelPhase, App.tapAction, App.waitAction, App.recover.
  destruct (type step), (coordinates step) as [c|]; cbn [fst snd];
    (split; [reflexivity|]);
    repeat first [rewrite waited_sleep | rewrite waited_setCursorState];
    rewrite Hbegin; unfold Qdiv; ring.
Qed.

Lemma step_waiting_time_tap :
  let step := Samples.step TAP (Samples.at_ 300 700) None 0 in
  let r := App.animateSingleStep 2 LIVE_VISION [] (Some step) Samples.live in
  (Trace.waited (App.timeline (App.browser (fst r))) == 250)%Q.
Proof.
  intros step r.
  destruct (step_waiting_time 2 LIVE_VISION [] step Samples.live eq_refl
                              (or_introl eq_refl)) as [_ H].
  cbv zeta in H. fold r in H.
  change (type step) with TAP in H.
  change (coordinates step) with (Samples.at_ 300 700) in H.
  cbv iota beta delta [Samples.at_] in H.
  change (Trace.waited (App.timeline (App.browser Samples.live))) with 0%Q in H.
  assert (E : (50 + 400 / 2 == 250)%Q) by reflexivity.
  rewrite E in H. lra.
Defined.
